(** * Console status reporting and version probing of the CLI

    A shallow embedding of the Go packages [pkg/print] (print.go) and
    [pkg/standalone] (version.go), together with the parts of the Go
    standard library the two files call into ([unicode/utf8],
    [encoding/json], [time], [fmt], [sync], [bufio], [strings],
    [os/exec]) and of [github.com/briandowns/spinner].

    Go strings are byte sequences: they are modelled as [string], whose
    characters are the 256 values of [ascii].  Bytes are compared as
    numbers in [N].

    The two packages act on the outside world; the model threads it
    through their functions.  For [print] it is the package variable
    [logAsJSON], the [sync.Once] cells and the sequence of events (calls
    of [Write] on a writer, start and stop of a spinner); the clock is a
    sequence of readings.  For [standalone] it is the sequence of
    processes started, with the outcome of [Cmd.Output] given by a
    function of the processes started before.  [fmt.Sprintf] on the
    values of [interface{}] is a parameter of [print]; a fragment of it
    is defined in [fmt].

    The first part of the file holds the definitions, the second the
    properties. *)

From Stdlib Require Import String Ascii List NArith ZArith Bool Lia.
From Stdlib Require Import DecimalString.
Import ListNotations.

Local Open Scope list_scope.
Local Open Scope string_scope.

(** ** Bytes and byte strings *)

Definition byte_at (s : string) (i : nat) : N :=
  match String.get i s with
  | Some c => N_of_ascii c
  | None => 0%N
  end.

Fixpoint take (n : nat) (s : string) : string :=
  match n, s with
  | S n', String c t => String c (take n' t)
  | _, _ => EmptyString
  end.

Fixpoint drop (n : nat) (s : string) : string :=
  match n, s with
  | S n', String _ t => drop n' t
  | _, _ => s
  end.

(** The concatenation of a list of strings. *)
Fixpoint flat (l : list string) : string :=
  match l with
  | [] => EmptyString
  | x :: l' => x ++ flat l'
  end.

(** Every byte of [s] satisfies [p]. *)
Fixpoint all_bytes (p : N -> bool) (s : string) : bool :=
  match s with
  | EmptyString => true
  | String c t => p (N_of_ascii c) && all_bytes p t
  end.

Definition chr (n : N) : ascii := ascii_of_N n.

(** The double quote, the backslash and the control characters the
    sources write as escapes. *)
Definition dquote : ascii := chr 34.
Definition backslash : ascii := chr 92.
Definition LF : ascii := chr 10.
Definition CR : ascii := chr 13.
Definition TAB : ascii := chr 9.

Definition nl : string := String LF EmptyString.
Definition tab : string := String TAB EmptyString.

(** The last byte of [s], if it has one. *)
Fixpoint last_byte (s : string) : option ascii :=
  match s with
  | EmptyString => None
  | String c EmptyString => Some c
  | String _ t => last_byte t
  end.

(** [s] ends with a newline. *)
Definition ends_with_newline (s : string) : bool :=
  match last_byte s with
  | Some c => Ascii.eqb c LF
  | None => false
  end.

(** The longest prefix of [l] all of whose elements satisfy [p]. *)
Fixpoint take_while {A : Type} (p : A -> bool) (l : list A) : list A :=
  match l with
  | [] => []
  | x :: t => if p x then x :: take_while p t else []
  end.

(** ** unicode/utf8 *)

Module utf8.

Definition RuneError : N := 0xFFFD.
Definition RuneSelf : N := 0x80.
Definition UTFMax : nat := 4.

Definition maskx : N := 0x3F.
Definition mask2 : N := 0x1F.
Definition mask3 : N := 0x0F.
Definition mask4 : N := 0x07.
Definition locb : N := 0x80.
Definition hicb : N := 0xBF.

(** One entry of the table [first]: an ASCII byte, an invalid leading
    byte, or the leading byte of a sequence of [size] bytes whose second
    byte must lie in [lo..hi] (the table [acceptRanges]). *)
Inductive entry : Type :=
| as_ : entry
| xx : entry
| lead (size : nat) (lo hi : N) : entry.

Definition first (b : N) : entry :=
  if (b <? 0x80)%N then as_
  else if (b <? 0xC2)%N then xx
  else if (b <? 0xE0)%N then lead 2 locb hicb
  else if (b =? 0xE0)%N then lead 3 0xA0%N hicb
  else if (b <? 0xED)%N then lead 3 locb hicb
  else if (b =? 0xED)%N then lead 3 locb 0x9F%N
  else if (b <? 0xF0)%N then lead 3 locb hicb
  else if (b =? 0xF0)%N then lead 4 0x90%N hicb
  else if (b <? 0xF4)%N then lead 4 locb hicb
  else if (b =? 0xF4)%N then lead 4 locb 0x8F%N
  else xx.

Definition rune2 (s0 s1 : N) : N :=
  N.lor (N.shiftl (N.land s0 mask2) 6) (N.land s1 maskx).

Definition rune3 (s0 s1 s2 : N) : N :=
  N.lor (N.shiftl (N.land s0 mask3) 12)
        (N.lor (N.shiftl (N.land s1 maskx) 6) (N.land s2 maskx)).

Definition rune4 (s0 s1 s2 s3 : N) : N :=
  N.lor (N.shiftl (N.land s0 mask4) 18)
        (N.lor (N.shiftl (N.land s1 maskx) 12)
               (N.lor (N.shiftl (N.land s2 maskx) 6) (N.land s3 maskx))).

(** [DecodeRuneInString s] is the first rune of [s] and its width in
    bytes; an invalid encoding yields [(RuneError, 1)], the empty string
    [(RuneError, 0)]. *)
Definition DecodeRuneInString (s : string) : N * nat :=
  let n := String.length s in
  if (n <? 1)%nat then (RuneError, 0) else
  let s0 := byte_at s 0 in
  match first s0 with
  | as_ => (s0, 1)
  | xx => (RuneError, 1)
  | lead sz lo hi =>
    if (n <? sz)%nat then (RuneError, 1) else
    let s1 := byte_at s 1 in
    if ((s1 <? lo) || (hi <? s1))%N then (RuneError, 1) else
    if (sz <=? 2)%nat then (rune2 s0 s1, 2) else
    let s2 := byte_at s 2 in
    if ((s2 <? locb) || (hicb <? s2))%N then (RuneError, 1) else
    if (sz <=? 3)%nat then (rune3 s0 s1 s2, 3) else
    let s3 := byte_at s 3 in
    if ((s3 <? locb) || (hicb <? s3))%N then (RuneError, 1) else
    (rune4 s0 s1 s2 s3, 4)
  end.

(** The encodings [DecodeRuneInString] accepts, as a relation between a
    string, the rune at its head and the width of that rune: the table of
    well-formed byte sequences of the Unicode standard, with
    [(RuneError, 1)] for a byte that starts none of them. *)
Inductive decoded : string -> N -> nat -> Prop :=
| decoded_empty : decoded EmptyString RuneError 0
| decoded_ascii (c : ascii) (t : string) :
    (N_of_ascii c < 0x80)%N -> decoded (String c t) (N_of_ascii c) 1
| decoded_invalid (c : ascii) (t : string) :
    (0x80 <= N_of_ascii c)%N -> decoded (String c t) RuneError 1
| decoded_two (c0 c1 : ascii) (t : string) :
    (0xC2 <= N_of_ascii c0 <= 0xDF)%N ->
    (0x80 <= N_of_ascii c1 <= 0xBF)%N ->
    decoded (String c0 (String c1 t)) (rune2 (N_of_ascii c0) (N_of_ascii c1)) 2
| decoded_three (c0 c1 c2 : ascii) (t : string) :
    (0xE0 <= N_of_ascii c0 <= 0xEF)%N ->
    (0x80 <= N_of_ascii c1 <= 0xBF)%N ->
    (N_of_ascii c0 = 0xE0 -> 0xA0 <= N_of_ascii c1)%N ->
    (N_of_ascii c0 = 0xED -> N_of_ascii c1 <= 0x9F)%N ->
    (0x80 <= N_of_ascii c2 <= 0xBF)%N ->
    decoded (String c0 (String c1 (String c2 t)))
      (rune3 (N_of_ascii c0) (N_of_ascii c1) (N_of_ascii c2)) 3
| decoded_four (c0 c1 c2 c3 : ascii) (t : string) :
    (0xF0 <= N_of_ascii c0 <= 0xF4)%N ->
    (0x80 <= N_of_ascii c1 <= 0xBF)%N ->
    (N_of_ascii c0 = 0xF0 -> 0x90 <= N_of_ascii c1)%N ->
    (N_of_ascii c0 = 0xF4 -> N_of_ascii c1 <= 0x8F)%N ->
    (0x80 <= N_of_ascii c2 <= 0xBF)%N ->
    (0x80 <= N_of_ascii c3 <= 0xBF)%N ->
    decoded (String c0 (String c1 (String c2 (String c3 t))))
      (rune4 (N_of_ascii c0) (N_of_ascii c1) (N_of_ascii c2) (N_of_ascii c3)) 4.

(** [invalid_at s]: the bytes at the head of [s] are no encoding of a
    rune (the test [c == RuneError && size == 1] of the callers). *)
Definition invalid_at (s : string) : bool :=
  let (c, size) := DecodeRuneInString s in
  (c =? RuneError)%N && (size =? 1)%nat.

(** [ValidString s]: [s] consists of valid encodings only.  [fuel]
    bounds the number of runes looked at. *)
Fixpoint valid_from (fuel : nat) (s : string) : bool :=
  match fuel with
  | O => true
  | S fuel' =>
    match s with
    | EmptyString => true
    | String _ _ =>
      if invalid_at s then false
      else valid_from fuel' (drop (snd (DecodeRuneInString s)) s)
    end
  end.

Definition ValidString (s : string) : bool := valid_from (String.length s) s.

(** [AppendRune]: the encoding of a rune [r] (below 0x110000 and no
    surrogate; anything else is written as [RuneError]). *)
Definition EncodeRune (r : N) : string :=
  if (r <? 0x80)%N then String (chr r) EmptyString
  else if (r <? 0x800)%N then
    String (chr (N.lor 0xC0 (N.shiftr r 6)))
   (String (chr (N.lor 0x80 (N.land r maskx))) EmptyString)
  else if ((0x10FFFF <? r) || ((0xD800 <=? r) && (r <=? 0xDFFF)))%N then
    String (chr 0xEF) (String (chr 0xBF) (String (chr 0xBD) EmptyString))
  else if (r <? 0x10000)%N then
    String (chr (N.lor 0xE0 (N.shiftr r 12)))
   (String (chr (N.lor 0x80 (N.land (N.shiftr r 6) maskx)))
   (String (chr (N.lor 0x80 (N.land r maskx))) EmptyString))
  else
    String (chr (N.lor 0xF0 (N.shiftr r 18)))
   (String (chr (N.lor 0x80 (N.land (N.shiftr r 12) maskx)))
   (String (chr (N.lor 0x80 (N.land (N.shiftr r 6) maskx)))
   (String (chr (N.lor 0x80 (N.land r maskx))) EmptyString))).

End utf8.

(** ** time *)

Module time.

(** A [time.Time] as its calendar fields in UTC, which is all that
    [Time.UTC] followed by [Time.MarshalJSON] reads.  Go keeps the month
    in 1..12, the day in 1..31, the hour below 24, minute and second
    below 60 and the nanosecond below 10^9; the year is not bounded. *)
Record Time : Type := mkTime {
  Year : Z;
  Month : N;
  Day : N;
  Hour : N;
  Minute : N;
  Second : N;
  Nanosecond : N
}.

Definition digit (n : N) : ascii := chr (48 + n mod 10).

(** [appendInt b x width] for a non-negative [x] that fits in [width]
    digits: [x] in decimal, padded with zeros on the left. *)
Fixpoint appendInt (width : nat) (x : N) : string :=
  match width with
  | O => EmptyString
  | S w => appendInt w (x / 10) ++ String (digit x) EmptyString
  end.

Fixpoint trimZeros (s : string) : string :=
  match s with
  | EmptyString => EmptyString
  | String c t =>
    match trimZeros t with
    | EmptyString => if (N_of_ascii c =? 48)%N then EmptyString else String c EmptyString
    | t' => String c t'
    end
  end.

(** [appendNano] for the layout element [.999999999]: the fraction of a
    second without trailing zeros, nothing at all when it is zero. *)
Definition appendNano (nanosec : N) : string :=
  if (nanosec =? 0)%N then EmptyString
  else "." ++ trimZeros (appendInt 9 nanosec).

(** [t.AppendFormat(b, RFC3339Nano)] for a time in UTC and a year of
    four digits. *)
Definition formatRFC3339Nano (t : Time) : string :=
  appendInt 4 (Z.to_N (Year t)) ++ "-" ++ appendInt 2 (Month t) ++ "-" ++
  appendInt 2 (Day t) ++ "T" ++ appendInt 2 (Hour t) ++ ":" ++
  appendInt 2 (Minute t) ++ ":" ++ appendInt 2 (Second t) ++
  appendNano (Nanosecond t) ++ "Z".

(** [Time.MarshalJSON]: the quoted RFC 3339 time, or an error when the
    year is outside [0,9999]. *)
Definition MarshalJSON (t : Time) : option string :=
  if ((Year t <? 0) || (9999 <? Year t))%Z then None
  else Some (String dquote (formatRFC3339Nano t ++ String dquote EmptyString)).

End time.

(** ** encoding/json *)

Module json.

Definition hex (n : N) : ascii :=
  match String.get (N.to_nat n) "0123456789abcdef" with
  | Some c => c
  | None => "0"%char
  end.

(** The table [htmlSafeSet]: the ASCII bytes [appendString] copies as
    they are when HTML escaping is on ([json.Marshal] turns it on). *)
Definition htmlSafeSet (b : N) : bool :=
  ((0x20 <=? b) && (b <? 0x80) &&
   negb (b =? 34) && negb (b =? 38) && negb (b =? 60) &&
   negb (b =? 62) && negb (b =? 92))%N.

(** The [switch b] of [appendString] for an ASCII byte outside
    [htmlSafeSet].  Backspace and form feed are written [\b] and [\f], as
    Go does from version 1.22 on; before that they were [\u0008] and
    [\u000c], which denote the same bytes. *)
Definition escapeByte (b : N) : string :=
  if ((b =? 92) || (b =? 34))%N then String backslash (String (chr b) EmptyString)
  else if (b =? 8)%N then String backslash "b"
  else if (b =? 12)%N then String backslash "f"
  else if (b =? 10)%N then String backslash "n"
  else if (b =? 13)%N then String backslash "r"
  else if (b =? 9)%N then String backslash "t"
  else String backslash
         ("u00" ++ String (hex (N.shiftr b 4)) (String (hex (N.land b 0xF)) EmptyString)).

(** The loop of [appendString] between the two quotes.  Every turn of
    the loop consumes at least one byte of [src]; [fuel] bounds the
    number of turns.  Go decodes the rune from the next [UTFMax] bytes
    of [src]; [DecodeRuneInString] reads no byte beyond those, so it is
    applied to what is left of [src]. *)
Fixpoint appendBody (fuel : nat) (src : string) : string :=
  match fuel with
  | O => EmptyString
  | S fuel' =>
    match src with
    | EmptyString => EmptyString
    | String c rest =>
      let b := N_of_ascii c in
      if (b <? utf8.RuneSelf)%N then
        if htmlSafeSet b then String c (appendBody fuel' rest)
        else escapeByte b ++ appendBody fuel' rest
      else
        let (r, size) := utf8.DecodeRuneInString src in
        if ((r =? utf8.RuneError)%N && (size =? 1)%nat) then
          String backslash "ufffd" ++ appendBody fuel' (drop size src)
        else if ((r =? 0x2028) || (r =? 0x2029))%N then
          String backslash ("u202" ++ String (hex (N.land r 0xF)) EmptyString)
            ++ appendBody fuel' (drop size src)
        else take size src ++ appendBody fuel' (drop size src)
    end
  end.

Definition appendString (src : string) : string :=
  String dquote (appendBody (String.length src) src ++ String dquote EmptyString).

(** What a JSON string written by [appendString] denotes: [src] with
    every byte that starts no valid encoding replaced by U+FFFD. *)
Fixpoint coerce (fuel : nat) (src : string) : string :=
  match fuel with
  | O => EmptyString
  | S fuel' =>
    match src with
    | EmptyString => EmptyString
    | String _ _ =>
      if utf8.invalid_at src then
        utf8.EncodeRune utf8.RuneError ++ coerce fuel' (drop 1 src)
      else
        let size := snd (utf8.DecodeRuneInString src) in
        take size src ++ coerce fuel' (drop size src)
    end
  end.

Definition toValidUTF8 (src : string) : string := coerce (String.length src) src.

(** *** JSON texts (RFC 8259) and their values *)

#[warnings="-register-all"]
Inductive value : Type :=
| Null : value
| Bool (b : bool) : value
| Number (literal : string) : value
| Str (s : string) : value
| Array (elems : list value) : value
| Object (members : list (string * value)) : value.

Definition is_ws (c : ascii) : bool :=
  let b := N_of_ascii c in ((b =? 32) || (b =? 9) || (b =? 10) || (b =? 13))%N.

Fixpoint skip_ws (s : string) : string :=
  match s with
  | String c t => if is_ws c then skip_ws t else s
  | EmptyString => EmptyString
  end.

Definition hexval (c : ascii) : option N :=
  let b := N_of_ascii c in
  if ((48 <=? b) && (b <=? 57))%N then Some (b - 48)%N
  else if ((97 <=? b) && (b <=? 102))%N then Some (b - 87)%N
  else if ((65 <=? b) && (b <=? 70))%N then Some (b - 55)%N
  else None.

Definition hex4 (a b c d : ascii) : option N :=
  match hexval a, hexval b, hexval c, hexval d with
  | Some x, Some y, Some z, Some w => Some (x * 4096 + y * 256 + z * 16 + w)%N
  | _, _, _, _ => None
  end.

Definition cons_str (p : string) (r : option (string * string)) : option (string * string) :=
  match r with
  | Some (v, rest) => Some (p ++ v, rest)
  | None => None
  end.

Definition single (b : N) : string := String (chr b) EmptyString.

(** The characters of a JSON string after its opening quote, up to and
    including the closing quote: the string denoted and the rest of the
    input.  Control characters must be escaped; a [\u] escape of a
    surrogate must be half of a pair. *)
Fixpoint parse_chars (s : string) : option (string * string) :=
  match s with
  | EmptyString => None
  | String c t =>
    let b := N_of_ascii c in
    if (b =? 34)%N then Some (EmptyString, t)
    else if (b <? 32)%N then None
    else if (b =? 92)%N then
      match t with
      | EmptyString => None
      | String e t1 =>
        let eb := N_of_ascii e in
        if ((eb =? 34) || (eb =? 92) || (eb =? 47))%N then cons_str (single eb) (parse_chars t1)
        else if (eb =? 98)%N then cons_str (single 8) (parse_chars t1)
        else if (eb =? 102)%N then cons_str (single 12) (parse_chars t1)
        else if (eb =? 110)%N then cons_str (single 10) (parse_chars t1)
        else if (eb =? 114)%N then cons_str (single 13) (parse_chars t1)
        else if (eb =? 116)%N then cons_str (single 9) (parse_chars t1)
        else if (eb =? 117)%N then
          match t1 with
          | String h1 (String h2 (String h3 (String h4 t2))) =>
            match hex4 h1 h2 h3 h4 with
            | None => None
            | Some u =>
              if ((0xDC00 <=? u) && (u <=? 0xDFFF))%N then None
              else if ((0xD800 <=? u) && (u <=? 0xDBFF))%N then
                match t2 with
                | String b1 (String b2 (String l1 (String l2 (String l3 (String l4 t3))))) =>
                  if ((N_of_ascii b1 =? 92) && (N_of_ascii b2 =? 117))%N then
                    match hex4 l1 l2 l3 l4 with
                    | None => None
                    | Some lo =>
                      if ((0xDC00 <=? lo) && (lo <=? 0xDFFF))%N then
                        cons_str
                          (utf8.EncodeRune (0x10000 + (u - 0xD800) * 1024 + (lo - 0xDC00))%N)
                          (parse_chars t3)
                      else None
                    end
                  else None
                | _ => None
                end
              else cons_str (utf8.EncodeRune u) (parse_chars t2)
            end
          | _ => None
          end
        else None
      end
    else cons_str (String c EmptyString) (parse_chars t)
  end.

(** The bytes a JSON string holds as they are. *)
Definition plain (b : N) : bool := ((32 <=? b) && negb (b =? 34) && negb (b =? 92))%N.

(** The bytes from the space on: no control character. *)
Definition printable (b : N) : bool := (32 <=? b)%N.

(** No control character and none of [&], [<] and [>]. *)
Definition html_safe (b : N) : bool :=
  ((32 <=? b) && negb (b =? 38) && negb (b =? 60) && negb (b =? 62))%N.

Definition is_digit (c : ascii) : bool :=
  let b := N_of_ascii c in ((48 <=? b) && (b <=? 57))%N.

Fixpoint span_digits (s : string) : string * string :=
  match s with
  | String c t =>
    if is_digit c then let (d, r) := span_digits t in (String c d, r) else (EmptyString, s)
  | EmptyString => (EmptyString, EmptyString)
  end.

Definition is_char (c : ascii) (b : N) : bool := (N_of_ascii c =? b)%N.

(** [number = [ minus ] int [ frac ] [ exp ]]. *)
Definition parse_number (s : string) : option (string * string) :=
  let (sign, s1) :=
    match s with
    | String c t => if is_char c 45 then ("-", t) else (EmptyString, s)
    | EmptyString => (EmptyString, s)
    end in
  let (int, s2) := span_digits s1 in
  match int with
  | EmptyString => None
  | String d ds =>
    if is_char d 48 && negb (String.eqb ds EmptyString) then None else
    let (frac, s3) :=
      match s2 with
      | String c t =>
        if is_char c 46 then let (f, r) := span_digits t in (String c f, r)
        else (EmptyString, s2)
      | EmptyString => (EmptyString, s2)
      end in
    if String.eqb frac "." then None else
    let (exp, s4) :=
      match s3 with
      | String c t =>
        if is_char c 101 || is_char c 69 then
          let (sg, t') :=
            match t with
            | String g u =>
              if is_char g 43 || is_char g 45 then (String g EmptyString, u)
              else (EmptyString, t)
            | EmptyString => (EmptyString, t)
            end in
          let (e, r) := span_digits t' in (String c (sg ++ e), r)
        else (EmptyString, s3)
      | EmptyString => (EmptyString, s3)
      end in
    match exp with
    | String _ e' =>
      if is_digit (match String.get (String.length e' - 1) e' with
                   | Some c => c
                   | None => " "%char
                   end)
      then Some (sign ++ int ++ frac ++ exp, s4) else None
    | EmptyString => Some (sign ++ int ++ frac, s4)
    end
  end.

(** A JSON value at the head of [s], after optional white space.
    [fuel] bounds the nesting and the number of members read. *)
Fixpoint parse_value (fuel : nat) (s : string) : option (value * string) :=
  match fuel with
  | O => None
  | S f =>
    match skip_ws s with
    | EmptyString => None
    | String c t =>
      if is_char c 123 then
        match skip_ws t with
        | String c' t' =>
          if is_char c' 125 then Some (Object [], t')
          else match parse_members f t with
               | Some (ms, r) => Some (Object ms, r)
               | None => None
               end
        | EmptyString => None
        end
      else if is_char c 91 then
        match skip_ws t with
        | String c' t' =>
          if is_char c' 93 then Some (Array [], t')
          else match parse_elements f t with
               | Some (vs, r) => Some (Array vs, r)
               | None => None
               end
        | EmptyString => None
        end
      else if is_char c 34 then
        match parse_chars t with
        | Some (v, r) => Some (Str v, r)
        | None => None
        end
      else if String.prefix "true" (String c t) then Some (Bool true, drop 4 (String c t))
      else if String.prefix "false" (String c t) then Some (Bool false, drop 5 (String c t))
      else if String.prefix "null" (String c t) then Some (Null, drop 4 (String c t))
      else match parse_number (String c t) with
           | Some (n, r) => Some (Number n, r)
           | None => None
           end
    end
  end
with parse_members (fuel : nat) (s : string) : option (list (string * value) * string) :=
  match fuel with
  | O => None
  | S f =>
    match skip_ws s with
    | EmptyString => None
    | String q t =>
      if is_char q 34 then
        match parse_chars t with
        | None => None
        | Some (k, r) =>
          match skip_ws r with
          | EmptyString => None
          | String colon r1 =>
            if is_char colon 58 then
              match parse_value f r1 with
              | None => None
              | Some (v, r2) =>
                match skip_ws r2 with
                | EmptyString => None
                | String sep r3 =>
                  if is_char sep 125 then Some ([(k, v)], r3)
                  else if is_char sep 44 then
                    match parse_members f r3 with
                    | Some (ms, r4) => Some ((k, v) :: ms, r4)
                    | None => None
                    end
                  else None
                end
              end
            else None
          end
        end
      else None
    end
  end
with parse_elements (fuel : nat) (s : string) : option (list value * string) :=
  match fuel with
  | O => None
  | S f =>
    match parse_value f s with
    | None => None
    | Some (v, r) =>
      match skip_ws r with
      | EmptyString => None
      | String sep r1 =>
        if is_char sep 93 then Some ([v], r1)
        else if is_char sep 44 then
          match parse_elements f r1 with
          | Some (vs, r2) => Some (v :: vs, r2)
          | None => None
          end
        else None
      end
    end
  end.

(** A whole JSON text: one value, white space around it, nothing else. *)
Definition Unmarshal (s : string) : option value :=
  match parse_value (S (String.length s)) s with
  | Some (v, r) => if String.eqb (skip_ws r) EmptyString then Some v else None
  | None => None
  end.

(** The value of the member [name] of an object (the last one, when the
    name is repeated, as Go's decoder has it). *)
Fixpoint lookup (name : string) (ms : list (string * value)) : option value :=
  match ms with
  | [] => None
  | (k, v) :: ms' =>
    match lookup name ms' with
    | Some v' => Some v'
    | None => if String.eqb k name then Some v else None
    end
  end.

Definition field (name : string) (v : value) : option value :=
  match v with
  | Object ms => lookup name ms
  | _ => None
  end.

(** The text of an object of three members [time], [status] and [msg]
    whose values are strings, with its quotes and separators spelled out:
    the time [ts] as it stands, [status] and [msg] as [appendString]
    writes them.  [W] is what follows the object. *)
Definition log_text (ts status msg W : string) : string :=
  String "{" (String dquote ("time" ++ String dquote (String ":"
    (String dquote (ts ++ String dquote (String ","
      (String dquote ("status" ++ String dquote (String ":"
        (String dquote (appendBody (String.length status) status ++ String dquote (String ","
          (String dquote ("msg" ++ String dquote (String ":"
            (String dquote (appendBody (String.length msg) msg ++ String dquote
              (String "}" W)))))))))))))))))).

End json.

(** ** fmt *)

Module fmt.

(** The operands of the modelled fragment of [fmt.Sprintf]: strings
    and integers. *)
Inductive operand : Type :=
| OfString (s : string) : operand
| OfInt (z : Z) : operand.

Definition typeName (x : operand) : string :=
  match x with
  | OfString _ => "string"
  | OfInt _ => "int"
  end.

Definition valueString (x : operand) : string :=
  match x with
  | OfString s => s
  | OfInt z => NilZero.string_of_int (Z.to_int z)
  end.

Definition verb_s : N := 115.
Definition verb_d : N := 100.
Definition verb_v : N := 118.
Definition percent : N := 37.

(** [printArg x verb] on the verbs [s], [d] and [v]; a verb that does
    not fit the operand prints [%!verb(type=value)]. *)
Definition printArg (x : operand) (verb : ascii) : string :=
  let v := N_of_ascii verb in
  match x with
  | OfString s =>
    if (v =? verb_d)%N then "%!d(string=" ++ s ++ ")" else s
  | OfInt _ =>
    if (v =? verb_s)%N then "%!s(int=" ++ valueString x ++ ")" else valueString x
  end.

Fixpoint extras (a : list operand) : string :=
  match a with
  | [] => EmptyString
  | [x] => typeName x ++ "=" ++ valueString x
  | x :: a' => typeName x ++ "=" ++ valueString x ++ ", " ++ extras a'
  end.

(** The check after the loop of [doPrintf]: operands left over. *)
Definition extraArgs (a : list operand) : string :=
  match a with
  | [] => EmptyString
  | _ => "%!(EXTRA " ++ extras a ++ ")"
  end.

(** [Sprintf format a] on the fragment of formats made of literal
    bytes, [%%] and the plain verbs [%s], [%d] and [%v] (no flags, width,
    precision or argument index), with Go's diagnostics for a missing
    operand, a missing verb and operands left over.  [None]: the format
    is outside the fragment. *)
Fixpoint Sprintf (format : string) (a : list operand) : option string :=
  match format with
  | EmptyString => Some (extraArgs a)
  | String c t =>
    if negb (N_of_ascii c =? percent)%N then option_map (String c) (Sprintf t a)
    else
      match t with
      | EmptyString => Some ("%!(NOVERB)" ++ extraArgs a)
      | String verb t' =>
        let v := N_of_ascii verb in
        if (v =? percent)%N then option_map (String verb) (Sprintf t' a)
        else if ((v =? verb_s) || (v =? verb_d) || (v =? verb_v))%N then
          match a with
          | [] => option_map (append ("%!" ++ String verb "(MISSING)")) (Sprintf t' [])
          | x :: a' => option_map (append (printArg x verb)) (Sprintf t' a')
          end
        else None
      end
  end.

(** A formatter [f] behaves as Go's on the modelled fragment. *)
Definition agrees (f : string -> list operand -> string) : Prop :=
  forall format a s, Sprintf format a = Some s -> f format a = s.

(** The fragment made total: a format outside it is left as it is. *)
Definition SprintfOr (format : string) (a : list operand) : string :=
  match Sprintf format a with
  | Some s => s
  | None => format
  end.

End fmt.

(** ** sync *)

Module sync.

(** Where a goroutine stands in a call of [Once.Do(f)]: about to
    load [done] on the fast path; in [doSlow], about to lock [m]; holding
    [m], about to load [done] again; holding [m] with [f] returned and
    the deferred [done.Store(1)] next; holding [m] with the deferred
    [m.Unlock()] next; returned. *)
Inductive pc : Type :=
| Called : pc
| Slow : pc
| Locked : pc
| Ran : pc
| Unlocking : pc
| Returned : pc.

Section Once.

(** The state the functions passed to [Do] act on, and what the
    function of goroutine [i] does to it. *)
Variable W : Type.
Variable f : nat -> W -> W.

(** A [Once] shared by goroutines: the state outside it, its fields
    [done] and [m] ([true]: locked), where each goroutine stands, and the
    goroutines that locked [m], in order. *)
Record State : Type := mkState {
  world : W;
  done : bool;
  m : bool;
  at_ : nat -> pc;
  acquired : list nat
}.

Definition move (p : nat -> pc) (i : nat) (c : pc) : nat -> pc :=
  fun j => if Nat.eqb j i then c else p j.

(** One step of goroutine [i]; [None]: it waits for [m], or has
    returned. *)
Definition step (i : nat) (st : State) : option State :=
  match at_ st i with
  | Called =>
    Some (mkState (world st) (done st) (m st)
            (move (at_ st) i (if done st then Returned else Slow)) (acquired st))
  | Slow =>
    if m st then None
    else Some (mkState (world st) (done st) true (move (at_ st) i Locked)
                 (acquired st ++ [i]))
  | Locked =>
    if done st then
      Some (mkState (world st) (done st) (m st) (move (at_ st) i Unlocking) (acquired st))
    else
      Some (mkState (f i (world st)) (done st) (m st) (move (at_ st) i Ran) (acquired st))
  | Ran =>
    Some (mkState (world st) true (m st) (move (at_ st) i Unlocking) (acquired st))
  | Unlocking =>
    Some (mkState (world st) (done st) false (move (at_ st) i Returned) (acquired st))
  | Returned => None
  end.

(** A schedule names the goroutine to move next; one that cannot move
    is passed over. *)
Fixpoint run (schedule : list nat) (st : State) : State :=
  match schedule with
  | [] => st
  | i :: rest =>
    run rest (match step i st with
              | Some st' => st'
              | None => st
              end)
  end.

(** A fresh [Once], every goroutine about to call [Do]. *)
Definition start (w : W) : State := mkState w false false (fun _ => Called) [].

(** The first [n] goroutines have returned from [Do]. *)
Definition returned (n : nat) (st : State) : Prop :=
  forall i, i < n -> at_ st i = Returned.

(** The schedule that lets the goroutines [k], ..., [k + n - 1] call
    [Do] one after the other: five steps each. *)
Fixpoint in_turn (k n : nat) : list nat :=
  match n with
  | O => []
  | S n' => k :: k :: k :: k :: k :: in_turn (S k) n'
  end.

(** A goroutine that has not yet locked [m]. *)
Definition waiting (c : pc) : Prop := c = Called \/ c = Slow.

(** What holds of a [Once] started on the world [w0], whatever the
    schedule: nobody has locked [m] and the world is untouched; or the
    first goroutine to lock [m] holds it, before or after running its
    function, and the others wait; or [done] is set, the world is what
    the function of that first goroutine made of [w0], and no function
    is running. *)
Inductive inv (w0 : W) (st : State) : Prop :=
| inv_fresh :
    acquired st = [] -> world st = w0 -> done st = false -> m st = false ->
    (forall i, waiting (at_ st i)) -> inv w0 st
| inv_locked (j : nat) :
    acquired st = [j] -> world st = w0 -> done st = false -> m st = true ->
    at_ st j = Locked -> (forall i, i <> j -> waiting (at_ st i)) -> inv w0 st
| inv_ran (j : nat) :
    acquired st = [j] -> world st = f j w0 -> done st = false -> m st = true ->
    at_ st j = Ran -> (forall i, i <> j -> waiting (at_ st i)) -> inv w0 st
| inv_done (j : nat) (rest : list nat) :
    acquired st = j :: rest -> world st = f j w0 -> done st = true ->
    (forall i, at_ st i <> Ran) -> inv w0 st.

End Once.

End sync.

(** ** github.com/briandowns/spinner *)

Module spinner.

(** What [spinner.New] and the assignments that follow it in [Spinner]
    fix of a spinner: character set, delay (nanoseconds), colour, the
    writer it animates on and the suffix it shows. *)
Record Spinner : Type := mkSpinner {
  CharSet : nat;
  Delay : N;
  Color : string;
  Writer : nat;
  Suffix : string
}.

End spinner.

(** ** pkg/print *)

Module print.

Definition windowsOS : string := "windows".

Definition Result : Type := bool.
Definition Success : Result := true.
Definition Failure : Result := false.

(** An [io.Writer] is known by its identity. *)
Definition Writer : Type := nat.

(** What the package does to the outside, in order: a call of [Write]
    on a writer (whatever the writer answers is dropped by the callers),
    and the start and stop of a spinner, which animates on its writer in
    between. *)
Inductive Event : Type :=
| EvWrite (w : Writer) (p : string) : Event
| EvSpinnerStart (s : spinner.Spinner) : Event
| EvSpinnerStop (s : spinner.Spinner) : Event.

(** The state a call runs in: the package variable [logAsJSON], the
    number of clock readings taken so far, the [sync.Once] cells
    allocated so far ([true]: done), and the events so far. *)
Record World : Type := mkWorld {
  logAsJSON : bool;
  clock : nat;
  onces : list bool;
  trace : list Event
}.

(** The world at program start: [var logAsJSON bool] is [false]. *)
Definition initial : World := mkWorld false 0 [] [].

Definition M (A : Type) : Type := World -> A * World.

Definition ret {A : Type} (a : A) : M A := fun g => (a, g).

Definition bind {A B : Type} (m : M A) (k : A -> M B) : M B :=
  fun g => let (a, g') := m g in k a g'.

Notation "x <- m ;; k" := (bind m (fun x => k))
  (at level 61, m at next level, right associativity).
Notation "m ;;; k" := (bind m (fun _ => k))
  (at level 61, right associativity).

Definition emit (e : Event) : M unit :=
  fun g => (tt, mkWorld (logAsJSON g) (clock g) (onces g) (trace g ++ [e])%list).

(** [fmt.Fprintf(w, "...%s\n", s)] and [fmt.Fprintln(w, s)] with the
    bytes [p] they produce: one call of [w.Write(p)]. *)
Definition Fprint (w : Writer) (p : string) : M unit := emit (EvWrite w p).

Definition getLogAsJSON : M bool := fun g => (logAsJSON g, g).

Definition EnableJSONFormat : M unit :=
  fun g => (tt, mkWorld true (clock g) (onces g) (trace g)).

Definition IsJSONLogEnabled : M bool := getLogAsJSON.

(** [var once sync.Once]: a fresh cell, not done. *)
Definition newOnce : M nat :=
  fun g => (List.length (onces g),
            mkWorld (logAsJSON g) (clock g) (onces g ++ [false])%list (trace g)).

Fixpoint set_done (o : nat) (l : list bool) : list bool :=
  match l, o with
  | [], _ => []
  | _ :: l', O => true :: l'
  | b :: l', S o' => b :: set_done o' l'
  end.

Definition is_done (o : nat) (g : World) : bool := nth o (onces g) false.

(** [once.Do(f)]: [f] runs if the cell is not done, and the cell is
    done when [f] has returned. *)
Definition Once_Do (o : nat) (f : M unit) : M unit :=
  fun g =>
    if is_done o g then (tt, g)
    else let (_, g') := f g in
         (tt, mkWorld (logAsJSON g') (clock g') (set_done o (onces g')) (trace g')).

(** The struct [jsonLog] of [logJSON]. *)
Record jsonLog : Type := mkJsonLog {
  Time : time.Time;
  Status : string;
  Message : string
}.

(** [json.Marshal(&l)]: the fields in order under their tags [time],
    [status] and [msg]; the only error is that of [Time.MarshalJSON]. *)
Definition Marshal (l : jsonLog) : option string :=
  match time.MarshalJSON (Time l) with
  | None => None
  | Some t =>
    Some ("{" ++ json.appendString "time" ++ ":" ++ t ++ "," ++
          json.appendString "status" ++ ":" ++ json.appendString (Status l) ++ "," ++
          json.appendString "msg" ++ ":" ++ json.appendString (Message l) ++ "}")
  end.

Section Package.

(** The values of [interface{}], [fmt.Sprintf] on them, the constant
    [runtime.GOOS], and the successive readings of [time.Now().UTC()]. *)
Variable any : Type.
Variable Sprintf : string -> list any -> string.
Variable GOOS : string.
Variable Now : nat -> time.Time.

Definition time_Now_UTC : M time.Time :=
  fun g => (Now (clock g), mkWorld (logAsJSON g) (S (clock g)) (onces g) (trace g)).

Definition logJSON (w : Writer) (status message : string) : M unit :=
  now <- time_Now_UTC ;;
  let l := mkJsonLog now status message in
  match Marshal l with
  | None => Fprint w (message ++ nl)
  | Some jsonBytes => Fprint w (jsonBytes ++ nl)
  end.

(** SuccessStatusEvent reports on a success event. *)
Definition SuccessStatusEvent (w : Writer) (fmtstr : string) (a : list any) : M unit :=
  json <- getLogAsJSON ;;
  if json then logJSON w "success" (Sprintf fmtstr a)
  else if String.eqb GOOS windowsOS then Fprint w (Sprintf fmtstr a ++ nl)
  else Fprint w ("✅  " ++ Sprintf fmtstr a ++ nl).

(** FailureStatusEvent reports on a failure event. *)
Definition FailureStatusEvent (w : Writer) (fmtstr : string) (a : list any) : M unit :=
  json <- getLogAsJSON ;;
  if json then logJSON w "failure" (Sprintf fmtstr a)
  else if String.eqb GOOS windowsOS then Fprint w (Sprintf fmtstr a ++ nl)
  else Fprint w ("❌  " ++ Sprintf fmtstr a ++ nl).

(** WarningStatusEvent reports on a failure event. *)
Definition WarningStatusEvent (w : Writer) (fmtstr : string) (a : list any) : M unit :=
  json <- getLogAsJSON ;;
  if json then logJSON w "warning" (Sprintf fmtstr a)
  else if String.eqb GOOS windowsOS then Fprint w (Sprintf fmtstr a ++ nl)
  else Fprint w ("⚠  " ++ Sprintf fmtstr a ++ nl).

(** PendingStatusEvent reports on a pending event. *)
Definition PendingStatusEvent (w : Writer) (fmtstr : string) (a : list any) : M unit :=
  json <- getLogAsJSON ;;
  if json then logJSON w "pending" (Sprintf fmtstr a)
  else if String.eqb GOOS windowsOS then Fprint w (Sprintf fmtstr a ++ nl)
  else Fprint w ("⌛  " ++ Sprintf fmtstr a ++ nl).

(** InfoStatusEvent reports status information on an event. *)
Definition InfoStatusEvent (w : Writer) (fmtstr : string) (a : list any) : M unit :=
  json <- getLogAsJSON ;;
  if json then logJSON w "info" (Sprintf fmtstr a)
  else if String.eqb GOOS windowsOS then Fprint w (Sprintf fmtstr a ++ nl)
  else Fprint w ("ℹ️  " ++ Sprintf fmtstr a ++ nl).

(** The function values [Spinner] returns: the dummy of the Windows
    branch, and the closure over [once], [s] ([None]: nil), [w] and
    [msg]. *)
Inductive completion : Type :=
| dummy : completion
| closure (once : nat) (s : option spinner.Spinner) (w : Writer) (msg : string) : completion.

Definition Spinner (w : Writer) (fmtstr : string) (a : list any) : M completion :=
  let msg := Sprintf fmtstr a in
  once <- newOnce ;;
  json <- getLogAsJSON ;;
  if json then
    logJSON w "pending" msg ;;;
    ret (closure once None w msg)
  else if String.eqb GOOS windowsOS then
    Fprint w (msg ++ nl) ;;;
    ret dummy
  else
    let s := spinner.mkSpinner 0 100000000 "cyan" w ("  " ++ msg) in
    emit (EvSpinnerStart s) ;;;
    ret (closure once (Some s) w msg).

(** The function literal passed to [once.Do] in the closure. *)
Definition body (s : option spinner.Spinner) (w : Writer) (msg : string) (result : Result)
  : M unit :=
  match s with
  | Some sp => emit (EvSpinnerStop sp)
  | None => ret tt
  end ;;;
  if result then SuccessStatusEvent w msg []
  else FailureStatusEvent w msg [].

(** Calling the function value [f] with [result]. *)
Definition call (f : completion) (result : Result) : M unit :=
  match f with
  | dummy => ret tt
  | closure once s w msg => Once_Do once (body s w msg result)
  end.

(** What the function literal guarded by the [Once] of [f] does to the
    world, in the call of [f] with the argument [result]. *)
Definition guarded (f : completion) (result : Result) (g : World) : World :=
  match f with
  | dummy => g
  | closure _ s w msg => snd (body s w msg result g)
  end.

(** Goroutines that call [f] at the same time, goroutine [i] with the
    argument [results i]: the [Once] of the closure under a schedule. *)
Definition concurrent_calls (f : completion) (results : nat -> Result)
    (schedule : list nat) (g : World) : sync.State World :=
  sync.run World (fun i => guarded f (results i)) schedule (sync.start World g).

(** *** The five severities at once *)

Inductive Severity : Type :=
| success : Severity
| failure : Severity
| warning : Severity
| pending : Severity
| info : Severity.

Definition tag (t : Severity) : string :=
  match t with
  | success => "success"
  | failure => "failure"
  | warning => "warning"
  | pending => "pending"
  | info => "info"
  end.

(** The icons as UTF-8: U+2705, U+274C, U+26A0, U+231B, and U+2139
    followed by the variation selector U+FE0F. *)
Definition icon (t : Severity) : string :=
  match t with
  | success => "✅"
  | failure => "❌"
  | warning => "⚠"
  | pending => "⌛"
  | info => "ℹ️"
  end.

Definition StatusEvent (t : Severity) : Writer -> string -> list any -> M unit :=
  match t with
  | success => SuccessStatusEvent
  | failure => FailureStatusEvent
  | warning => WarningStatusEvent
  | pending => PendingStatusEvent
  | info => InfoStatusEvent
  end.

(** The bytes a status event of severity [t] writes for the formatted
    message [m], with [logAsJSON] equal to [json] and the clock reading
    [now]. *)
Definition status_line (json : bool) (now : time.Time) (t : Severity) (m : string) : string :=
  if json then
    match Marshal (mkJsonLog now (tag t) m) with
    | Some jsonBytes => jsonBytes ++ nl
    | None => m ++ nl
    end
  else if String.eqb GOOS windowsOS then m ++ nl
  else icon t ++ "  " ++ m ++ nl.

(** The severity a completion reports for a result. *)
Definition outcome (result : Result) : Severity := if result then success else failure.

(** *** The exported operations as calls of a client *)

Inductive Call : Type :=
| CallEnableJSONFormat : Call
| CallIsJSONLogEnabled : Call
| CallStatusEvent (t : Severity) (w : Writer) (fmtstr : string) (a : list any) : Call
| CallSpinner (w : Writer) (fmtstr : string) (a : list any) : Call
| CallCompletion (f : completion) (result : Result) : Call.

Definition exec (c : Call) (g : World) : World :=
  match c with
  | CallEnableJSONFormat => snd (EnableJSONFormat g)
  | CallIsJSONLogEnabled => snd (IsJSONLogEnabled g)
  | CallStatusEvent t w fmtstr a => snd (StatusEvent t w fmtstr a g)
  | CallSpinner w fmtstr a => snd (Spinner w fmtstr a g)
  | CallCompletion f result => snd (call f result g)
  end.

Definition run (cs : list Call) (g : World) : World := fold_left (fun g c => exec c g) cs g.

(** [calls f rs]: the function value [f] called once per element of
    [rs], in the order in which the calls reach the guard. *)
Definition calls (f : completion) (rs : list Result) (g : World) : World :=
  fold_left (fun g r => snd (call f r g)) rs g.

(** The events a step from [g] to [g'] added. *)
Definition added (g g' : World) : list Event := skipn (List.length (trace g)) (trace g').

Definition is_write (e : Event) : bool :=
  match e with
  | EvWrite _ _ => true
  | _ => false
  end.

Definition writes (es : list Event) : list Event := filter is_write es.

(** The writer an event reaches: the one written to, or the one the
    spinner animates on. *)
Definition writer_of (e : Event) : Writer :=
  match e with
  | EvWrite w _ => w
  | EvSpinnerStart s => spinner.Writer s
  | EvSpinnerStop s => spinner.Writer s
  end.

(** The call is one of [EnableJSONFormat]. *)
Definition is_enable (c : Call) : bool :=
  match c with
  | CallEnableJSONFormat => true
  | _ => false
  end.

End Package.

End print.

(** ** io.Writer values, and how a call ends for its caller *)

Module io.

(** A value of the interface [io.Writer]: the nil interface, or a
    writer. *)
Inductive Writer : Type :=
| nil : Writer
| writer (id : print.Writer) : Writer.

(** What [Write] returns: the number of bytes written, and the error. *)
Definition answer : Type := (nat * option string)%type.

End io.

(** The status events and [logJSON] once more, with what the module
    [print] above leaves out: the writer may be the nil interface, on
    which the call [w.Write(p)] inside [fmt.Fprintf] and [fmt.Fprintln]
    panics, and [Write] answers with a count and an error, which the
    callers drop. *)
Module outcome.

(** How a call ends for its caller: it returns, or it panics; either
    way in the world it has made by then. *)
Inductive Outcome (A : Type) : Type :=
| Returned (a : A) (g : print.World) : Outcome A
| Panicked (g : print.World) : Outcome A.

Arguments Returned {A} a g.
Arguments Panicked {A} g.

Definition X (A : Type) : Type := print.World -> Outcome A.

Definition ret {A : Type} (a : A) : X A := fun g => Returned a g.

(** A panic ends what follows. *)
Definition bind {A B : Type} (m : X A) (k : A -> X B) : X B :=
  fun g =>
    match m g with
    | Returned a g' => k a g'
    | Panicked g' => Panicked g'
    end.

Notation "x <- m ;; k" := (bind m (fun x => k))
  (at level 61, m at next level, right associativity).
Notation "m ;;; k" := (bind m (fun _ => k))
  (at level 61, right associativity).

(** The steps that cannot panic. *)
Definition lift {A : Type} (m : print.M A) : X A :=
  fun g => let (a, g') := m g in Returned a g'.

Section Package.

Variable any : Type.
Variable Sprintf : string -> list any -> string.
Variable GOOS : string.
Variable Now : nat -> time.Time.

(** What the [Write] of a writer answers, given the events so far and
    the bytes. *)
Variable Write : list print.Event -> print.Writer -> string -> io.answer.

(** [fmt.Fprintf(w, "...%s\n", s)] and [fmt.Fprintln(w, s)] with the
    bytes [p] they have formatted: they call [w.Write(p)] and return
    what it answers; the call panics if [w] is nil. *)
Definition Fprint (w : io.Writer) (p : string) : X io.answer :=
  fun g =>
    match w with
    | io.nil => Panicked g
    | io.writer i => Returned (Write (print.trace g) i p) (snd (print.Fprint i p g))
    end.

Definition logJSON (w : io.Writer) (status message : string) : X unit :=
  now <- lift (print.time_Now_UTC Now) ;;
  let l := print.mkJsonLog now status message in
  match print.Marshal l with
  | None => Fprint w (message ++ nl) ;;; ret tt
  | Some jsonBytes => Fprint w (jsonBytes ++ nl) ;;; ret tt
  end.

Definition SuccessStatusEvent (w : io.Writer) (fmtstr : string) (a : list any) : X unit :=
  json <- lift print.getLogAsJSON ;;
  if json then logJSON w "success" (Sprintf fmtstr a)
  else if String.eqb GOOS print.windowsOS then Fprint w (Sprintf fmtstr a ++ nl) ;;; ret tt
  else Fprint w ("✅  " ++ Sprintf fmtstr a ++ nl) ;;; ret tt.

Definition FailureStatusEvent (w : io.Writer) (fmtstr : string) (a : list any) : X unit :=
  json <- lift print.getLogAsJSON ;;
  if json then logJSON w "failure" (Sprintf fmtstr a)
  else if String.eqb GOOS print.windowsOS then Fprint w (Sprintf fmtstr a ++ nl) ;;; ret tt
  else Fprint w ("❌  " ++ Sprintf fmtstr a ++ nl) ;;; ret tt.

Definition WarningStatusEvent (w : io.Writer) (fmtstr : string) (a : list any) : X unit :=
  json <- lift print.getLogAsJSON ;;
  if json then logJSON w "warning" (Sprintf fmtstr a)
  else if String.eqb GOOS print.windowsOS then Fprint w (Sprintf fmtstr a ++ nl) ;;; ret tt
  else Fprint w ("⚠  " ++ Sprintf fmtstr a ++ nl) ;;; ret tt.

Definition PendingStatusEvent (w : io.Writer) (fmtstr : string) (a : list any) : X unit :=
  json <- lift print.getLogAsJSON ;;
  if json then logJSON w "pending" (Sprintf fmtstr a)
  else if String.eqb GOOS print.windowsOS then Fprint w (Sprintf fmtstr a ++ nl) ;;; ret tt
  else Fprint w ("⌛  " ++ Sprintf fmtstr a ++ nl) ;;; ret tt.

Definition InfoStatusEvent (w : io.Writer) (fmtstr : string) (a : list any) : X unit :=
  json <- lift print.getLogAsJSON ;;
  if json then logJSON w "info" (Sprintf fmtstr a)
  else if String.eqb GOOS print.windowsOS then Fprint w (Sprintf fmtstr a ++ nl) ;;; ret tt
  else Fprint w ("ℹ️  " ++ Sprintf fmtstr a ++ nl) ;;; ret tt.

Definition StatusEvent (t : print.Severity) : io.Writer -> string -> list any -> X unit :=
  match t with
  | print.success => SuccessStatusEvent
  | print.failure => FailureStatusEvent
  | print.warning => WarningStatusEvent
  | print.pending => PendingStatusEvent
  | print.info => InfoStatusEvent
  end.

End Package.

End outcome.

(** ** strings, bufio, os/exec *)

Module strings.

Fixpoint Join (elems : list string) (sep : string) : string :=
  match elems with
  | [] => EmptyString
  | [x] => x
  | x :: rest => x ++ sep ++ Join rest sep
  end.

Fixpoint Repeat (s : string) (count : nat) : string :=
  match count with
  | O => EmptyString
  | S n => s ++ Repeat s n
  end.

End strings.

Module bufio.

Definition MaxScanTokenSize : nat := 64 * 1024.

Fixpoint IndexByte (s : string) (c : ascii) : option nat :=
  match s with
  | EmptyString => None
  | String x t =>
    if Ascii.eqb x c then Some 0
    else match IndexByte t c with
         | Some i => Some (S i)
         | None => None
         end
  end.

(** [dropCR] drops a terminal carriage return from the data. *)
Fixpoint dropCR (data : string) : string :=
  match data with
  | EmptyString => EmptyString
  | String c EmptyString => if Ascii.eqb c CR then EmptyString else data
  | String c t => String c (dropCR t)
  end.

(** What a split function answers: it needs more data, or a token and
    the number of bytes to advance by. *)
Inductive split : Type :=
| more : split
| token (advance : nat) (text : string) : split.

Definition ScanLines (data : string) (atEOF : bool) : split :=
  if atEOF && (String.length data =? 0)%nat then more
  else match IndexByte data LF with
       | Some i => token (i + 1) (dropCR (take i data))
       | None => if atEOF then token (String.length data) (dropCR data) else more
       end.

(** One [Scan] of a scanner over a [strings.Reader] with [input] left
    to read: the token and the input left after it, or [None] when the
    scan stops.  The buffer grows to [maxTokenSize] bytes and no
    further: the split function sees at most the first [maxTokenSize]
    bytes of the input, and it is told of the end of the input only if
    the input leaves room in the buffer for the read that finds it.  A
    buffer that is full without a token is [ErrTooLong]; like the end of
    the input it makes [Scan] return false. *)
Definition Scan (maxTokenSize : nat) (input : string) : option (string * string) :=
  let data := take maxTokenSize input in
  let atEOF := (String.length input <? maxTokenSize)%nat in
  match ScanLines data atEOF with
  | token advance text => Some (text, drop advance input)
  | more => None
  end.

(** The texts of the successive scans of [input], until a scan stops. *)
Fixpoint tokens (maxTokenSize fuel : nat) (input : string) : list string :=
  match fuel with
  | O => []
  | S fuel' =>
    match Scan maxTokenSize input with
    | Some (text, rest) => text :: tokens maxTokenSize fuel' rest
    | None => []
    end
  end.

End bufio.

Module exec.

(** Why [Cmd.Output] failed: the binary is not there, it exited with a
    status other than zero, or an I/O error. *)
Inductive Error : Type :=
| ErrNotFound (name : string) : Error
| ExitError (status : Z) : Error
| IOError (msg : string) : Error.

End exec.

(** ** pkg/standalone *)

Module standalone.

(** A process started: the binary and its arguments. *)
Definition Invocation : Type := (string * list string)%type.

Definition M (A : Type) : Type := list Invocation -> A * list Invocation.

Definition ret {A : Type} (a : A) : M A := fun h => (a, h).

Definition bind {A B : Type} (m : M A) (k : A -> M B) : M B :=
  fun h => let (a, h') := m h in k a h'.

Notation "x <- m ;; k" := (bind m (fun x => k))
  (at level 61, m at next level, right associativity).

(** The text the lines of a captured output stand for in the words of
    the specification: what a newline ends is a line, and so is what is
    left after the last newline, unless nothing is left. *)
Fixpoint lines (s : string) : list string :=
  match s with
  | EmptyString => []
  | String c t =>
    if Ascii.eqb c LF then EmptyString :: lines t
    else match lines t with
         | [] => [String c EmptyString]
         | l :: ls => String c l :: ls
         end
  end.

(** No line of [out] reaches the size of the scanner's buffer. *)
Definition short_lines (out : string) : bool :=
  forallb (fun l => (String.length l <? bufio.MaxScanTokenSize)%nat) (lines out).

Section Package.

(** Injected by the build. *)
Variables gitcommit gitversion : string.

(** The two functions of the package that are defined in other files:
    the installation directory, and the path of a binary in it. *)
Variable defaultDaprBinPath : string.
Variable binaryFilePath : string -> string -> string.

(** [exec.Command(name, arg...).Output()], given the processes started
    before: the captured standard output and the error. *)
Variable Output : list Invocation -> Invocation -> string * option exec.Error.

Definition Command_Output (name : string) (arg : list string) : M (string * option exec.Error) :=
  fun h => (Output h (name, arg), (h ++ [(name, arg)])%list).

(** GetRuntimeVersion returns the version for the local Dapr runtime. *)
Definition GetRuntimeVersion : M string :=
  let daprBinDir := defaultDaprBinPath in
  let daprCMD := binaryFilePath daprBinDir "daprd" in
  r <- Command_Output daprCMD ["--version"] ;;
  match snd r with
  | Some _ => ret ("n/a" ++ nl)
  | None => ret (fst r)
  end.

(** GetDashboardVersion returns the version for the local Dapr dashboard. *)
Definition GetDashboardVersion : M string :=
  let daprBinDir := defaultDaprBinPath in
  let dashboardCMD := binaryFilePath daprBinDir "dashboard" in
  r <- Command_Output dashboardCMD ["--version"] ;;
  match snd r with
  | Some _ => ret ("n/a" ++ nl)
  | None => ret (fst r)
  end.

(** The loop [for scanner.Scan() { strs = append(strs, "\t"+scanner.Text()) }].
    Every scan that returns a token consumes input; [fuel] bounds the
    number of scans. *)
Fixpoint scanAll (fuel : nat) (input : string) (strs : list string) : list string :=
  match fuel with
  | O => strs
  | S fuel' =>
    match bufio.Scan bufio.MaxScanTokenSize input with
    | Some (text, rest) => scanAll fuel' rest (List.app strs [tab ++ text])
    | None => strs
    end
  end.

(** GetBuildInfo returns build info for the CLI and the local Dapr runtime. *)
Definition GetBuildInfo (version : string) : M string :=
  let daprBinDir := defaultDaprBinPath in
  let daprCMD := binaryFilePath daprBinDir "daprd" in
  let strs := [ "CLI:";
                tab ++ "Version: " ++ version;
                tab ++ "Git Commit: " ++ gitcommit;
                tab ++ "Git Version: " ++ gitversion;
                "Runtime:" ] in
  r <- Command_Output daprCMD ["--build-info"] ;;
  r <- match snd r with
       | Some _ => Command_Output daprCMD ["--version"]
       | None => ret r
       end ;;
  let strs :=
    match snd r with
    | Some _ => List.app strs [tab ++ "N/A"]
    | None => scanAll (S (String.length (fst r))) (fst r) strs
    end in
  ret (strings.Join strs nl).

(** The report in full: the four lines of the CLI section, the line
    [Runtime:], and each line of [body] after a newline and a tab. *)
Definition report (version : string) (body : list string) : string :=
  "CLI:" ++ nl ++
  tab ++ "Version: " ++ version ++ nl ++
  tab ++ "Git Commit: " ++ gitcommit ++ nl ++
  tab ++ "Git Version: " ++ gitversion ++ nl ++
  "Runtime:" ++ flat (map (fun l => nl ++ tab ++ l) body).

End Package.

End standalone.

(** ** Sample inputs *)

Module example.

Definition binaryFilePath (dir name : string) : string := dir ++ "/" ++ name.

Definition binDir : string := "/home/user/.dapr/bin".

(** A runtime that does not know [--build-info] and prints its version
    on [--version]. *)
Definition old_runtime (h : list standalone.Invocation) (i : standalone.Invocation)
  : string * option exec.Error :=
  match snd i with
  | ["--version"] => ("Runtime: 1.0.0" ++ nl, None)
  | _ => (EmptyString, Some (exec.ExitError 2))
  end.

(** No binary at all. *)
Definition absent (h : list standalone.Invocation) (i : standalone.Invocation)
  : string * option exec.Error :=
  (EmptyString, Some (exec.ErrNotFound (fst i))).

(** A runtime that succeeds and prints nothing. *)
Definition silent (h : list standalone.Invocation) (i : standalone.Invocation)
  : string * option exec.Error :=
  (EmptyString, None).

(** Three lines, the second of them as long as the scanner's buffer. *)
Definition long_output : string :=
  "ok" ++ nl ++ strings.Repeat "x" bufio.MaxScanTokenSize ++ nl ++ "more".

Definition verbose (h : list standalone.Invocation) (i : standalone.Invocation)
  : string * option exec.Error :=
  (long_output, None).

(** A stub that prints a version. *)
Definition stub (h : list standalone.Invocation) (i : standalone.Invocation)
  : string * option exec.Error :=
  ("1.2.3" ++ nl, None).

(** A runtime that ends its lines with a carriage return and a newline. *)
Definition crlf (h : list standalone.Invocation) (i : standalone.Invocation)
  : string * option exec.Error :=
  ("Runtime: 1.0.0" ++ String CR nl ++ "Go: 1.17" ++ String CR nl, None).

(** A clock that stands still. *)
Definition noon : time.Time := time.mkTime 2021 3 9 12 0 0 120000000.
Definition clock (n : nat) : time.Time := noon.


(** One byte that is no UTF-8. *)
Definition bad_utf8 : string := String (chr 0xFF) EmptyString.

(** JSON mode turned on at program start. *)
Definition json_mode : print.World := snd (print.EnableJSONFormat print.initial).

(** Two goroutines call the function a spinner returned, goroutine 0
    with [Success] and goroutine 1 with [Failure]; goroutine 1 locks the
    guard first, and goroutine 0 waits for it in between. *)
Definition results (i : nat) : print.Result :=
  match i with
  | O => print.Success
  | _ => print.Failure
  end.

Definition race : list nat := [0; 1; 1; 0; 1; 1; 1; 0; 0; 0].

(** Goroutine 1 goes through its call, goroutine 0 has not moved. *)
Definition alone : list nat := [1; 1; 1; 1; 1].


(** A message of two lines with markup in it. *)
Definition two_lines : string := "<b>done</b>" ++ nl ++ "& more".

End example.

(** * Properties *)

(** ** Byte strings *)

Lemma length_take (n : nat) (s : string) :
  String.length (take n s) = Nat.min n (String.length s).
Proof.
  revert s; induction n as [|n IH]; intros [|c t]; simpl; auto.
Qed.

Lemma length_drop (n : nat) (s : string) :
  String.length (drop n s) = String.length s - n.
Proof.
  revert s; induction n as [|n IH]; intros [|c t]; simpl; auto.
Qed.

Lemma take_all (n : nat) (s : string) :
  String.length s <= n -> take n s = s.
Proof.
  revert s; induction n as [|n IH]; intros [|c t]; simpl; intros H; try lia; auto.
  f_equal; apply IH; lia.
Qed.

Lemma take_take (i n : nat) (s : string) :
  i <= n -> take i (take n s) = take i s.
Proof.
  revert n s; induction i as [|i IH]; intros [|n] [|c t] H; simpl; try lia; auto.
  f_equal; apply IH; lia.
Qed.

Lemma drop_all (s : string) : drop (String.length s) s = EmptyString.
Proof.
  induction s; simpl; auto.
Qed.

Lemma take_drop (n : nat) (s : string) : take n s ++ drop n s = s.
Proof.
  revert s; induction n as [|n IH]; intros [|c t]; simpl; auto.
  now rewrite IH.
Qed.

Lemma append_assoc (a b c : string) : (a ++ b) ++ c = a ++ (b ++ c).
Proof.
  induction a; simpl; congruence.
Qed.

Lemma append_nil_r (a : string) : a ++ EmptyString = a.
Proof.
  induction a; simpl; congruence.
Qed.

(** ** unicode/utf8: decoding *)

Ltac break_if :=
  match goal with
  | |- context [if ?b then _ else _] => destruct b eqn:?
  end.

Ltac to_arith :=
  repeat match goal with
  | H : (_ <? _)%N = true |- _ => apply N.ltb_lt in H
  | H : (_ <? _)%N = false |- _ => apply N.ltb_ge in H
  | H : (_ =? _)%N = true |- _ => apply N.eqb_eq in H
  | H : (_ =? _)%N = false |- _ => apply N.eqb_neq in H
  | H : (_ <=? _)%N = true |- _ => apply N.leb_le in H
  | H : (_ <=? _)%N = false |- _ => apply N.leb_gt in H
  | H : (_ || _)%bool = false |- _ => apply orb_false_iff in H; destruct H
  | H : (_ || _)%bool = true |- _ => apply orb_true_iff in H; destruct H
  | H : (_ && _)%bool = true |- _ => apply andb_true_iff in H; destruct H
  | H : (_ && _)%bool = false |- _ => apply andb_false_iff in H; destruct H
  | H : negb _ = true |- _ => apply negb_true_iff in H
  | H : negb _ = false |- _ => apply negb_false_iff in H
  end.

Section UTF8Facts.

Import utf8.
Local Open Scope N_scope.

(** [DecodeRuneInString] computes the relation [decoded]. *)
Lemma decode_decoded (s : string) :
  decoded s (fst (DecodeRuneInString s)) (snd (DecodeRuneInString s)).
Proof.
  unfold DecodeRuneInString, first, locb, hicb.
  destruct s as [|c0 [|c1 [|c2 [|c3 t]]]]; cbn [String.length Nat.ltb Nat.leb];
    unfold byte_at; cbn [String.get]; cbv zeta;
    repeat (break_if; cbn [fst snd Nat.ltb Nat.leb]); to_arith;
    try discriminate;
    solve [ constructor; lia ].
Qed.

Lemma lor_shiftl_add (a b k : N) :
  b < 2 ^ k -> N.lor (N.shiftl a k) b = a * 2 ^ k + b.
Proof.
  intros H. rewrite <- N.shiftl_mul_pow2.
  assert (Z : N.land (N.shiftl a k) b = 0).
  { apply N.bits_inj. intros n. rewrite N.land_spec, N.bits_0.
    destruct (N.lt_ge_cases n k) as [L|L].
    - now rewrite N.shiftl_spec_low.
    - destruct (N.eq_0_gt_0_cases b) as [->|P].
      + now rewrite N.bits_0, Bool.andb_false_r.
      + rewrite (N.bits_above_log2 b n), Bool.andb_false_r; auto.
        apply N.log2_lt_pow2 in H; auto. lia. }
  rewrite N.add_nocarry_lxor by exact Z. symmetry. now apply N.lxor_lor.
Qed.

Lemma mod_offset (b lo m q : N) : lo = m * q -> lo <= b < lo + m -> b mod m = b - lo.
Proof.
  intros -> H. symmetry. apply N.mod_unique with (q := q); lia.
Qed.

Lemma land_maskx (b : N) : 0x80 <= b <= 0xBF -> N.land b maskx = b - 0x80.
Proof.
  intros H. change maskx with (N.ones 6). rewrite N.land_ones.
  apply (mod_offset b 0x80 (2 ^ 6) 2); [reflexivity | change (2 ^ 6) with 64; lia].
Qed.

(** The runes of two, three and four bytes in arithmetic. *)
Lemma rune2_arith (s0 s1 : N) :
  0xC0 <= s0 <= 0xDF -> 0x80 <= s1 <= 0xBF ->
  rune2 s0 s1 = (s0 - 0xC0) * 64 + (s1 - 0x80).
Proof.
  intros H0 H1. unfold rune2. rewrite land_maskx by exact H1.
  change mask2 with (N.ones 5). rewrite N.land_ones.
  rewrite (mod_offset s0 0xC0 (2 ^ 5) 6) by (try reflexivity; change (2 ^ 5) with 32; lia).
  rewrite lor_shiftl_add by (change (2 ^ 6) with 64; lia). reflexivity.
Qed.

Lemma rune3_arith (s0 s1 s2 : N) :
  0xE0 <= s0 <= 0xEF -> 0x80 <= s1 <= 0xBF -> 0x80 <= s2 <= 0xBF ->
  rune3 s0 s1 s2 = (s0 - 0xE0) * 4096 + ((s1 - 0x80) * 64 + (s2 - 0x80)).
Proof.
  intros H0 H1 H2. unfold rune3. rewrite !land_maskx by assumption.
  change mask3 with (N.ones 4). rewrite N.land_ones.
  rewrite (mod_offset s0 0xE0 (2 ^ 4) 14) by (try reflexivity; change (2 ^ 4) with 16; lia).
  rewrite (lor_shiftl_add (s1 - 0x80) _ 6) by (change (2 ^ 6) with 64; lia).
  rewrite lor_shiftl_add by (change (2 ^ 6) with 64; change (2 ^ 12) with 4096; lia).
  reflexivity.
Qed.

Lemma rune4_arith (s0 s1 s2 s3 : N) :
  0xF0 <= s0 <= 0xF7 -> 0x80 <= s1 <= 0xBF -> 0x80 <= s2 <= 0xBF -> 0x80 <= s3 <= 0xBF ->
  rune4 s0 s1 s2 s3 =
  (s0 - 0xF0) * 262144 + ((s1 - 0x80) * 4096 + ((s2 - 0x80) * 64 + (s3 - 0x80))).
Proof.
  intros H0 H1 H2 H3. unfold rune4. rewrite !land_maskx by assumption.
  change mask4 with (N.ones 3). rewrite N.land_ones.
  rewrite (mod_offset s0 0xF0 (2 ^ 3) 30) by (try reflexivity; change (2 ^ 3) with 8; lia).
  rewrite (lor_shiftl_add (s2 - 0x80) _ 6) by (change (2 ^ 6) with 64; lia).
  rewrite (lor_shiftl_add (s1 - 0x80) _ 12)
    by (change (2 ^ 6) with 64; change (2 ^ 12) with 4096; lia).
  rewrite lor_shiftl_add
    by (change (2 ^ 6) with 64; change (2 ^ 12) with 4096; change (2 ^ 18) with 262144; lia).
  reflexivity.
Qed.

Lemma ascii_of_byte (c : ascii) (n : N) : N_of_ascii c = n -> c = chr n.
Proof.
  intros <-. unfold chr. now rewrite ascii_N_embedding.
Qed.

(** The line and paragraph separators have one encoding each. *)
Lemma decoded_separator (s : string) (r : N) (k : nat) :
  decoded s r k -> r = 0x2028 \/ r = 0x2029 ->
  k = 3%nat /\ take 3 s = EncodeRune r.
Proof.
  intros D E. inversion D; subst.
  - destruct E; discriminate.
  - lia.
  - destruct E; discriminate.
  - rewrite rune2_arith in E by lia. lia.
  - split; [reflexivity|].
    assert (E' := E). rewrite rune3_arith in E' by lia.
    assert (B0 : N_of_ascii c0 = 0xE2) by lia.
    assert (B1 : N_of_ascii c1 = 0x80) by lia.
    assert (B2 : N_of_ascii c2 = 0xA8 \/ N_of_ascii c2 = 0xA9) by lia.
    apply ascii_of_byte in B0, B1. subst c0 c1.
    destruct B2 as [B2|B2]; apply ascii_of_byte in B2; subst c2; reflexivity.
  - rewrite rune4_arith in E by lia. lia.
Qed.

(** A rune of more than one byte is made of bytes above the ASCII
    range. *)
Lemma decoded_high (s : string) (r : N) (k : nat) :
  decoded s r k -> (1 < k)%nat ->
  all_bytes (fun b => 0x80 <=? b) (take k s) = true /\ (k <= String.length s)%nat.
Proof.
  intros D K. inversion D; subst; try lia; cbn [take all_bytes String.length];
    rewrite ?(proj2 (N.leb_le _ _)) by lia; split; try reflexivity; lia.
Qed.

Lemma decoded_width (s : string) (r : N) (k : nat) :
  decoded s r k -> s <> EmptyString -> (1 <= k)%nat.
Proof.
  intros D N. inversion D; subst; try lia. congruence.
Qed.

End UTF8Facts.

(** ** encoding/json: strings written and read back *)

Section JSONFacts.

Import utf8 json.
Local Open Scope N_scope.

Lemma cons_str_nil (r : option (string * string)) : cons_str EmptyString r = r.
Proof.
  destruct r as [[v rest]|]; reflexivity.
Qed.

Lemma cons_str_app (p q : string) (r : option (string * string)) :
  cons_str p (cons_str q r) = cons_str (p ++ q) r.
Proof.
  destruct r as [[v rest]|]; simpl; [now rewrite append_assoc | reflexivity].
Qed.

Lemma all_bytes_app (p : N -> bool) (a b : string) :
  all_bytes p (a ++ b) = all_bytes p a && all_bytes p b.
Proof.
  induction a; simpl; [reflexivity | now rewrite IHa, andb_assoc].
Qed.

Lemma all_bytes_impl (p q : N -> bool) (s : string) :
  (forall b, p b = true -> q b = true) -> all_bytes p s = true -> all_bytes q s = true.
Proof.
  intros I. induction s; simpl; [reflexivity|].
  intros H. apply andb_true_iff in H as [H1 H2]. now rewrite I, IHs.
Qed.

Lemma parse_chars_plain_byte (c : ascii) (X : string) :
  plain (N_of_ascii c) = true ->
  parse_chars (String c X) = cons_str (String c EmptyString) (parse_chars X).
Proof.
  unfold plain. intros H.
  apply andb_true_iff in H as [H H2]. apply andb_true_iff in H as [H0 H1].
  apply negb_true_iff in H1, H2. apply N.leb_le in H0.
  cbn [parse_chars]. cbv zeta.
  now rewrite H1, H2, (proj2 (N.ltb_ge _ _)) by exact H0.
Qed.

(** Plain bytes are read as they stand. *)
Lemma parse_chars_plain (p X : string) :
  all_bytes plain p = true ->
  parse_chars (p ++ X) = cons_str p (parse_chars X).
Proof.
  induction p as [|c p IH]; cbn [append all_bytes]; intros H.
  - now rewrite cons_str_nil.
  - apply andb_true_iff in H as [H1 H2].
    rewrite parse_chars_plain_byte, IH, cons_str_app by assumption. reflexivity.
Qed.

Lemma high_plain (b : N) : (0x80 <=? b) = true -> plain b = true.
Proof.
  unfold plain. intros H. to_arith.
  rewrite (proj2 (N.leb_le _ _)), (proj2 (N.eqb_neq _ _)), (proj2 (N.eqb_neq _ _)) by lia.
  reflexivity.
Qed.

(** What [appendString] writes for an ASCII byte, safe or not, is read
    back as that byte. *)
Lemma parse_chars_ascii (c : ascii) (X : string) :
  N_of_ascii c < 0x80 ->
  parse_chars
    ((if htmlSafeSet (N_of_ascii c) then String c EmptyString
      else escapeByte (N_of_ascii c)) ++ X) =
  cons_str (String c EmptyString) (parse_chars X).
Proof.
  destruct c as [[] [] [] [] [] [] [] []]; intros H;
    solve [ reflexivity | vm_compute in H; discriminate H ].
Qed.

Lemma parse_chars_fffd (X : string) :
  parse_chars (String backslash "ufffd" ++ X) =
  cons_str (EncodeRune RuneError) (parse_chars X).
Proof.
  reflexivity.
Qed.

Lemma parse_chars_separator (r : N) (X : string) :
  r = 0x2028 \/ r = 0x2029 ->
  parse_chars (String backslash ("u202" ++ String (hex (N.land r 0xF)) EmptyString) ++ X) =
  cons_str (EncodeRune r) (parse_chars X).
Proof.
  intros [-> | ->]; reflexivity.
Qed.

Lemma decode_ascii (c : ascii) (t : string) :
  N_of_ascii c < 0x80 -> DecodeRuneInString (String c t) = (N_of_ascii c, 1%nat).
Proof.
  intros H. unfold DecodeRuneInString, first, byte_at.
  cbn [String.length Nat.ltb Nat.leb String.get]. cbv zeta.
  now rewrite (proj2 (N.ltb_lt _ _)) by exact H.
Qed.

(** What [appendString] writes between the quotes is read back, up to
    the closing quote, as the string with its invalid bytes replaced. *)
Lemma parse_appendBody (fuel : nat) (s X : string) :
  (String.length s <= fuel)%nat ->
  parse_chars (appendBody fuel s ++ String dquote X) = Some (coerce fuel s, X).
Proof.
  revert s; induction fuel as [|f IH]; intros s L.
  - destruct s; [reflexivity | simpl in L; lia].
  - destruct s as [|c rest]; [reflexivity|].
    cbn [String.length] in L.
    cbn [appendBody coerce]. cbv zeta. unfold invalid_at.
    destruct (N_of_ascii c <? RuneSelf) eqn:A.
    + apply N.ltb_lt in A. unfold RuneSelf in A.
      rewrite (decode_ascii c rest A). cbn [snd take drop].
      replace (N_of_ascii c =? RuneError) with false
        by (symmetry; apply N.eqb_neq; unfold RuneError; lia).
      cbn [andb].
      assert (E : (if htmlSafeSet (N_of_ascii c) then String c (appendBody f rest)
                   else escapeByte (N_of_ascii c) ++ appendBody f rest) ++ String dquote X =
                  (if htmlSafeSet (N_of_ascii c) then String c EmptyString
                   else escapeByte (N_of_ascii c)) ++ (appendBody f rest ++ String dquote X)).
      { destruct (htmlSafeSet (N_of_ascii c)); [reflexivity | now rewrite append_assoc]. }
      rewrite E, parse_chars_ascii, IH by (exact A || lia). reflexivity.
    + apply N.ltb_ge in A. unfold RuneSelf in A.
      pose proof (decode_decoded (String c rest)) as D.
      destruct (DecodeRuneInString (String c rest)) as [r k]. cbn [fst snd] in D |- *.
      assert (K : (1 <= k)%nat) by (apply (decoded_width _ _ _ D); discriminate).
      assert (R : (String.length (drop k (String c rest)) <= f)%nat).
      { rewrite length_drop. cbn [String.length]. lia. }
      destruct ((r =? RuneError) && (k =? 1)%nat)%bool eqn:I.
      * rewrite append_assoc, parse_chars_fffd.
        apply andb_true_iff in I as [_ I]. apply Nat.eqb_eq in I. subst k.
        rewrite IH by exact R. reflexivity.
      * assert (K1 : (1 < k)%nat).
        { inversion D; subst; try lia.
          rewrite N.eqb_refl in I. discriminate. }
        destruct ((r =? 0x2028) || (r =? 0x2029))%bool eqn:T.
        -- assert (T' : r = 0x2028 \/ r = 0x2029).
           { apply orb_true_iff in T as [T|T]; apply N.eqb_eq in T; auto. }
           destruct (decoded_separator _ _ _ D T') as [-> E].
           rewrite append_assoc, parse_chars_separator, IH by assumption.
           rewrite E. reflexivity.
        -- rewrite append_assoc, parse_chars_plain, IH; [reflexivity | exact R |].
           apply (all_bytes_impl (fun b => 0x80 <=? b)); [exact high_plain|].
           apply (decoded_high _ _ _ D K1).
Qed.

(** A string of valid encodings is left as it is. *)
Lemma coerce_valid (fuel : nat) (s : string) :
  valid_from fuel s = true -> (String.length s <= fuel)%nat -> coerce fuel s = s.
Proof.
  revert s; induction fuel as [|f IH]; intros s V L.
  - destruct s; [reflexivity | simpl in L; lia].
  - destruct s as [|c rest]; [reflexivity|].
    cbn [valid_from coerce] in *.
    destruct (invalid_at (String c rest)); [discriminate|].
    pose proof (decode_decoded (String c rest)) as D.
    assert (K : (1 <= snd (DecodeRuneInString (String c rest)))%nat)
      by (apply (decoded_width _ _ _ D); discriminate).
    rewrite IH; [apply take_drop | exact V |].
    rewrite length_drop. cbn [String.length] in *. lia.
Qed.

Lemma toValidUTF8_valid (s : string) : ValidString s = true -> toValidUTF8 s = s.
Proof.
  intros V. apply coerce_valid; [exact V | lia].
Qed.

(** A quoted string written by [appendString] is read back whole. *)
Lemma parse_appendString (s X : string) :
  parse_chars (appendBody (String.length s) s ++ String dquote X) = Some (toValidUTF8 s, X).
Proof.
  apply parse_appendBody. lia.
Qed.

(** The fuel [appendString] and [toValidUTF8] start with is enough:
    more of it changes nothing. *)
Lemma appendBody_fuel (f1 f2 : nat) (s : string) :
  (String.length s <= f1)%nat -> (String.length s <= f2)%nat ->
  appendBody f1 s = appendBody f2 s.
Proof.
  revert f2 s; induction f1 as [|f1 IH]; intros f2 s L1 L2.
  - destruct s; [destruct f2; reflexivity | simpl in L1; lia].
  - destruct s as [|c rest]; [destruct f2; reflexivity|].
    destruct f2 as [|f2]; [simpl in L2; lia|].
    cbn [String.length] in L1, L2. cbn [appendBody]. cbv zeta.
    pose proof (decode_decoded (String c rest)) as D.
    destruct (DecodeRuneInString (String c rest)) as [r k]. cbn [fst snd] in D.
    assert (K : (1 <= k)%nat) by (apply (decoded_width _ _ _ D); discriminate).
    assert (R : (String.length (drop k (String c rest)) <= Nat.min f1 f2)%nat).
    { rewrite length_drop. cbn [String.length]. lia. }
    rewrite (IH f2 rest), (IH f2 (drop k (String c rest))) by lia.
    reflexivity.
Qed.

Lemma coerce_fuel (f1 f2 : nat) (s : string) :
  (String.length s <= f1)%nat -> (String.length s <= f2)%nat ->
  coerce f1 s = coerce f2 s.
Proof.
  revert f2 s; induction f1 as [|f1 IH]; intros f2 s L1 L2.
  - destruct s; [destruct f2; reflexivity | simpl in L1; lia].
  - destruct s as [|c rest]; [destruct f2; reflexivity|].
    destruct f2 as [|f2]; [simpl in L2; lia|].
    cbn [String.length] in L1, L2. cbn [coerce].
    pose proof (decode_decoded (String c rest)) as D.
    assert (K : (1 <= snd (DecodeRuneInString (String c rest)))%nat)
      by (apply (decoded_width _ _ _ D); discriminate).
    rewrite (IH f2 (drop 1 (String c rest))),
            (IH f2 (drop (snd (DecodeRuneInString (String c rest))) (String c rest)));
      try reflexivity; rewrite length_drop; cbn [String.length]; lia.
Qed.

(** *** The object [json.Marshal] writes for a [jsonLog] *)

Lemma parse_value_object (f : nat) (t : string) :
  parse_value (S f) (String "{" (String dquote t)) =
  match parse_members f (String dquote t) with
  | Some (ms, r) => Some (Object ms, r)
  | None => None
  end.
Proof.
  reflexivity.
Qed.

Lemma parse_value_quoted (f : nat) (t : string) :
  parse_value (S f) (String dquote t) =
  match parse_chars t with
  | Some (v, r) => Some (Str v, r)
  | None => None
  end.
Proof.
  reflexivity.
Qed.

Lemma parse_members_comma (f : nat) (t k r1 r3 : string) (v : value) :
  parse_chars t = Some (k, String ":" r1) ->
  parse_value f r1 = Some (v, String "," r3) ->
  parse_members (S f) (String dquote t) =
  match parse_members f r3 with
  | Some (ms, r4) => Some ((k, v) :: ms, r4)
  | None => None
  end.
Proof.
  intros H1 H2. cbn [parse_members].
  change (skip_ws (String dquote t)) with (String dquote t).
  change (is_char dquote 34) with true. cbv iota. rewrite H1.
  change (skip_ws (String ":" r1)) with (String ":" r1).
  change (is_char ":" 58) with true. cbv iota. rewrite H2.
  reflexivity.
Qed.

Lemma parse_members_close (f : nat) (t k r1 r3 : string) (v : value) :
  parse_chars t = Some (k, String ":" r1) ->
  parse_value f r1 = Some (v, String "}" r3) ->
  parse_members (S f) (String dquote t) = Some ([(k, v)], r3).
Proof.
  intros H1 H2. cbn [parse_members].
  change (skip_ws (String dquote t)) with (String dquote t).
  change (is_char dquote 34) with true. cbv iota. rewrite H1.
  change (skip_ws (String ":" r1)) with (String ":" r1).
  change (is_char ":" 58) with true. cbv iota. rewrite H2.
  reflexivity.
Qed.

Lemma parse_log_text (ts status msg W : string) (f : nat) :
  all_bytes plain ts = true ->
  parse_value (S (S (S (S (S f))))) (log_text ts status msg W) =
  Some (Object [("time", Str ts);
                ("status", Str (toValidUTF8 status));
                ("msg", Str (toValidUTF8 msg))], W).
Proof.
  intros P. unfold log_text.
  rewrite parse_value_object.
  erewrite parse_members_comma; [| reflexivity |].
  2: { rewrite parse_value_quoted, parse_chars_plain by exact P.
       change (parse_chars (String dquote ?x)) with (Some (EmptyString, x)).
       cbn [cons_str]. rewrite append_nil_r. reflexivity. }
  erewrite parse_members_comma; [| reflexivity |].
  2: { rewrite parse_value_quoted, parse_appendString. reflexivity. }
  erewrite parse_members_close; [reflexivity | reflexivity |].
  rewrite parse_value_quoted, parse_appendString. reflexivity.
Qed.

Lemma Unmarshal_log_text (ts status msg W : string) :
  all_bytes plain ts = true ->
  skip_ws W = EmptyString ->
  Unmarshal (log_text ts status msg W) =
  Some (Object [("time", Str ts);
                ("status", Str (toValidUTF8 status));
                ("msg", Str (toValidUTF8 msg))]).
Proof.
  intros P E. unfold Unmarshal.
  assert (F : exists f, String.length (log_text ts status msg W) = (4 + f)%nat).
  { unfold log_text. cbn [String.length append]. eexists. reflexivity. }
  destruct F as [f ->]. cbn [Nat.add].
  rewrite parse_log_text by exact P. now rewrite E.
Qed.

(** *** No control character is written *)

Lemma escapeByte_printable (c : ascii) :
  all_bytes printable (escapeByte (N_of_ascii c)) = true.
Proof.
  destruct c as [[] [] [] [] [] [] [] []]; reflexivity.
Qed.

Lemma plain_printable (b : N) : plain b = true -> printable b = true.
Proof.
  unfold plain, printable. intros H.
  apply andb_true_iff in H as [H _]. now apply andb_true_iff in H as [H _].
Qed.

Lemma appendBody_printable (fuel : nat) (s : string) :
  (String.length s <= fuel)%nat -> all_bytes printable (appendBody fuel s) = true.
Proof.
  revert s; induction fuel as [|f IH]; intros s L; [reflexivity|].
  destruct s as [|c rest]; [reflexivity|].
  cbn [String.length] in L. cbn [appendBody]. cbv zeta.
  destruct (N_of_ascii c <? RuneSelf) eqn:A.
  - destruct (htmlSafeSet (N_of_ascii c)) eqn:Hs.
    + cbn [all_bytes]. rewrite IH by lia.
      unfold htmlSafeSet in Hs. unfold printable.
      repeat (apply andb_true_iff in Hs as [Hs _]). now rewrite Hs.
    + rewrite all_bytes_app, escapeByte_printable, IH by lia. reflexivity.
  - apply N.ltb_ge in A. unfold RuneSelf in A.
    pose proof (decode_decoded (String c rest)) as D.
    destruct (DecodeRuneInString (String c rest)) as [r k]. cbn [fst snd] in D |- *.
    assert (K : (1 <= k)%nat) by (apply (decoded_width _ _ _ D); discriminate).
    assert (R : (String.length (drop k (String c rest)) <= f)%nat).
    { rewrite length_drop. cbn [String.length]. lia. }
    destruct ((r =? RuneError) && (k =? 1)%nat)%bool eqn:I.
    + rewrite all_bytes_app, IH by exact R. reflexivity.
    + assert (K1 : (1 < k)%nat).
      { inversion D; subst; try lia.
        rewrite N.eqb_refl in I. discriminate. }
      destruct ((r =? 0x2028) || (r =? 0x2029))%bool eqn:T.
      * rewrite all_bytes_app, IH by exact R.
        apply orb_true_iff in T as [T|T]; apply N.eqb_eq in T; subst r; reflexivity.
      * rewrite all_bytes_app, IH by exact R.
        rewrite (all_bytes_impl (fun b => 0x80 <=? b) printable); [reflexivity | |].
        -- intros b Hb. now apply plain_printable, high_plain.
        -- apply (decoded_high _ _ _ D K1).
Qed.

Lemma printable_no_newline (s : string) :
  all_bytes printable s = true -> bufio.IndexByte s LF = None.
Proof.
  induction s as [|c t IH]; cbn [all_bytes bufio.IndexByte]; intros H; [reflexivity|].
  apply andb_true_iff in H as [H1 H2]. rewrite IH by exact H2.
  destruct (Ascii.eqb c LF) eqn:E; [|reflexivity].
  apply Ascii.eqb_eq in E. subst c. discriminate.
Qed.

Lemma log_text_printable (ts status msg : string) :
  all_bytes plain ts = true ->
  all_bytes printable (log_text ts status msg EmptyString) = true.
Proof.
  intros P. unfold log_text.
  repeat (cbn [all_bytes append]; rewrite ?all_bytes_app, ?appendBody_printable by lia).
  rewrite (all_bytes_impl plain printable ts plain_printable P).
  reflexivity.
Qed.

(** *** The time written *)

Lemma digit_plain (n : N) : plain (N_of_ascii (time.digit n)) = true.
Proof.
  unfold time.digit, chr.
  assert (H : n mod 10 < 10) by (apply N.mod_lt; discriminate).
  generalize dependent (n mod 10). intros m H.
  rewrite N_ascii_embedding by lia.
  unfold plain.
  rewrite (proj2 (N.leb_le _ _)), (proj2 (N.eqb_neq _ _)), (proj2 (N.eqb_neq _ _)) by lia.
  reflexivity.
Qed.

Lemma appendInt_plain (w : nat) (x : N) : all_bytes plain (time.appendInt w x) = true.
Proof.
  revert x; induction w as [|w IH]; intros x; cbn [time.appendInt]; [reflexivity|].
  rewrite all_bytes_app, IH. cbn [all_bytes]. now rewrite digit_plain.
Qed.

Lemma trimZeros_plain (s : string) :
  all_bytes plain s = true -> all_bytes plain (time.trimZeros s) = true.
Proof.
  induction s as [|c t IH]; cbn [all_bytes time.trimZeros]; intros H; [reflexivity|].
  apply andb_true_iff in H as [H1 H2]. specialize (IH H2).
  destruct (time.trimZeros t).
  - destruct (N_of_ascii c =? 48); [reflexivity|]. cbn [all_bytes]. now rewrite H1.
  - cbn [all_bytes] in *. now rewrite H1, IH.
Qed.

Lemma formatRFC3339Nano_plain (t : time.Time) :
  all_bytes plain (time.formatRFC3339Nano t) = true.
Proof.
  unfold time.formatRFC3339Nano, time.appendNano.
  destruct (time.Nanosecond t =? 0);
    repeat (rewrite all_bytes_app || rewrite appendInt_plain || rewrite trimZeros_plain);
    reflexivity.
Qed.

(** *** [Marshal] of a [jsonLog] *)

Lemma log_text_app (ts status msg W : string) :
  log_text ts status msg EmptyString ++ W = log_text ts status msg W.
Proof.
  unfold log_text. repeat (rewrite append_assoc || cbn [append]). reflexivity.
Qed.

Lemma Marshal_in_range (now : time.Time) (status msg : string) :
  (0 <= time.Year now <= 9999)%Z ->
  print.Marshal (print.mkJsonLog now status msg) =
  Some (log_text (time.formatRFC3339Nano now) status msg EmptyString).
Proof.
  intros Y. unfold print.Marshal, time.MarshalJSON. cbn [print.Time print.Status print.Message].
  replace ((time.Year now <? 0)%Z || (9999 <? time.Year now)%Z)%bool with false
    by (symmetry; apply orb_false_iff; split; apply Z.ltb_ge; lia).
  f_equal. unfold log_text, appendString.
  change (appendBody (String.length "time") "time") with "time".
  change (appendBody (String.length "status") "status") with "status".
  change (appendBody (String.length "msg") "msg") with "msg".
  repeat (rewrite append_assoc || cbn [append]). reflexivity.
Qed.

Lemma Marshal_out_of_range (now : time.Time) (status msg : string) :
  (time.Year now < 0 \/ 9999 < time.Year now)%Z ->
  print.Marshal (print.mkJsonLog now status msg) = None.
Proof.
  intros Y. unfold print.Marshal, time.MarshalJSON. cbn [print.Time].
  replace ((time.Year now <? 0)%Z || (9999 <? time.Year now)%Z)%bool with true;
    [reflexivity|].
  symmetry. apply orb_true_iff. destruct Y; [left | right]; apply Z.ltb_lt; lia.
Qed.

End JSONFacts.

(** ** sync: a [Once] under any schedule *)

Section OnceFacts.

Import sync.

Variable W : Type.
Variable f : nat -> W -> W.
Variable w0 : W.

Ltac moved :=
  unfold move in *;
  repeat match goal with
  | |- context [Nat.eqb ?a ?b] => destruct (Nat.eqb_spec a b); subst
  | H : context [Nat.eqb ?a ?b] |- _ => destruct (Nat.eqb_spec a b); subst
  end.

Lemma inv_start : inv W f w0 (start W w0).
Proof.
  apply inv_fresh; try reflexivity. intros i. now left.
Qed.

Lemma inv_step (i : nat) (st st' : State W) :
  inv W f w0 st -> step W f i st = Some st' -> inv W f w0 st'.
Proof.
  intros I E. unfold step in E.
  destruct I as [A Wd D M P | j A Wd D M L P | j A Wd D M L P | j rest A Wd D P].
  - (* nobody has the lock *)
    destruct (P i) as [C|C]; rewrite C in E.
    + rewrite D in E. injection E as <-.
      apply inv_fresh; cbn; auto. intros k. moved; [now right | apply P].
    + rewrite M in E. injection E as <-.
      apply (inv_locked _ _ _ _ i); cbn; auto.
      * now rewrite A.
      * moved; congruence.
      * intros k N. moved; [congruence | apply P].
  - (* the first goroutine holds the lock, its function not yet run *)
    destruct (Nat.eq_dec i j) as [->|N].
    + rewrite L, D in E. injection E as <-.
      apply (inv_ran _ _ _ _ j); cbn; auto.
      * now rewrite Wd.
      * moved; congruence.
      * intros k N. moved; [congruence | now apply P].
    + destruct (P i N) as [C|C]; rewrite C in E.
      * rewrite D in E. injection E as <-.
        apply (inv_locked _ _ _ _ j); cbn; auto.
        -- moved; congruence.
        -- intros k N'. moved; [now right | now apply P].
      * rewrite M in E. discriminate.
  - (* its function has run, [done] is not yet stored *)
    destruct (Nat.eq_dec i j) as [->|N].
    + rewrite L in E. injection E as <-.
      apply (inv_done _ _ _ _ j []); cbn; auto.
      intros k. moved; [discriminate|].
      destruct (P k) as [C|C]; [assumption | rewrite C; discriminate ..].
    + destruct (P i N) as [C|C]; rewrite C in E.
      * rewrite D in E. injection E as <-.
        apply (inv_ran _ _ _ _ j); cbn; auto.
        -- moved; congruence.
        -- intros k N'. moved; [now right | now apply P].
      * rewrite M in E. discriminate.
  - (* [done] is stored *)
    assert (Q : forall c, c <> Ran -> forall k, move (at_ W st) i c k <> Ran).
    { intros c C k. moved; [assumption | apply P]. }
    destruct (at_ W st i) eqn:C.
    + rewrite D in E. injection E as <-.
      apply (inv_done _ _ _ _ j rest); cbn; auto. apply Q. discriminate.
    + destruct (m W st); [discriminate|]. injection E as <-.
      apply (inv_done _ _ _ _ j (rest ++ [i])); cbn; auto.
      * now rewrite A.
      * apply Q. discriminate.
    + rewrite D in E. injection E as <-.
      apply (inv_done _ _ _ _ j rest); cbn; auto. apply Q. discriminate.
    + now elim (P i).
    + injection E as <-.
      apply (inv_done _ _ _ _ j rest); cbn; auto. apply Q. discriminate.
    + discriminate.
Qed.

Lemma inv_run (schedule : list nat) (st : State W) :
  inv W f w0 st -> inv W f w0 (run W f schedule st).
Proof.
  revert st; induction schedule as [|i rest IH]; intros st I; [exact I|].
  cbn [run]. apply IH.
  destruct (step W f i st) as [st'|] eqn:S; [exact (inv_step i st st' I S) | exact I].
Qed.

(** Under every schedule the world is the one the [Once] started on,
    or what the function of the first goroutine to lock [m] made of it:
    no second function runs, and none runs twice. *)
Lemma Once_at_most_once (schedule : list nat) :
  let st := run W f schedule (start W w0) in
  world W st = w0 \/
  exists j rest, acquired W st = j :: rest /\ world W st = f j w0.
Proof.
  cbv zeta.
  destruct (inv_run schedule _ inv_start)
    as [A Wd D M P | j A Wd D M L P | j A Wd D M L P | j rest A Wd D P]; eauto.
Qed.

(** When a goroutine has returned from [Do], the function of the first
    goroutine to lock [m] has run, and it alone. *)
Lemma Once_exactly_once (schedule : list nat) (n : nat) :
  let st := run W f schedule (start W w0) in
  0 < n -> returned W n st ->
  exists j rest, acquired W st = j :: rest /\ world W st = f j w0 /\ done W st = true.
Proof.
  cbv zeta. intros N R. specialize (R 0 N).
  destruct (inv_run schedule _ inv_start)
    as [A Wd D M P | j A Wd D M L P | j A Wd D M L P | j rest A Wd D P].
  - destruct (P 0) as [C|C]; congruence.
  - destruct (Nat.eq_dec 0 j) as [<-|E]; [congruence|].
    destruct (P 0 E) as [C|C]; congruence.
  - destruct (Nat.eq_dec 0 j) as [<-|E]; [congruence|].
    destruct (P 0 E) as [C|C]; congruence.
  - eauto.
Qed.

(** When any goroutine has returned from [Do], whichever it is, the
    function of the first goroutine to lock [m] has run, and it alone. *)
Lemma Once_any_returned (schedule : list nat) (i : nat) :
  let st := run W f schedule (start W w0) in
  at_ W st i = Returned ->
  exists j rest, acquired W st = j :: rest /\ world W st = f j w0 /\ done W st = true.
Proof.
  cbv zeta. intros R.
  destruct (inv_run schedule _ inv_start)
    as [A Wd D M P | j A Wd D M L P | j A Wd D M L P | j rest A Wd D P].
  - destruct (P i) as [C|C]; congruence.
  - destruct (Nat.eq_dec i j) as [->|E]; [congruence|].
    destruct (P i E) as [C|C]; congruence.
  - destruct (Nat.eq_dec i j) as [->|E]; [congruence|].
    destruct (P i E) as [C|C]; congruence.
  - eauto.
Qed.

Lemma run_app (a b : list nat) (st : State W) :
  run W f (a ++ b) st = run W f b (run W f a st).
Proof.
  revert st; induction a as [|i a IH]; intros st; [reflexivity|].
  cbn [app run]. apply IH.
Qed.

Lemma run_cons (i : nat) (rest : list nat) (st : State W) :
  run W f (i :: rest) st =
  run W f rest (match step W f i st with
                | Some st' => st'
                | None => st
                end).
Proof.
  reflexivity.
Qed.

Lemma move_same (p : nat -> pc) (i : nat) (c : pc) : move p i c i = c.
Proof.
  unfold move. now rewrite Nat.eqb_refl.
Qed.

Ltac one_step :=
  rewrite run_cons; unfold step; cbn [at_ world done m acquired];
  rewrite ?move_same; cbv iota.

(** One goroutine calling [Do] with nobody holding [m]: five steps, the
    last four of which do nothing when [done] is set. *)
Lemma run_turn (k : nat) (st : State W) :
  at_ W st k = Called -> m W st = false ->
  let st' := run W f [k; k; k; k; k] st in
  (forall j, at_ W st' j = if Nat.eqb j k then Returned else at_ W st j) /\
  m W st' = false /\ done W st' = true /\
  world W st' = (if done W st then world W st else f k (world W st)) /\
  acquired W st' = (if done W st then acquired W st else (acquired W st ++ [k])%list).
Proof.
  intros C M. cbv zeta.
  rewrite run_cons. unfold step. rewrite C.
  destruct (done W st) eqn:D.
  - do 4 one_step. cbn [run at_ world done m acquired].
    repeat split; auto.
  - one_step. rewrite M. do 3 one_step. rewrite ?D. cbv iota.
    cbn [run at_ world done m acquired].
    repeat split; auto.
    intros j. unfold move. destruct (Nat.eqb j k); reflexivity.
Qed.

(** The schedule that lets the goroutines call [Do] one after the other
    brings them all back, and the function of the first has run. *)
Lemma run_in_turn (n k : nat) (st : State W) :
  (forall j, k <= j -> at_ W st j = Called) -> m W st = false ->
  let st' := run W f (in_turn k n) st in
  (forall j, k <= j < k + n -> at_ W st' j = Returned) /\
  (forall j, j < k -> at_ W st' j = at_ W st j) /\
  (forall j, k + n <= j -> at_ W st' j = Called) /\
  m W st' = false /\
  world W st' = (if done W st then world W st
                 else match n with
                      | O => world W st
                      | S _ => f k (world W st)
                      end).
Proof.
  revert k st; induction n as [|n IH]; intros k st C M; cbv zeta.
  - cbn [in_turn run]. repeat split; auto; try (intros; lia).
    + intros j L. apply C. lia.
    + destruct (done W st); reflexivity.
  - change (in_turn k (S n)) with ([k; k; k; k; k] ++ in_turn (S k) n)%list.
    rewrite run_app.
    destruct (run_turn k st (C k (le_n k)) M) as (A1 & M1 & D1 & W1 & _).
    destruct (IH (S k) (run W f [k; k; k; k; k] st)) as (R2 & F2 & C2 & M2 & W2).
    { intros j L. rewrite A1. replace (Nat.eqb j k) with false
        by (symmetry; apply Nat.eqb_neq; lia). apply C. lia. }
    { exact M1. }
    rewrite D1 in W2. repeat split.
    + intros j L. destruct (Nat.eq_dec j k) as [->|N].
      * rewrite F2, A1, Nat.eqb_refl by lia. reflexivity.
      * apply R2. lia.
    + intros j L. rewrite F2, A1 by lia.
      replace (Nat.eqb j k) with false by (symmetry; apply Nat.eqb_neq; lia).
      reflexivity.
    + intros j L. apply C2. lia.
    + exact M2.
    + rewrite W2, W1. reflexivity.
Qed.

(** Calls one after the other are one of the schedules: they all
    return, and the world is what the function of the first made of it. *)
Lemma Once_in_turn (n : nat) :
  let st := run W f (in_turn 0 (S n)) (start W w0) in
  returned W (S n) st /\ world W st = f 0 w0.
Proof.
  cbv zeta.
  destruct (run_in_turn (S n) 0 (start W w0)) as (R & _ & _ & _ & Wd);
    [reflexivity | reflexivity |].
  split; [|exact Wd].
  intros i L. apply R. lia.
Qed.

End OnceFacts.

(** ** bufio: scanning lines *)

Section Scanning.

Import bufio standalone.

Lemma IndexByte_take (n : nat) (s : string) (c : ascii) :
  IndexByte (take n s) c =
  match IndexByte s c with
  | Some i => if (i <? n)%nat then Some i else None
  | None => None
  end.
Proof.
  revert n; induction s as [|x t IH]; intros [|n]; simpl; auto.
  - destruct (Ascii.eqb x c); auto. destruct (IndexByte t c); auto.
  - destruct (Ascii.eqb x c); auto.
    rewrite IH. destruct (IndexByte t c) as [i|]; auto.
    change (S i <? S n)%nat with (i <? n)%nat.
    destruct (i <? n)%nat; auto.
Qed.

Lemma IndexByte_lines (s : string) (i : nat) :
  IndexByte s LF = Some i ->
  lines s = take i s :: lines (drop (S i) s) /\ i < String.length s.
Proof.
  revert i; induction s as [|c t IH]; simpl; intros i H; [discriminate|].
  destruct (Ascii.eqb c LF).
  - inversion H; subst i. simpl. split; [reflexivity | lia].
  - destruct (IndexByte t LF) as [j|]; [|discriminate].
    inversion H; subst i.
    destruct (IH j eq_refl) as [E L].
    rewrite E. simpl. split; [reflexivity | lia].
Qed.

Lemma IndexByte_none_lines (s : string) :
  IndexByte s LF = None -> s <> EmptyString -> lines s = [s].
Proof.
  induction s as [|c t IH]; simpl; intros H N; [congruence|].
  destruct (Ascii.eqb c LF); [discriminate|].
  destruct (IndexByte t LF); [discriminate|].
  destruct t as [|c' t'].
  - reflexivity.
  - rewrite IH; [reflexivity | reflexivity | discriminate].
Qed.

(** A scan of an input whose first line fits the buffer returns that
    line, without its carriage return, and leaves the other lines. *)
Lemma Scan_first_line (max : nat) (s l : string) (ls : list string) :
  lines s = l :: ls ->
  String.length l < max ->
  exists rest,
    Scan max s = Some (dropCR l, rest) /\ lines rest = ls /\
    String.length rest < String.length s.
Proof.
  intros E L. unfold Scan, ScanLines.
  assert (N : s <> EmptyString) by (intros ->; discriminate).
  assert (P : 0 < String.length s) by (destruct s; simpl; [congruence | lia]).
  rewrite IndexByte_take, length_take.
  replace (Nat.min max (String.length s) =? 0)%nat with false
    by (symmetry; apply Nat.eqb_neq; lia).
  rewrite andb_false_r.
  destruct (IndexByte s LF) as [i|] eqn:I.
  - destruct (IndexByte_lines s i I) as [E' B].
    rewrite E in E'. inversion E'; subst l ls.
    rewrite length_take in L.
    replace (i <? max)%nat with true by (symmetry; apply Nat.ltb_lt; lia).
    exists (drop (i + 1) s).
    rewrite take_take by lia.
    replace (i + 1) with (S i) by lia.
    split; [reflexivity|]. split; [reflexivity|].
    rewrite length_drop. lia.
  - rewrite (IndexByte_none_lines s I N) in E. inversion E; subst l ls.
    replace (String.length s <? max)%nat with true by (symmetry; apply Nat.ltb_lt; lia).
    rewrite (take_all max s) by lia.
    exists (drop (Nat.min max (String.length s)) s).
    split; [reflexivity|].
    replace (Nat.min max (String.length s)) with (String.length s) by lia.
    rewrite drop_all. simpl. split; [reflexivity | lia].
Qed.

Lemma Scan_empty (max : nat) : Scan max EmptyString = None.
Proof.
  unfold Scan, ScanLines. destruct max; reflexivity.
Qed.

(** Scanning an input all of whose lines fit the buffer yields its
    lines, each without its carriage return. *)
Lemma tokens_lines (max fuel : nat) (s : string) :
  String.length s < fuel ->
  forallb (fun l => (String.length l <? max)%nat) (lines s) = true ->
  tokens max fuel s = map dropCR (lines s).
Proof.
  revert s; induction fuel as [|fuel IH]; intros s F H; [lia|].
  simpl. destruct (lines s) as [|l ls] eqn:E.
  - destruct s as [|c t]; [now rewrite Scan_empty|].
    simpl in E. destruct (Ascii.eqb c LF); [discriminate|].
    destruct (lines t); discriminate.
  - simpl in H. apply andb_true_iff in H as [S1 S2].
    apply Nat.ltb_lt in S1.
    destruct (Scan_first_line max s l ls E S1) as (rest & -> & R & B).
    simpl. f_equal. rewrite IH; [now rewrite R | lia | now rewrite R].
Qed.

Lemma length_append (a b : string) :
  String.length (a ++ b) = String.length a + String.length b.
Proof.
  induction a; simpl; auto.
Qed.

Lemma take_app_length (a b : string) : take (String.length a) (a ++ b) = a.
Proof.
  induction a; simpl; [destruct b; reflexivity | congruence].
Qed.

Lemma drop_app_length (a b : string) : drop (String.length a) (a ++ b) = b.
Proof.
  induction a; simpl; auto.
Qed.

Lemma IndexByte_app (l t : string) (c : ascii) :
  IndexByte l c = None ->
  IndexByte (l ++ t) c =
  match IndexByte t c with
  | Some i => Some (String.length l + i)
  | None => None
  end.
Proof.
  induction l as [|x l IH]; simpl; intros H.
  - destruct (IndexByte t c); reflexivity.
  - destruct (Ascii.eqb x c); [discriminate|].
    destruct (IndexByte l c); [discriminate|].
    rewrite IH by reflexivity. destruct (IndexByte t c); reflexivity.
Qed.

Lemma lines_app (l t : string) :
  IndexByte l LF = None -> lines (l ++ String LF t) = l :: lines t.
Proof.
  induction l as [|x l IH]; simpl; intros H.
  - reflexivity.
  - destruct (Ascii.eqb x LF); [discriminate|].
    destruct (IndexByte l LF); [discriminate|].
    now rewrite IH.
Qed.

Lemma IndexByte_head (c : ascii) (t : string) : IndexByte (String c t) c = Some 0.
Proof.
  simpl. now rewrite Ascii.eqb_refl.
Qed.

(** A line that fits the buffer is scanned. *)
Lemma Scan_line (max : nat) (l t : string) :
  IndexByte l LF = None -> String.length l < max ->
  Scan max (l ++ String LF t) = Some (dropCR l, t).
Proof.
  intros I L. unfold Scan, ScanLines.
  rewrite IndexByte_take, IndexByte_app, length_take, length_append by exact I.
  rewrite IndexByte_head. simpl String.length.
  replace (Nat.min max (String.length l + S (String.length t)) =? 0)%nat with false
    by (symmetry; apply Nat.eqb_neq; lia).
  rewrite andb_false_r, Nat.add_0_r.
  replace (String.length l <? max)%nat with true by (symmetry; apply Nat.ltb_lt; lia).
  rewrite take_take, take_app_length by lia.
  replace (String.length l + 1) with (S (String.length l)) by lia.
  f_equal. f_equal.
  clear. induction l; simpl; auto.
Qed.

(** A line as long as the buffer, or longer, stops the scan. *)
Lemma Scan_long (max : nat) (l t : string) :
  IndexByte l LF = None -> max <= String.length l ->
  Scan max (l ++ t) = None.
Proof.
  intros I L. unfold Scan, ScanLines.
  rewrite IndexByte_take, IndexByte_app, length_append by exact I.
  replace (String.length l + String.length t <? max)%nat with false
    by (symmetry; apply Nat.ltb_ge; lia).
  simpl andb.
  destruct (IndexByte t LF) as [i|]; [|reflexivity].
  replace (String.length l + i <? max)%nat with false
    by (symmetry; apply Nat.ltb_ge; lia).
  reflexivity.
Qed.

Lemma IndexByte_Repeat (n : nat) : IndexByte (strings.Repeat "x" n) LF = None.
Proof.
  induction n; simpl; [reflexivity | now rewrite IHn].
Qed.

Lemma length_Repeat (n : nat) : String.length (strings.Repeat "x" n) = n.
Proof.
  induction n; simpl; auto.
Qed.

Lemma IndexByte_bound (s : string) (c : ascii) (i : nat) :
  IndexByte s c = Some i -> i < String.length s.
Proof.
  revert i; induction s as [|x t IH]; simpl; intros i H; [discriminate|].
  destruct (Ascii.eqb x c); [inversion H; lia|].
  destruct (IndexByte t c) as [j|]; [|discriminate].
  inversion H. specialize (IH j eq_refl). lia.
Qed.

(** A scan that returns a token consumes input. *)
Lemma Scan_shorter (max : nat) (s text rest : string) :
  Scan max s = Some (text, rest) -> String.length rest < String.length s.
Proof.
  unfold Scan, ScanLines. rewrite IndexByte_take, length_take.
  destruct ((String.length s <? max)%nat &&
            (Nat.min max (String.length s) =? 0)%nat) eqn:E; [discriminate|].
  destruct (IndexByte s LF) as [i|] eqn:I.
  - apply IndexByte_bound in I.
    destruct (i <? max)%nat.
    + intros H; inversion H. rewrite length_drop. lia.
    + destruct (String.length s <? max)%nat eqn:A; [|discriminate].
      cbn [andb] in E. apply Nat.eqb_neq in E. apply Nat.ltb_lt in A.
      intros H; inversion H. rewrite length_drop. lia.
  - destruct (String.length s <? max)%nat eqn:A; [|discriminate].
    cbn [andb] in E. apply Nat.eqb_neq in E. apply Nat.ltb_lt in A.
    intros H; inversion H. rewrite length_drop. lia.
Qed.

(** The fuel [GetBuildInfo] gives its loop is enough: more of it
    changes nothing. *)
Lemma tokens_fuel (max f1 f2 : nat) (s : string) :
  String.length s < f1 -> String.length s < f2 ->
  tokens max f1 s = tokens max f2 s.
Proof.
  revert f2 s; induction f1 as [|f1 IH]; intros f2 s L1 L2; [lia|].
  destruct f2 as [|f2]; [lia|]. cbn [tokens].
  destruct (Scan max s) as [[text rest]|] eqn:E; [|reflexivity].
  apply Scan_shorter in E. f_equal. apply IH; lia.
Qed.

(** The scans of an output whose second line fills the buffer. *)
Lemma tokens_long_line (max fuel : nat) (t : string) :
  2 < max -> 2 <= fuel ->
  tokens max fuel ("ok" ++ nl ++ strings.Repeat "x" max ++ t) = ["ok"].
Proof.
  intros M F. destruct fuel as [|[|fuel]]; try lia.
  change ("ok" ++ nl ++ strings.Repeat "x" max ++ t)
    with ("ok" ++ String LF (strings.Repeat "x" max ++ t)).
  cbn [tokens].
  rewrite Scan_line by (simpl; auto; lia).
  rewrite Scan_long by (auto using IndexByte_Repeat; rewrite length_Repeat; lia).
  reflexivity.
Qed.

End Scanning.

(** ** pkg/standalone *)

Lemma flat_app (xs ys : list string) : flat (xs ++ ys) = flat xs ++ flat ys.
Proof.
  induction xs as [|x xs IH]; simpl; [reflexivity|].
  now rewrite IH, append_assoc.
Qed.

Lemma Join_cons (x : string) (ys : list string) (sep : string) :
  strings.Join (x :: ys) sep = x ++ flat (map (fun l => sep ++ l) ys).
Proof.
  revert x; induction ys as [|y ys IH]; intros x.
  - simpl. now rewrite append_nil_r.
  - change (strings.Join (x :: y :: ys) sep) with (x ++ sep ++ strings.Join (y :: ys) sep).
    rewrite IH. simpl. now rewrite append_assoc.
Qed.

Lemma Join_app (x : string) (xs ys : list string) (sep : string) :
  strings.Join ((x :: xs) ++ ys) sep =
  strings.Join (x :: xs) sep ++ flat (map (fun l => sep ++ l) ys).
Proof.
  change ((x :: xs) ++ ys)%list with (x :: (xs ++ ys))%list.
  rewrite !Join_cons, map_app, flat_app. now rewrite append_assoc.
Qed.

Lemma scanAll_tokens (fuel : nat) (input : string) (strs : list string) :
  standalone.scanAll fuel input strs =
  (strs ++ map (append tab) (bufio.tokens bufio.MaxScanTokenSize fuel input))%list.
Proof.
  revert input strs; induction fuel as [|fuel IH]; intros input strs; simpl.
  - now rewrite app_nil_r.
  - destruct (bufio.Scan bufio.MaxScanTokenSize input) as [[text rest]|].
    + rewrite IH, <- app_assoc. reflexivity.
    + now rewrite app_nil_r.
Qed.

Section StandaloneFacts.

Variables gitcommit gitversion defaultDaprBinPath : string.
Variable binaryFilePath : string -> string -> string.
Variable Output : list standalone.Invocation -> standalone.Invocation -> string * option exec.Error.

Local Abbreviation GetRuntimeVersion :=
  (standalone.GetRuntimeVersion defaultDaprBinPath binaryFilePath Output).
Local Abbreviation GetDashboardVersion :=
  (standalone.GetDashboardVersion defaultDaprBinPath binaryFilePath Output).
Local Abbreviation GetBuildInfo :=
  (standalone.GetBuildInfo gitcommit gitversion defaultDaprBinPath binaryFilePath Output).
Local Abbreviation report := (standalone.report gitcommit gitversion).
Local Abbreviation daprd := (binaryFilePath defaultDaprBinPath "daprd").
Local Abbreviation dashboard := (binaryFilePath defaultDaprBinPath "dashboard").

(** A version function starts its binary once, with [--version]. *)
Lemma GetRuntimeVersion_spec (h : list standalone.Invocation) :
  GetRuntimeVersion h =
    (match snd (Output h (daprd, ["--version"])) with
     | Some _ => "n/a" ++ nl
     | None => fst (Output h (daprd, ["--version"]))
     end, (h ++ [(daprd, ["--version"])])%list).
Proof.
  unfold standalone.GetRuntimeVersion, standalone.bind, standalone.Command_Output,
    standalone.ret.
  destruct (Output h (daprd, ["--version"])) as [out [e|]]; reflexivity.
Qed.

Lemma GetDashboardVersion_spec (h : list standalone.Invocation) :
  GetDashboardVersion h =
    (match snd (Output h (dashboard, ["--version"])) with
     | Some _ => "n/a" ++ nl
     | None => fst (Output h (dashboard, ["--version"]))
     end, (h ++ [(dashboard, ["--version"])])%list).
Proof.
  unfold standalone.GetDashboardVersion, standalone.bind, standalone.Command_Output,
    standalone.ret.
  destruct (Output h (dashboard, ["--version"])) as [out [e|]]; reflexivity.
Qed.

(** C4.  [GetRuntimeVersion] and [GetDashboardVersion] start the target
    binary once, with [--version]; whatever the error of the invocation
    is, the result is the string n/a followed by a newline, and without
    an error it is the captured standard output as it is. *)
Theorem version_or_na (h : list standalone.Invocation) :
  GetRuntimeVersion h =
    (match snd (Output h (daprd, ["--version"])) with
     | Some _ => "n/a" ++ nl
     | None => fst (Output h (daprd, ["--version"]))
     end, (h ++ [(daprd, ["--version"])])%list) /\
  GetDashboardVersion h =
    (match snd (Output h (dashboard, ["--version"])) with
     | Some _ => "n/a" ++ nl
     | None => fst (Output h (dashboard, ["--version"]))
     end, (h ++ [(dashboard, ["--version"])])%list).
Proof.
  split; [apply GetRuntimeVersion_spec | apply GetDashboardVersion_spec].
Qed.

(** The report of [GetBuildInfo] when the invocation that counts
    succeeded with the output [out]: the scanned lines after the header. *)
Lemma GetBuildInfo_join (version out : string) :
  strings.Join
    (standalone.scanAll (S (String.length out)) out
       [ "CLI:"; tab ++ "Version: " ++ version; tab ++ "Git Commit: " ++ gitcommit;
         tab ++ "Git Version: " ++ gitversion; "Runtime:" ]) nl =
  report version (bufio.tokens bufio.MaxScanTokenSize (S (String.length out)) out).
Proof.
  rewrite scanAll_tokens, Join_app, map_map.
  generalize (bufio.tokens bufio.MaxScanTokenSize (S (String.length out)) out) as body.
  intros body. unfold standalone.report.
  rewrite !Join_cons. unfold nl, tab.
  repeat (rewrite append_assoc || (progress simpl)).
  reflexivity.
Qed.

Local Abbreviation build_info := (daprd, ["--build-info"]).
Local Abbreviation version_flag := (daprd, ["--version"]).

Local Abbreviation scanned out :=
  (bufio.tokens bufio.MaxScanTokenSize (S (String.length out)) out).

(** [GetBuildInfo] by the outcome of its invocations: the texts the
    scanner returns for the output that counts, or N/A. *)
Lemma GetBuildInfo_scanned (version : string) (h : list standalone.Invocation) :
  GetBuildInfo version h =
  match Output h build_info with
  | (out1, None) => (report version (scanned out1), (h ++ [build_info])%list)
  | (_, Some _) =>
    match Output (h ++ [build_info]) version_flag with
    | (out2, None) => (report version (scanned out2), (h ++ [build_info; version_flag])%list)
    | (_, Some _) => (report version ["N/A"], (h ++ [build_info; version_flag])%list)
    end
  end.
Proof.
  unfold standalone.GetBuildInfo, standalone.bind, standalone.Command_Output, standalone.ret.
  destruct (Output h build_info) as [out1 [e1|]]; cbn [fst snd];
    [destruct (Output (h ++ [build_info]) version_flag) as [out2 [e2|]]; cbn [fst snd]|];
    rewrite <- ?app_assoc; cbn [app].
  - unfold standalone.report, nl, tab.
    repeat (rewrite append_assoc || (progress simpl)).
    reflexivity.
  - now rewrite GetBuildInfo_join.
  - now rewrite GetBuildInfo_join.
Qed.

(** C3, amended.  [GetBuildInfo] starts the runtime binary with
    [--build-info] and, if that fails, again with [--version].  If both
    fail the report is the five header lines and the line N/A after a
    tab.  If one succeeds and no line of its output is 65536 bytes or
    longer, the report is the header followed by every line of the output
    (without the carriage return at its end, if it has one) after a tab,
    in order.  The lines are separated by newlines, and none follows
    the last. *)
Theorem GetBuildInfo_report (version : string) (h : list standalone.Invocation) :
  let r1 := Output h build_info in
  let r2 := Output (h ++ [build_info]) version_flag in
  (snd r1 = None -> standalone.short_lines (fst r1) = true ->
   GetBuildInfo version h =
     (report version (map bufio.dropCR (standalone.lines (fst r1))),
      (h ++ [build_info])%list)) /\
  (snd r1 <> None -> snd r2 = None -> standalone.short_lines (fst r2) = true ->
   GetBuildInfo version h =
     (report version (map bufio.dropCR (standalone.lines (fst r2))),
      (h ++ [build_info; version_flag])%list)) /\
  (snd r1 <> None -> snd r2 <> None ->
   GetBuildInfo version h =
     (report version ["N/A"], (h ++ [build_info; version_flag])%list)).
Proof.
  intros r1 r2. subst r1 r2. rewrite GetBuildInfo_scanned.
  destruct (Output h build_info) as [out1 [e1|]]; cbn [fst snd];
    [destruct (Output (h ++ [build_info]) version_flag) as [out2 [e2|]]; cbn [fst snd]|];
    repeat split; intros; try congruence;
    rewrite tokens_lines; (reflexivity || lia || assumption).
Qed.

(** C10.  If the invocation that counts succeeds with an empty output,
    the report ends with the line [Runtime:]: nothing follows it. *)
Theorem GetBuildInfo_empty_output (version : string) (h : list standalone.Invocation) :
  let r1 := Output h build_info in
  let r2 := Output (h ++ [build_info]) version_flag in
  (snd r1 = None /\ fst r1 = EmptyString) \/
  (snd r1 <> None /\ snd r2 = None /\ fst r2 = EmptyString) ->
  fst (GetBuildInfo version h) =
    "CLI:" ++ nl ++
    tab ++ "Version: " ++ version ++ nl ++
    tab ++ "Git Commit: " ++ gitcommit ++ nl ++
    tab ++ "Git Version: " ++ gitversion ++ nl ++
    "Runtime:".
Proof.
  intros r1 r2 H. subst r1 r2. rewrite GetBuildInfo_scanned.
  assert (R : report version (scanned EmptyString) =
    "CLI:" ++ nl ++ tab ++ "Version: " ++ version ++ nl ++
    tab ++ "Git Commit: " ++ gitcommit ++ nl ++
    tab ++ "Git Version: " ++ gitversion ++ nl ++ "Runtime:").
  { cbn [String.length bufio.tokens]. rewrite Scan_empty. reflexivity. }
  destruct (Output h build_info) as [out1 e1]; cbn [fst snd] in H.
  destruct H as [[-> ->] | (E1 & E2 & O)].
  - exact R.
  - destruct e1 as [e1|]; [|congruence].
    destruct (Output (h ++ [build_info]) version_flag) as [out2 e2]; cbn [fst snd] in E2, O.
    subst e2 out2. exact R.
Qed.

End StandaloneFacts.

Lemma GetBuildInfo_report_witness :
  standalone.GetBuildInfo "abc123" "v1.0.0-rc" example.binDir example.binaryFilePath
    example.old_runtime "1.0.0" [] =
  ("CLI:" ++ nl ++
   tab ++ "Version: 1.0.0" ++ nl ++
   tab ++ "Git Commit: abc123" ++ nl ++
   tab ++ "Git Version: v1.0.0-rc" ++ nl ++
   "Runtime:" ++ nl ++
   tab ++ "Runtime: 1.0.0",
   [("/home/user/.dapr/bin/daprd", ["--build-info"]);
    ("/home/user/.dapr/bin/daprd", ["--version"])]).
Proof.
  destruct (GetBuildInfo_report "abc123" "v1.0.0-rc" example.binDir example.binaryFilePath
              example.old_runtime "1.0.0" []) as (_ & H & _).
  rewrite H; [reflexivity | simpl; discriminate | reflexivity | reflexivity].
Defined.

Lemma GetBuildInfo_empty_output_witness :
  fst (standalone.GetBuildInfo "abc123" "v1.0.0-rc" example.binDir example.binaryFilePath
         example.silent "1.0.0" []) =
  "CLI:" ++ nl ++
  tab ++ "Version: 1.0.0" ++ nl ++
  tab ++ "Git Commit: abc123" ++ nl ++
  tab ++ "Git Version: v1.0.0-rc" ++ nl ++
  "Runtime:".
Proof.
  apply (GetBuildInfo_empty_output "abc123" "v1.0.0-rc" example.binDir example.binaryFilePath
           example.silent "1.0.0" []).
  left. split; reflexivity.
Defined.

(** C3 as stated fails: the runtime prints three lines, the second of
    65536 bytes, and the report has the first of them only. *)
Lemma GetBuildInfo_stops_at_long_line :
  standalone.lines example.long_output =
    ["ok"; strings.Repeat "x" bufio.MaxScanTokenSize; "more"] /\
  fst (standalone.GetBuildInfo "abc123" "v1.0.0-rc" example.binDir example.binaryFilePath
         example.verbose "1.0.0" []) =
  standalone.report "abc123" "v1.0.0-rc" "1.0.0" ["ok"].
Proof.
  assert (B : 2 < bufio.MaxScanTokenSize) by (unfold bufio.MaxScanTokenSize; lia).
  unfold example.long_output. split.
  - change ("ok" ++ nl ++ strings.Repeat "x" bufio.MaxScanTokenSize ++ nl ++ "more")
      with ("ok" ++ String LF (strings.Repeat "x" bufio.MaxScanTokenSize ++ String LF "more")).
    rewrite !lines_app by (auto using IndexByte_Repeat). reflexivity.
  - unfold standalone.GetBuildInfo, standalone.bind, standalone.Command_Output,
      standalone.ret, example.verbose.
    cbn [fst snd]. rewrite GetBuildInfo_join.
    unfold example.long_output.
    rewrite tokens_long_line; [reflexivity | exact B |].
    rewrite length_append. simpl (String.length "ok"). lia.
Qed.

(** ** pkg/print: status events and the spinner *)

Section PrintFacts.

Variable any : Type.
Variable Sprintf : string -> list any -> string.
Variable GOOS : string.
Variable Now : nat -> time.Time.

Import print.

Local Abbreviation StatusEvent := (print.StatusEvent any Sprintf GOOS Now).
Local Abbreviation SuccessStatusEvent := (print.SuccessStatusEvent any Sprintf GOOS Now).
Local Abbreviation FailureStatusEvent := (print.FailureStatusEvent any Sprintf GOOS Now).
Local Abbreviation Spinner := (print.Spinner any Sprintf GOOS Now).
Local Abbreviation call := (print.call any Sprintf GOOS Now).
Local Abbreviation calls := (print.calls any Sprintf GOOS Now).
Local Abbreviation exec := (print.exec any Sprintf GOOS Now).
Local Abbreviation run := (print.run any Sprintf GOOS Now).
Local Abbreviation status_line := (print.status_line GOOS).

Ltac unfold_print :=
  unfold print.StatusEvent, print.SuccessStatusEvent, print.FailureStatusEvent,
    print.WarningStatusEvent, print.PendingStatusEvent, print.InfoStatusEvent,
    print.logJSON, print.time_Now_UTC, print.Fprint, print.emit, print.getLogAsJSON,
    print.bind, print.ret, print.status_line in *.

(** What a status event does to the world: one write on [w], and one
    clock reading in JSON mode. *)
Lemma StatusEvent_spec (t : Severity) (w : Writer) (fmtstr : string) (a : list any) (g : World) :
  StatusEvent t w fmtstr a g =
  (tt, mkWorld (logAsJSON g)
         (if logAsJSON g then S (clock g) else clock g)
         (onces g)
         (trace g ++ [EvWrite w (status_line (logAsJSON g) (Now (clock g)) t (Sprintf fmtstr a))])).
Proof.
  destruct t; unfold_print; cbn [tag icon];
    destruct (logAsJSON g) eqn:J; cbn [logAsJSON clock onces trace];
    try (destruct (Marshal _); cbn [logAsJSON clock onces trace]; rewrite ?J; reflexivity);
    destruct (String.eqb GOOS windowsOS); cbn [logAsJSON clock onces trace];
    rewrite ?J; reflexivity.
Qed.

(** C6.  In human mode, off Windows, a status event writes the icon of
    its severity, two spaces, the formatted message and a newline. *)
Theorem status_event_human
    (t : Severity) (w : Writer) (fmtstr : string) (a : list any) (g : World) :
  logAsJSON g = false ->
  GOOS <> windowsOS ->
  StatusEvent t w fmtstr a g =
  emit (EvWrite w (icon t ++ "  " ++ Sprintf fmtstr a ++ nl)) g.
Proof.
  intros J G. apply String.eqb_neq in G.
  rewrite StatusEvent_spec. unfold emit, print.status_line. now rewrite J, G.
Qed.

Lemma skipn_length_app (A : Type) (l es : list A) : skipn (List.length l) (l ++ es) = es.
Proof.
  induction l; simpl; auto.
Qed.

Lemma nth_set_done (o : nat) (l : list bool) :
  o < List.length l -> nth o (set_done o l) false = true.
Proof.
  revert o; induction l as [|b l IH]; intros [|o] H; simpl in *; try lia; auto.
  apply IH; lia.
Qed.

Lemma length_set_done (o : nat) (l : list bool) :
  List.length (set_done o l) = List.length l.
Proof.
  revert o; induction l as [|b l IH]; intros [|o]; simpl; auto.
Qed.

(** What [Spinner] returns and does, by mode. *)
Lemma Spinner_spec (w : Writer) (fmtstr : string) (a : list any) (g : World) :
  let msg := Sprintf fmtstr a in
  let o := List.length (onces g) in
  let sp := spinner.mkSpinner 0 100000000 "cyan" w ("  " ++ msg) in
  Spinner w fmtstr a g =
  if logAsJSON g then
    (closure o None w msg,
     mkWorld true (S (clock g)) (onces g ++ [false])
       (trace g ++ [EvWrite w (status_line true (Now (clock g)) pending msg)]))
  else if String.eqb GOOS windowsOS then
    (dummy, mkWorld false (clock g) (onces g ++ [false]) (trace g ++ [EvWrite w (msg ++ nl)]))
  else
    (closure o (Some sp) w msg,
     mkWorld false (clock g) (onces g ++ [false]) (trace g ++ [EvSpinnerStart sp])).
Proof.
  intros msg o sp. unfold print.Spinner, newOnce. unfold_print.
  cbn [logAsJSON clock onces trace].
  destruct (logAsJSON g) eqn:J.
  - cbn [tag]. destruct (Marshal _); reflexivity.
  - destruct (String.eqb GOOS windowsOS); reflexivity.
Qed.

(** The function literal of the closure: the spinner, if there is
    one, stops, and the status event of the result follows with [msg] as
    its format. *)
Lemma body_spec (s : option spinner.Spinner) (w : Writer) (msg : string)
    (result : Result) (g : World) :
  print.body any Sprintf GOOS Now s w msg result g =
  (tt, mkWorld (logAsJSON g)
         (if logAsJSON g then S (clock g) else clock g)
         (onces g)
         (trace g ++
          match s with
          | Some sp => [EvSpinnerStop sp]
          | None => []
          end ++
          [EvWrite w (status_line (logAsJSON g) (Now (clock g)) (outcome result)
                        (Sprintf msg []))])).
Proof.
  assert (E : forall g0,
    (if result then SuccessStatusEvent w msg [] else FailureStatusEvent w msg []) g0 =
    StatusEvent (outcome result) w msg [] g0) by (destruct result; reflexivity).
  unfold print.body, bind.
  destruct s as [sp|]; unfold emit, ret; rewrite E, StatusEvent_spec;
    cbn [logAsJSON clock onces trace]; rewrite <- ?app_assoc; reflexivity.
Qed.

(** The first call of a closure whose guard is not done runs the
    function literal and sets the guard. *)
Lemma call_first (o : nat) (s : option spinner.Spinner) (w : Writer) (msg : string)
    (result : Result) (g : World) :
  is_done o g = false ->
  call (closure o s w msg) result g =
  (tt, mkWorld (logAsJSON g)
         (if logAsJSON g then S (clock g) else clock g)
         (set_done o (onces g))
         (trace g ++
          match s with
          | Some sp => [EvSpinnerStop sp]
          | None => []
          end ++
          [EvWrite w (status_line (logAsJSON g) (Now (clock g)) (outcome result)
                        (Sprintf msg []))])).
Proof.
  intros D. unfold print.call, Once_Do. now rewrite D, body_spec.
Qed.

Lemma call_done (o : nat) (s : option spinner.Spinner) (w : Writer) (msg : string)
    (result : Result) (g : World) :
  is_done o g = true -> call (closure o s w msg) result g = (tt, g).
Proof.
  intros D. unfold print.call, Once_Do. now rewrite D.
Qed.

Lemma calls_done (o : nat) (s : option spinner.Spinner) (w : Writer) (msg : string)
    (rs : list Result) (g : World) :
  is_done o g = true -> calls (closure o s w msg) rs g = g.
Proof.
  intros D. induction rs as [|r rs IH]; [reflexivity|].
  unfold print.calls in *. cbn [fold_left]. rewrite call_done by exact D. exact IH.
Qed.

Lemma calls_dummy (rs : list Result) (g : World) : calls dummy rs g = g.
Proof.
  induction rs as [|r rs IH]; [reflexivity|]. exact IH.
Qed.

(** The guard of the closure [Spinner] returns is fresh: one call
    fires it, and the calls after that change nothing. *)
Lemma closure_calls (w : Writer) (msg : string) (s : option spinner.Spinner)
    (r : Result) (rs : list Result) (g1 : World) (o : nat) :
  o < List.length (onces g1) -> is_done o g1 = false ->
  calls (closure o s w msg) (r :: rs) g1 = snd (call (closure o s w msg) r g1).
Proof.
  intros B D. unfold print.calls. cbn [fold_left].
  fold (calls (closure o s w msg) rs (snd (call (closure o s w msg) r g1))).
  apply calls_done. rewrite call_first by exact D.
  unfold is_done. cbn [snd onces]. now apply nth_set_done.
Qed.

(** C1, amended.  For a spinner created in JSON mode or off Windows:
    however often the function it returned is called, and with whatever
    results, the outcome is that of the first call alone, and the writes
    added are one, the status line of the first call's result. *)
Theorem completion_fires_once
    (w : Writer) (fmtstr : string) (a : list any) (g : World)
    (r : Result) (rs : list Result) :
  logAsJSON g = true \/ GOOS <> windowsOS ->
  let f := fst (Spinner w fmtstr a g) in
  let g1 := snd (Spinner w fmtstr a g) in
  calls f (r :: rs) g1 = snd (call f r g1) /\
  writes (added g1 (calls f (r :: rs) g1)) =
    [EvWrite w (status_line (logAsJSON g) (Now (clock g1)) (outcome r)
                  (Sprintf (Sprintf fmtstr a) []))].
Proof.
  intros H f g1. subst f g1. rewrite Spinner_spec.
  assert (F : forall l : list bool, nth (List.length l) (l ++ [false]) false = false).
  { intros l. rewrite app_nth2, Nat.sub_diag by lia. reflexivity. }
  assert (B : forall l : list bool, List.length l < List.length (l ++ [false])).
  { intros l. rewrite List.length_app. simpl. lia. }
  destruct (logAsJSON g) eqn:J; [|destruct (String.eqb GOOS windowsOS) eqn:G].
  - cbn [fst snd]. rewrite closure_calls.
    2: cbn [onces]; apply B.
    2: unfold is_done; cbn [onces]; apply F.
    split; [reflexivity|].
    rewrite call_first by (unfold is_done; cbn [onces]; auto).
    unfold added. cbn [snd trace logAsJSON clock]. rewrite skipn_length_app.
    reflexivity.
  - destruct H as [H|H]; [discriminate|]. apply String.eqb_eq in G. contradiction.
  - cbn [fst snd]. rewrite closure_calls.
    2: cbn [onces]; apply B.
    2: unfold is_done; cbn [onces]; apply F.
    split; [reflexivity|].
    rewrite call_first by (unfold is_done; cbn [onces]; auto).
    unfold added. cbn [snd trace logAsJSON clock]. rewrite skipn_length_app.
    reflexivity.
Qed.

(** X1.  For a spinner created in JSON mode or off Windows, with goroutines
    calling the function it returned at the same time: under every
    schedule, once any one of them has returned, whichever it is, the
    writes added are one, the status line for the result of the
    goroutine that locked the guard first. *)
Theorem completion_fires_once_concurrently
    (w : Writer) (fmtstr : string) (a : list any) (g : World)
    (results : nat -> Result) (schedule : list nat) (i : nat) :
  logAsJSON g = true \/ GOOS <> windowsOS ->
  let f := fst (Spinner w fmtstr a g) in
  let g1 := snd (Spinner w fmtstr a g) in
  let st := print.concurrent_calls any Sprintf GOOS Now f results schedule g1 in
  sync.at_ World st i = sync.Returned ->
  exists j rest,
    sync.acquired World st = j :: rest /\
    writes (added g1 (sync.world World st)) =
      [EvWrite w (status_line (logAsJSON g) (Now (clock g1)) (outcome (results j))
                    (Sprintf (Sprintf fmtstr a) []))].
Proof.
  intros H f g1 st R. subst st.
  destruct (Once_any_returned World (fun k => print.guarded any Sprintf GOOS Now f (results k))
              g1 schedule i R) as (j & rest & A & Wd & _).
  exists j, rest. split; [exact A|].
  unfold print.concurrent_calls. rewrite Wd. subst f g1. rewrite Spinner_spec.
  destruct (logAsJSON g) eqn:J; [|destruct (String.eqb GOOS windowsOS) eqn:G].
  - cbn [fst snd print.guarded]. rewrite body_spec. unfold added.
    cbn [snd trace logAsJSON clock]. rewrite skipn_length_app. reflexivity.
  - destruct H as [H|H]; [discriminate|]. apply String.eqb_eq in G. contradiction.
  - cbn [fst snd print.guarded]. rewrite body_spec. unfold added.
    cbn [snd trace logAsJSON clock]. rewrite skipn_length_app. reflexivity.
Qed.

(** The calls one after the other of [calls] are the schedule
    [in_turn] of the concurrent calls: the events are the same. *)
Lemma calls_in_turn
    (w : Writer) (fmtstr : string) (a : list any) (g : World)
    (r : Result) (rs : list Result) :
  logAsJSON g = true \/ GOOS <> windowsOS ->
  let f := fst (Spinner w fmtstr a g) in
  let g1 := snd (Spinner w fmtstr a g) in
  let st := print.concurrent_calls any Sprintf GOOS Now f (fun i => nth i (r :: rs) Failure)
              (sync.in_turn 0 (S (List.length rs))) g1 in
  sync.returned World (S (List.length rs)) st /\
  trace (sync.world World st) = trace (calls f (r :: rs) g1).
Proof.
  intros H f g1 st. subst st. unfold print.concurrent_calls.
  destruct (Once_in_turn World (fun i => print.guarded any Sprintf GOOS Now f
                                           (nth i (r :: rs) Failure)) g1 (List.length rs))
    as [R Wd].
  split; [exact R|]. rewrite Wd. cbn [nth].
  assert (F : forall l : list bool, nth (List.length l) (l ++ [false]) false = false).
  { intros l. rewrite app_nth2, Nat.sub_diag by lia. reflexivity. }
  assert (B : forall l : list bool, List.length l < List.length (l ++ [false])).
  { intros l. rewrite List.length_app. simpl. lia. }
  subst f g1. rewrite Spinner_spec.
  destruct (logAsJSON g) eqn:J; [|destruct (String.eqb GOOS windowsOS) eqn:G].
  - cbn [fst snd print.guarded]. rewrite closure_calls.
    2: cbn [onces]; apply B.
    2: unfold is_done; cbn [onces]; apply F.
    rewrite call_first by (unfold is_done; cbn [onces]; apply F).
    rewrite body_spec. reflexivity.
  - destruct H as [H|H]; [discriminate|]. apply String.eqb_eq in G. contradiction.
  - cbn [fst snd print.guarded]. rewrite closure_calls.
    2: cbn [onces]; apply B.
    2: unfold is_done; cbn [onces]; apply F.
    rewrite call_first by (unfold is_done; cbn [onces]; apply F).
    rewrite body_spec. reflexivity.
Qed.

(** C9.  On Windows, in human mode, every status event writes the
    formatted message and a newline, and [Spinner] writes the message and
    a newline and returns a function whose calls do nothing. *)
Theorem windows_plain (w : Writer) (fmtstr : string) (a : list any) (g : World) :
  GOOS = windowsOS ->
  logAsJSON g = false ->
  (forall t, StatusEvent t w fmtstr a g = emit (EvWrite w (Sprintf fmtstr a ++ nl)) g) /\
  fst (Spinner w fmtstr a g) = dummy /\
  trace (snd (Spinner w fmtstr a g)) = (trace g ++ [EvWrite w (Sprintf fmtstr a ++ nl)])%list /\
  (forall rs g', calls (fst (Spinner w fmtstr a g)) rs g' = g').
Proof.
  intros G J. apply String.eqb_eq in G.
  assert (E : Spinner w fmtstr a g =
    (dummy, mkWorld false (clock g) (onces g ++ [false])
              (trace g ++ [EvWrite w (Sprintf fmtstr a ++ nl)]))).
  { rewrite Spinner_spec, J, G. reflexivity. }
  repeat split.
  - intros t. rewrite StatusEvent_spec. unfold emit, print.status_line. now rewrite J, G.
  - now rewrite E.
  - now rewrite E.
  - intros rs g'. rewrite E. apply calls_dummy.
Qed.

(** No exported operation but [EnableJSONFormat] touches [logAsJSON]. *)
Lemma exec_logAsJSON (c : Call any) (g : World) :
  logAsJSON (exec c g) =
  match c with
  | CallEnableJSONFormat _ => true
  | _ => logAsJSON g
  end.
Proof.
  destruct c as [| |t w fmtstr a|w fmtstr a|f result]; cbn [print.exec].
  - reflexivity.
  - reflexivity.
  - now rewrite StatusEvent_spec.
  - rewrite Spinner_spec. cbv zeta.
    destruct (logAsJSON g) eqn:J; [|destruct (String.eqb GOOS windowsOS)]; reflexivity.
  - destruct f as [|o s w msg]; [reflexivity|].
    destruct (is_done o g) eqn:D.
    + now rewrite call_done.
    + now rewrite call_first.
Qed.

(** C7.  The flag is off at program start; [EnableJSONFormat] turns it
    on, a second call changes nothing, and it stays on whatever
    operations follow. *)
Theorem json_mode_sticky :
  logAsJSON initial = false /\
  (forall g, logAsJSON (snd (EnableJSONFormat g)) = true) /\
  (forall g, snd (EnableJSONFormat (snd (EnableJSONFormat g))) = snd (EnableJSONFormat g)) /\
  (forall cs g, logAsJSON (run cs (snd (EnableJSONFormat g))) = true).
Proof.
  repeat split.
  intros cs g. generalize (snd (EnableJSONFormat g)) (eq_refl : logAsJSON (snd (EnableJSONFormat g)) = true).
  induction cs as [|c cs IH]; intros g0 J; [exact J|].
  unfold print.run in *. cbn [fold_left]. apply IH.
  rewrite exec_logAsJSON. destruct c; auto.
Qed.

(** C2, amended.  In JSON mode, with the year of the clock in 0..9999,
    a status event writes one line: a JSON object and a newline.  The
    object has no newline in it and is parsed as the members [time],
    [status], equal to the tag of the severity, and [msg], equal to the
    formatted message with every byte that is no UTF-8 replaced by
    U+FFFD, which is the formatted message itself when that is valid
    UTF-8. *)
Theorem status_event_json
    (t : Severity) (w : Writer) (fmtstr : string) (a : list any) (g : World) :
  logAsJSON g = true ->
  (0 <= time.Year (Now (clock g)) <= 9999)%Z ->
  exists line,
    StatusEvent t w fmtstr a g =
      (tt, mkWorld true (S (clock g)) (onces g) (trace g ++ [EvWrite w (line ++ nl)])) /\
    bufio.IndexByte line LF = None /\
    json.Unmarshal line =
      Some (json.Object
              [("time", json.Str (time.formatRFC3339Nano (Now (clock g))));
               ("status", json.Str (tag t));
               ("msg", json.Str (json.toValidUTF8 (Sprintf fmtstr a)))]) /\
    json.Unmarshal (line ++ nl) = json.Unmarshal line /\
    (utf8.ValidString (Sprintf fmtstr a) = true ->
     json.toValidUTF8 (Sprintf fmtstr a) = Sprintf fmtstr a).
Proof.
  intros J Y.
  exists (json.log_text (time.formatRFC3339Nano (Now (clock g))) (tag t) (Sprintf fmtstr a)
            EmptyString).
  assert (P := formatRFC3339Nano_plain (Now (clock g))).
  assert (T : json.toValidUTF8 (tag t) = tag t) by (destruct t; reflexivity).
  split; [|split; [|split; [|split]]].
  - rewrite StatusEvent_spec, J. unfold print.status_line.
    now rewrite Marshal_in_range by exact Y.
  - apply printable_no_newline, log_text_printable, P.
  - rewrite Unmarshal_log_text, T by (exact P || reflexivity). reflexivity.
  - rewrite log_text_app, !Unmarshal_log_text by (exact P || reflexivity). reflexivity.
  - apply toValidUTF8_valid.
Qed.

(** In JSON mode with a year outside 0..9999 the time cannot be
    marshalled, and a status event writes the formatted message and a
    newline. *)
Lemma status_event_json_fallback
    (t : Severity) (w : Writer) (fmtstr : string) (a : list any) (g : World) :
  logAsJSON g = true ->
  (time.Year (Now (clock g)) < 0 \/ 9999 < time.Year (Now (clock g)))%Z ->
  StatusEvent t w fmtstr a g =
  (tt, mkWorld true (S (clock g)) (onces g) (trace g ++ [EvWrite w (Sprintf fmtstr a ++ nl)])).
Proof.
  intros J Y. rewrite StatusEvent_spec, J. unfold print.status_line.
  now rewrite Marshal_out_of_range by exact Y.
Qed.

End PrintFacts.

(** A format without a percent sign and without operands is printed
    as it is. *)
Lemma Sprintf_literal (s : string) :
  all_bytes (fun b => negb (b =? fmt.percent)%N) s = true -> fmt.Sprintf s [] = Some s.
Proof.
  induction s as [|c t IH]; cbn [all_bytes fmt.Sprintf]; intros H; [reflexivity|].
  apply andb_true_iff in H as [H1 H2]. now rewrite H1, IH.
Qed.

(** Where C5 holds: off Windows, in human mode, for a message without
    a percent sign the first call of the function [Spinner] returned
    writes the icon and the message computed at creation. *)
Lemma completion_message_without_verbs
    (Sprintf : string -> list fmt.operand -> string) (GOOS : string)
    (Now : nat -> time.Time) (w : print.Writer) (fmtstr : string) (a : list fmt.operand)
    (g : print.World) (r : print.Result) :
  fmt.agrees Sprintf ->
  GOOS <> print.windowsOS ->
  print.logAsJSON g = false ->
  all_bytes (fun b => negb (b =? fmt.percent)%N) (Sprintf fmtstr a) = true ->
  print.writes
    (print.added (snd (print.Spinner fmt.operand Sprintf GOOS Now w fmtstr a g))
       (snd (print.call fmt.operand Sprintf GOOS Now
               (fst (print.Spinner fmt.operand Sprintf GOOS Now w fmtstr a g)) r
               (snd (print.Spinner fmt.operand Sprintf GOOS Now w fmtstr a g))))) =
  [print.EvWrite w (print.icon (print.outcome r) ++ "  " ++ Sprintf fmtstr a ++ nl)].
Proof.
  intros A G J P. apply String.eqb_neq in G.
  rewrite Spinner_spec, J, G. cbv zeta. cbn [fst snd].
  rewrite call_first by (unfold print.is_done; cbn [print.onces];
                         rewrite app_nth2, Nat.sub_diag by lia; reflexivity).
  unfold print.added. cbn [snd print.trace print.logAsJSON print.clock].
  rewrite skipn_length_app. unfold print.status_line. rewrite G.
  rewrite (A _ _ _ (Sprintf_literal _ P)). reflexivity.
Qed.

Lemma SprintfOr_agrees : fmt.agrees fmt.SprintfOr.
Proof.
  intros format a s H. unfold fmt.SprintfOr. now rewrite H.
Qed.

Lemma status_event_human_witness :
  print.StatusEvent fmt.operand fmt.SprintfOr "linux" example.clock
    print.warning 1 "disk %d%% full" [fmt.OfInt 93] print.initial =
  (tt, print.mkWorld false 0 [] [print.EvWrite 1 ("⚠  disk 93% full" ++ nl)]).
Proof.
  rewrite (status_event_human fmt.operand fmt.SprintfOr "linux" example.clock
             print.warning 1 "disk %d%% full" [fmt.OfInt 93] print.initial);
    [reflexivity | reflexivity | discriminate].
Defined.

Lemma completion_fires_once_witness :
  let f := fst (print.Spinner fmt.operand fmt.SprintfOr "linux" example.clock
                  1 "Downloading %s" [fmt.OfString "binaries"] print.initial) in
  let g1 := snd (print.Spinner fmt.operand fmt.SprintfOr "linux" example.clock
                   1 "Downloading %s" [fmt.OfString "binaries"] print.initial) in
  print.writes
    (print.added g1
       (print.calls fmt.operand fmt.SprintfOr "linux" example.clock f
          [print.Failure; print.Success; print.Failure] g1)) =
  [print.EvWrite 1 ("❌  Downloading binaries" ++ nl)].
Proof.
  cbv zeta.
  destruct (completion_fires_once fmt.operand fmt.SprintfOr "linux" example.clock
              1 "Downloading %s" [fmt.OfString "binaries"] print.initial
              print.Failure [print.Success; print.Failure]) as [_ H].
  - right. discriminate.
  - rewrite H. reflexivity.
Defined.

(** C1 as stated fails: on Windows, in human mode, the function
    [Spinner] returns is called twice and no status line is written. *)
Lemma completion_silent_on_windows :
  let f := fst (print.Spinner fmt.operand fmt.SprintfOr "windows" example.clock
                  1 "Downloading %s" [fmt.OfString "binaries"] print.initial) in
  let g1 := snd (print.Spinner fmt.operand fmt.SprintfOr "windows" example.clock
                   1 "Downloading %s" [fmt.OfString "binaries"] print.initial) in
  f = print.dummy /\
  print.writes
    (print.added g1
       (print.calls fmt.operand fmt.SprintfOr "windows" example.clock f
          [print.Success; print.Failure] g1)) = [].
Proof.
  split; reflexivity.
Qed.

Lemma windows_plain_witness :
  print.StatusEvent fmt.operand fmt.SprintfOr "windows" example.clock
    print.success 1 "%s installed" [fmt.OfString "daprd"] print.initial =
  (tt, print.mkWorld false 0 [] [print.EvWrite 1 ("daprd installed" ++ nl)]) /\
  print.trace (snd (print.Spinner fmt.operand fmt.SprintfOr "windows" example.clock
                      1 "%s installed" [fmt.OfString "daprd"] print.initial)) =
  [print.EvWrite 1 ("daprd installed" ++ nl)].
Proof.
  destruct (windows_plain fmt.operand fmt.SprintfOr "windows" example.clock
              1 "%s installed" [fmt.OfString "daprd"] print.initial eq_refl eq_refl)
    as (A & _ & B & _).
  split; [rewrite A | rewrite B]; reflexivity.
Defined.

(** C5 fails on the code.  The message is the operand of [%s] and holds
    a verb; the spinner shows it as it is, and the first call of the
    function returned formats it once more, as a format without
    operands. *)
Theorem completion_formats_message_again
    (Sprintf : string -> list fmt.operand -> string) (Now : nat -> time.Time) :
  fmt.agrees Sprintf ->
  let sp := spinner.mkSpinner 0 100000000 "cyan" 1 "  hi%d" in
  let f := fst (print.Spinner fmt.operand Sprintf "linux" Now
                  1 "%s" [fmt.OfString "hi%d"] print.initial) in
  let g1 := snd (print.Spinner fmt.operand Sprintf "linux" Now
                   1 "%s" [fmt.OfString "hi%d"] print.initial) in
  print.trace g1 = [print.EvSpinnerStart sp] /\
  print.added g1 (snd (print.call fmt.operand Sprintf "linux" Now f print.Success g1)) =
    [print.EvSpinnerStop sp; print.EvWrite 1 ("✅  hi%!d(MISSING)" ++ nl)].
Proof.
  intros A sp f g1.
  assert (E1 : Sprintf "%s" [fmt.OfString "hi%d"] = "hi%d") by (apply A; reflexivity).
  assert (E2 : Sprintf "hi%d" [] = "hi%!d(MISSING)") by (apply A; reflexivity).
  subst f g1. rewrite Spinner_spec. cbv zeta.
  change (print.logAsJSON print.initial) with false.
  change (String.eqb "linux" print.windowsOS) with false.
  cbv iota. cbn [fst snd].
  rewrite E1. split; [reflexivity|].
  rewrite call_first by reflexivity.
  unfold print.added. cbn [snd print.trace print.logAsJSON print.clock print.onces].
  rewrite skipn_length_app, E2. reflexivity.
Qed.

Lemma completion_formats_message_again_witness :
  print.added
    (snd (print.Spinner fmt.operand fmt.SprintfOr "linux" example.clock
            1 "%s" [fmt.OfString "hi%d"] print.initial))
    (snd (print.call fmt.operand fmt.SprintfOr "linux" example.clock
            (fst (print.Spinner fmt.operand fmt.SprintfOr "linux" example.clock
                    1 "%s" [fmt.OfString "hi%d"] print.initial))
            print.Success
            (snd (print.Spinner fmt.operand fmt.SprintfOr "linux" example.clock
                    1 "%s" [fmt.OfString "hi%d"] print.initial)))) =
  [print.EvSpinnerStop (spinner.mkSpinner 0 100000000 "cyan" 1 "  hi%d");
   print.EvWrite 1 ("✅  hi%!d(MISSING)" ++ nl)].
Proof.
  exact (proj2 (completion_formats_message_again fmt.SprintfOr example.clock SprintfOr_agrees)).
Defined.

Lemma status_event_json_witness :
  exists line,
    print.StatusEvent fmt.operand fmt.SprintfOr "linux" example.clock
      print.info 1 "%d%% of <%s>" [fmt.OfInt 50; fmt.OfString "daprd"] example.json_mode =
      (tt, print.mkWorld true 1 [] [print.EvWrite 1 (line ++ nl)]) /\
    bufio.IndexByte line LF = None /\
    json.Unmarshal line =
      Some (json.Object
              [("time", json.Str "2021-03-09T12:00:00.12Z");
               ("status", json.Str "info");
               ("msg", json.Str "50% of <daprd>")]) /\
    json.Unmarshal (line ++ nl) = json.Unmarshal line /\
    (utf8.ValidString "50% of <daprd>" = true ->
     json.toValidUTF8 "50% of <daprd>" = "50% of <daprd>").
Proof.
  apply (status_event_json fmt.operand fmt.SprintfOr "linux" example.clock
           print.info 1 "%d%% of <%s>" [fmt.OfInt 50; fmt.OfString "daprd"]
           example.json_mode); [reflexivity | simpl; lia].
Defined.

(** C2 as stated fails: the formatted message is one byte that is no
    UTF-8, and the member [msg] of the object written is U+FFFD. *)
Lemma status_event_json_invalid_utf8 :
  let g := snd (print.SuccessStatusEvent fmt.operand fmt.SprintfOr "linux" example.clock
                  1 example.bad_utf8 [] example.json_mode) in
  fmt.Sprintf example.bad_utf8 [] = Some example.bad_utf8 /\
  match print.trace g with
  | [print.EvWrite _ p] => option_map (json.field "msg") (json.Unmarshal p)
  | _ => None
  end = Some (Some (json.Str (utf8.EncodeRune utf8.RuneError))) /\
  utf8.EncodeRune utf8.RuneError <> example.bad_utf8.
Proof.
  split; [reflexivity|]. split; [vm_compute; reflexivity | discriminate].
Qed.

Section OutcomeFacts.

Variable any : Type.
Variable Sprintf : string -> list any -> string.
Variable GOOS : string.
Variable Now : nat -> time.Time.
Variable Write : list print.Event -> print.Writer -> string -> io.answer.




End OutcomeFacts.




(** Two samples of the version functions: a stub that prints 1.2.3 and
    a newline, and no binary at all. *)
Example GetRuntimeVersion_stub :
  fst (standalone.GetRuntimeVersion example.binDir example.binaryFilePath example.stub []) =
    "1.2.3" ++ nl /\
  fst (standalone.GetDashboardVersion example.binDir example.binaryFilePath example.absent []) =
    "n/a" ++ nl.
Proof.
  split; reflexivity.
Qed.

(** The carriage return at the end of a line is no part of the line
    appended. *)
Example GetBuildInfo_crlf :
  fst (standalone.GetBuildInfo "abc123" "v1.0.0-rc" example.binDir example.binaryFilePath
         example.crlf "1.0.0" []) =
  "CLI:" ++ nl ++
  tab ++ "Version: 1.0.0" ++ nl ++
  tab ++ "Git Commit: abc123" ++ nl ++
  tab ++ "Git Version: v1.0.0-rc" ++ nl ++
  "Runtime:" ++ nl ++
  tab ++ "Runtime: 1.0.0" ++ nl ++
  tab ++ "Go: 1.17".
Proof.
  rewrite GetBuildInfo_scanned. cbn [example.crlf fst].
  rewrite tokens_lines; reflexivity || (simpl; lia).
Qed.

Lemma completion_fires_once_concurrently_witness :
  let f := fst (print.Spinner fmt.operand fmt.SprintfOr "linux" example.clock
                  1 "Downloading %s" [fmt.OfString "binaries"] print.initial) in
  let g1 := snd (print.Spinner fmt.operand fmt.SprintfOr "linux" example.clock
                   1 "Downloading %s" [fmt.OfString "binaries"] print.initial) in
  let st := print.concurrent_calls fmt.operand fmt.SprintfOr "linux" example.clock
              f example.results example.race g1 in
  let st' := print.concurrent_calls fmt.operand fmt.SprintfOr "linux" example.clock
               f example.results example.alone g1 in
  sync.acquired print.World st = [1; 0] /\
  print.writes (print.added g1 (sync.world print.World st)) =
    [print.EvWrite 1 ("❌  Downloading binaries" ++ nl)] /\
  sync.at_ print.World st' 0 = sync.Called /\
  sync.at_ print.World st' 1 = sync.Returned /\
  print.writes (print.added g1 (sync.world print.World st')) =
    [print.EvWrite 1 ("❌  Downloading binaries" ++ nl)].
Proof.
  cbv zeta. split; [reflexivity|]. split; [|split; [reflexivity|split; [reflexivity|]]].
  - destruct (completion_fires_once_concurrently fmt.operand fmt.SprintfOr "linux"
                example.clock 1 "Downloading %s" [fmt.OfString "binaries"] print.initial
                example.results example.race 0) as (j & rest & A & E).
    + right. discriminate.
    + reflexivity.
    + injection A as <- _. rewrite E. reflexivity.
  - destruct (completion_fires_once_concurrently fmt.operand fmt.SprintfOr "linux"
                example.clock 1 "Downloading %s" [fmt.OfString "binaries"] print.initial
                example.results example.alone 1) as (j & rest & A & E).
    + right. discriminate.
    + reflexivity.
    + injection A as <- _. rewrite E. reflexivity.
Defined.

(** ** The scanner on any input *)

Section ScanningAnyInput.

Import bufio standalone.

Lemma lines_nil (s : string) : lines s = [] -> s = EmptyString.
Proof.
  destruct s as [|c t]; [reflexivity|]. simpl.
  destruct (Ascii.eqb c LF); [discriminate|].
  destruct (lines t); discriminate.
Qed.

(** A scan of an input whose first line fills the buffer stops. *)
Lemma Scan_first_long (max : nat) (s l : string) (ls : list string) :
  lines s = l :: ls -> max <= String.length l -> Scan max s = None.
Proof.
  intros E L. unfold Scan, ScanLines. rewrite IndexByte_take.
  destruct (IndexByte s LF) as [i|] eqn:I.
  - destruct (IndexByte_lines s i I) as [E' B].
    rewrite E in E'. inversion E'; subst l ls.
    rewrite length_take in L.
    replace (i <? max)%nat with false by (symmetry; apply Nat.ltb_ge; lia).
    replace (String.length s <? max)%nat with false by (symmetry; apply Nat.ltb_ge; lia).
    reflexivity.
  - assert (N : s <> EmptyString) by (intros ->; discriminate).
    rewrite (IndexByte_none_lines s I N) in E. inversion E; subst l ls.
    replace (String.length s <? max)%nat with false by (symmetry; apply Nat.ltb_ge; lia).
    reflexivity.
Qed.

(** The scanner yields the lines before the first one that fills the
    buffer, each without its carriage return. *)
Lemma tokens_take_while (max fuel : nat) (s : string) :
  String.length s < fuel ->
  tokens max fuel s =
  map dropCR (take_while (fun l => (String.length l <? max)%nat) (lines s)).
Proof.
  revert s; induction fuel as [|fuel IH]; intros s F; [lia|].
  cbn [tokens]. destruct (lines s) as [|l ls] eqn:E.
  - apply lines_nil in E. subst s. now rewrite Scan_empty.
  - cbn [take_while]. destruct (String.length l <? max)%nat eqn:L.
    + apply Nat.ltb_lt in L.
      destruct (Scan_first_line max s l ls E L) as (rest & -> & R & B).
      cbn [map]. f_equal. rewrite IH by lia. now rewrite R.
    + apply Nat.ltb_ge in L. now rewrite (Scan_first_long max s l ls E L).
Qed.

Lemma dropCR_no_newline (l : string) :
  IndexByte l LF = None -> IndexByte (dropCR l) LF = None.
Proof.
  induction l as [|c t IH]; [reflexivity|].
  cbn [IndexByte]. destruct (Ascii.eqb c LF) eqn:C; [discriminate|].
  destruct (IndexByte t LF) eqn:I; [discriminate|]. intros _.
  destruct t as [|c' t'].
  - cbn [dropCR]. destruct (Ascii.eqb c CR); [reflexivity|].
    cbn [IndexByte]. now rewrite C.
  - change (dropCR (String c (String c' t'))) with (String c (dropCR (String c' t'))).
    cbn [IndexByte]. rewrite C, IH by reflexivity. reflexivity.
Qed.

(** No token of the scanner has a newline in it. *)
Lemma Scan_no_newline (max : nat) (s text rest : string) :
  Scan max s = Some (text, rest) -> IndexByte text LF = None.
Proof.
  unfold Scan, ScanLines.
  destruct ((String.length s <? max)%nat && (String.length (take max s) =? 0)%nat);
    [discriminate|].
  destruct (IndexByte (take max s) LF) as [i|] eqn:I.
  - intros H. injection H as <- _. apply dropCR_no_newline.
    rewrite IndexByte_take, I, Nat.ltb_irrefl. reflexivity.
  - destruct (String.length s <? max)%nat; [|discriminate].
    intros H. injection H as <- _. now apply dropCR_no_newline.
Qed.

Lemma tokens_no_newline (max fuel : nat) (s : string) :
  Forall (fun l => IndexByte l LF = None) (tokens max fuel s).
Proof.
  revert s; induction fuel as [|fuel IH]; intros s; [constructor|].
  cbn [tokens]. destruct (Scan max s) as [[text rest]|] eqn:E; [|constructor].
  constructor; [exact (Scan_no_newline max s text rest E) | apply IH].
Qed.

(** Splitting what [strings.Join] made of texts that are not empty and
    have no newline in them gives the texts back. *)
Lemma lines_joined (x : string) (ys : list string) :
  IndexByte x LF = None -> x <> EmptyString ->
  Forall (fun y => IndexByte y LF = None /\ y <> EmptyString) ys ->
  lines (x ++ flat (map (fun l => nl ++ l) ys)) = x :: ys.
Proof.
  revert x; induction ys as [|y ys IH]; intros x X N F.
  - cbn [map flat]. rewrite append_nil_r. now apply IndexByte_none_lines.
  - inversion F as [|? ? [Y1 Y2] F']; subst.
    cbn [map flat]. change (nl ++ y) with (String LF y).
    change (String LF y ++ flat (map (fun l => nl ++ l) ys))
      with (String LF (y ++ flat (map (fun l => nl ++ l) ys))).
    rewrite lines_app by exact X. f_equal. now apply IH.
Qed.

Lemma last_byte_app (a b : string) :
  b <> EmptyString -> last_byte (a ++ b) = last_byte b.
Proof.
  intros N. induction a as [|c t IH]; [reflexivity|].
  cbn [append last_byte]. rewrite IH.
  destruct (t ++ b) eqn:E; [|reflexivity].
  destruct t; [simpl in E; congruence | discriminate].
Qed.

Lemma no_newline_last_byte (s : string) :
  IndexByte s LF = None -> ends_with_newline s = false.
Proof.
  unfold ends_with_newline. induction s as [|c t IH]; [reflexivity|].
  cbn [IndexByte]. destruct (Ascii.eqb c LF) eqn:C; [discriminate|].
  destruct (IndexByte t LF); [discriminate|]. intros _.
  destruct t as [|c' t']; [cbn [last_byte]; exact C|].
  change (last_byte (String c (String c' t'))) with (last_byte (String c' t')).
  now apply IH.
Qed.

Lemma ends_with_newline_app (a b : string) :
  b <> EmptyString -> ends_with_newline (a ++ b) = ends_with_newline b.
Proof.
  intros N. unfold ends_with_newline. now rewrite last_byte_app.
Qed.

Lemma ends_with_newline_flat (x : string) (ys : list string) :
  ends_with_newline x = false ->
  Forall (fun y => ends_with_newline y = false /\ y <> EmptyString) ys ->
  ends_with_newline (x ++ flat ys) = false.
Proof.
  revert x; induction ys as [|y ys IH]; intros x X F.
  - cbn [flat]. now rewrite append_nil_r.
  - inversion F as [|? ? [Y1 Y2] F']; subst. cbn [flat].
    rewrite ends_with_newline_app.
    + now apply IH.
    + destruct y; [congruence | discriminate].
Qed.

End ScanningAnyInput.

(** ** pkg/standalone: the report on any output *)

Section ReportFacts.

Variables gitcommit gitversion defaultDaprBinPath : string.
Variable binaryFilePath : string -> string -> string.
Variable Output : list standalone.Invocation -> standalone.Invocation -> string * option exec.Error.

Local Abbreviation GetRuntimeVersion :=
  (standalone.GetRuntimeVersion defaultDaprBinPath binaryFilePath Output).
Local Abbreviation GetBuildInfo :=
  (standalone.GetBuildInfo gitcommit gitversion defaultDaprBinPath binaryFilePath Output).
Local Abbreviation report := (standalone.report gitcommit gitversion).
Local Abbreviation daprd := (binaryFilePath defaultDaprBinPath "daprd").
Local Abbreviation build_info := (daprd, ["--build-info"]).
Local Abbreviation version_flag := (daprd, ["--version"]).

(** The lines of [out] before the first one of [MaxScanTokenSize] bytes
    or more, each without its carriage return. *)
Local Abbreviation fitting out :=
  (map bufio.dropCR
     (take_while (fun l => (String.length l <? bufio.MaxScanTokenSize)%nat)
        (standalone.lines out))).

(** X2.  Whatever the runtime prints, the report of [GetBuildInfo] has
    behind the line [Runtime:] the lines of the output that come before
    the first line of [MaxScanTokenSize] bytes or more, each without its
    carriage return: that line and all after it are left out.  The
    output is that of [--build-info], or that of [--version], asked for
    only if [--build-info] failed; if both fail the line is [N/A]. *)
Theorem GetBuildInfo_any_output (version : string) (h : list standalone.Invocation) :
  GetBuildInfo version h =
  match Output h build_info with
  | (out1, None) => (report version (fitting out1), (h ++ [build_info])%list)
  | (_, Some _) =>
    match Output (h ++ [build_info]) version_flag with
    | (out2, None) => (report version (fitting out2), (h ++ [build_info; version_flag])%list)
    | (_, Some _) => (report version ["N/A"], (h ++ [build_info; version_flag])%list)
    end
  end.
Proof.
  rewrite GetBuildInfo_scanned.
  destruct (Output h build_info) as [out1 [e1|]].
  - destruct (Output (h ++ [build_info]) version_flag) as [out2 [e2|]]; [reflexivity|].
    rewrite tokens_take_while by lia. reflexivity.
  - rewrite tokens_take_while by lia. reflexivity.
Qed.

(** The report is the report of texts without a newline. *)
Lemma GetBuildInfo_body (version : string) (h : list standalone.Invocation) :
  exists body,
    fst (GetBuildInfo version h) = report version body /\
    Forall (fun l => bufio.IndexByte l LF = None) body.
Proof.
  rewrite GetBuildInfo_scanned.
  destruct (Output h build_info) as [out1 [e1|]].
  - destruct (Output (h ++ [build_info]) version_flag) as [out2 [e2|]].
    + exists ["N/A"]. split; [reflexivity|]. repeat constructor.
    + eexists. split; [reflexivity | apply tokens_no_newline].
  - eexists. split; [reflexivity | apply tokens_no_newline].
Qed.

Lemma report_joined (version : string) (body : list string) :
  report version body =
  "CLI:" ++ flat (map (fun l => nl ++ l)
                    (List.app [ tab ++ "Version: " ++ version;
                                tab ++ "Git Commit: " ++ gitcommit;
                                tab ++ "Git Version: " ++ gitversion;
                                "Runtime:" ]
                              (map (append tab) body))).
Proof.
  unfold standalone.report. rewrite map_app, flat_app, map_map. cbn [map flat].
  repeat (rewrite append_assoc || (progress cbn [append nl tab])). reflexivity.
Qed.

(** The texts of the runtime section have no newline in them. *)
Lemma fitting_no_newline (out : string) :
  Forall (fun l => bufio.IndexByte l LF = None) (fitting out).
Proof.
  rewrite <- (tokens_take_while bufio.MaxScanTokenSize (S (String.length out)) out) by lia.
  apply tokens_no_newline.
Qed.

(** X3.  If the version, the commit and the git version have no
    newline in them, splitting the report of [GetBuildInfo] at its
    newlines gives the five lines of the header and then, each behind a
    tab and in order, exactly the texts the scan loop appended (the
    lines of the output before the first one of [MaxScanTokenSize]
    bytes or more, without their carriage returns) or the text [N/A]:
    no text of the runtime adds a line to the report or merges two. *)
Theorem GetBuildInfo_lines (version : string) (h : list standalone.Invocation) :
  bufio.IndexByte version LF = None ->
  bufio.IndexByte gitcommit LF = None ->
  bufio.IndexByte gitversion LF = None ->
  standalone.lines (fst (GetBuildInfo version h)) =
    List.app [ "CLI:";
               tab ++ "Version: " ++ version;
               tab ++ "Git Commit: " ++ gitcommit;
               tab ++ "Git Version: " ++ gitversion;
               "Runtime:" ]
             (map (append tab)
                match Output h build_info with
                | (out1, None) => fitting out1
                | (_, Some _) =>
                  match Output (h ++ [build_info]) version_flag with
                  | (out2, None) => fitting out2
                  | (_, Some _) => ["N/A"]
                  end
                end).
Proof.
  intros V C G.
  assert (K : forall body, Forall (fun l => bufio.IndexByte l LF = None) body ->
    standalone.lines (report version body) =
    List.app [ "CLI:"; tab ++ "Version: " ++ version; tab ++ "Git Commit: " ++ gitcommit;
               tab ++ "Git Version: " ++ gitversion; "Runtime:" ]
             (map (append tab) body)).
  { intros body F. rewrite report_joined.
    rewrite lines_joined; [reflexivity | reflexivity | discriminate |].
    apply Forall_app. split.
    - repeat constructor; try discriminate; simpl; rewrite ?V, ?C, ?G; reflexivity.
    - apply Forall_map. eapply Forall_impl; [|exact F].
      intros l L. cbn beta. split; [|discriminate].
      cbn [append tab bufio.IndexByte]. rewrite L. reflexivity. }
  rewrite GetBuildInfo_scanned.
  destruct (Output h build_info) as [out1 [e1|]].
  - destruct (Output (h ++ [build_info]) version_flag) as [out2 [e2|]]; cbn [fst].
    + apply K. repeat constructor.
    + rewrite tokens_take_while by lia. apply K, fitting_no_newline.
  - cbn [fst]. rewrite tokens_take_while by lia. apply K, fitting_no_newline.
Qed.

(** X4.  The report of [GetBuildInfo] never ends with a newline,
    whatever the runtime printed and whether or not it could be run. *)
Theorem GetBuildInfo_no_final_newline (version : string) (h : list standalone.Invocation) :
  ends_with_newline (fst (GetBuildInfo version h)) = false.
Proof.
  destruct (GetBuildInfo_body version h) as (body & E & F).
  rewrite E. unfold standalone.report.
  rewrite <- !append_assoc.
  apply ends_with_newline_flat.
  - rewrite ends_with_newline_app by discriminate. reflexivity.
  - apply Forall_map. eapply Forall_impl; [|exact F].
    intros l L. cbn beta. split; [|discriminate].
    change (nl ++ tab ++ l) with (String LF (String TAB l)).
    change (String LF (String TAB l)) with (nl ++ String TAB l).
    rewrite ends_with_newline_app by discriminate.
    apply no_newline_last_byte. cbn [bufio.IndexByte]. rewrite L. reflexivity.
Qed.

End ReportFacts.

(** ** pkg/print: modes, writers and guards *)

Section PrintMore.

Variable any : Type.
Variable Sprintf : string -> list any -> string.
Variable GOOS : string.
Variable Now : nat -> time.Time.

Import print.

Local Abbreviation StatusEvent := (print.StatusEvent any Sprintf GOOS Now).
Local Abbreviation Spinner := (print.Spinner any Sprintf GOOS Now).
Local Abbreviation call := (print.call any Sprintf GOOS Now).
Local Abbreviation calls := (print.calls any Sprintf GOOS Now).
Local Abbreviation exec := (print.exec any Sprintf GOOS Now).
Local Abbreviation run := (print.run any Sprintf GOOS Now).
Local Abbreviation status_line := (print.status_line GOOS).
Local Abbreviation is_enable := (print.is_enable any).

Lemma run_step (c : Call any) (cs : list (Call any)) (g : World) :
  run (c :: cs) g = run cs (exec c g).
Proof.
  reflexivity.
Qed.

(** X5.  [IsJSONLogEnabled] answers true exactly if the flag was on
    before or [EnableJSONFormat] is among the calls made since: no
    status event, spinner or completion turns JSON mode on or off, and
    asking changes nothing. *)
Theorem IsJSONLogEnabled_after (cs : list (Call any)) (g : World) :
  IsJSONLogEnabled (run cs g) = (logAsJSON g || existsb is_enable cs, run cs g).
Proof.
  unfold IsJSONLogEnabled, getLogAsJSON. f_equal.
  revert g; induction cs as [|c cs IH]; intros g.
  - cbn [existsb]. now rewrite orb_false_r.
  - rewrite run_step, IH, (exec_logAsJSON any Sprintf GOOS Now). cbn [existsb].
    destruct c; cbn [print.is_enable]; rewrite ?orb_true_r, ?orb_false_l; reflexivity.
Qed.

Lemma ends_with_newline_nl (x : string) : ends_with_newline (x ++ nl) = true.
Proof.
  rewrite ends_with_newline_app by discriminate. reflexivity.
Qed.

Lemma status_line_ends (json : bool) (now : time.Time) (t : Severity) (m : string) :
  ends_with_newline (status_line json now t m) = true.
Proof.
  unfold print.status_line. destruct json.
  - destruct (Marshal _); apply ends_with_newline_nl.
  - destruct (String.eqb GOOS windowsOS); [apply ends_with_newline_nl|].
    rewrite <- !append_assoc. apply ends_with_newline_nl.
Qed.

Lemma added_same (g g' : World) : trace g' = trace g -> added g g' = [].
Proof.
  intros E. unfold added. rewrite E. apply skipn_all.
Qed.

Lemma added_app (g g' : World) (es : list Event) :
  trace g' = (trace g ++ es)%list -> added g g' = es.
Proof.
  intros E. unfold added. rewrite E. apply skipn_length_app.
Qed.

(** The events a call adds: the trace only grows. *)
Lemma exec_added (c : Call any) (g : World) :
  trace (exec c g) = (trace g ++ added g (exec c g))%list.
Proof.
  assert (K : forall g', trace g' = trace g -> trace g' = (trace g ++ added g g')%list).
  { intros g' E. rewrite (added_same g g' E), app_nil_r. exact E. }
  assert (A : forall g' es, trace g' = (trace g ++ es)%list ->
                            trace g' = (trace g ++ added g g')%list).
  { intros g' es E. now rewrite (added_app g g' es E). }
  destruct c as [| |t w fmtstr a|w fmtstr a|f result]; cbn [print.exec].
  - now apply K.
  - now apply K.
  - rewrite (StatusEvent_spec any Sprintf GOOS Now). eapply A. reflexivity.
  - rewrite (Spinner_spec any Sprintf GOOS Now). cbv zeta.
    destruct (logAsJSON g); [|destruct (String.eqb GOOS windowsOS)]; eapply A; reflexivity.
  - destruct f as [|o s w msg]; [now apply K|].
    destruct (is_done o g) eqn:D.
    + rewrite (call_done any Sprintf GOOS Now) by exact D. now apply K.
    + rewrite (call_first any Sprintf GOOS Now) by exact D. eapply A. reflexivity.
Qed.

(** X6.  Every exported call only adds to what was done before.  Of
    the writes the package makes itself, those of [fmt.Fprintf] and
    [fmt.Fprintln], a call makes at most one, and the bytes of that
    write end with a newline: in JSON mode, in human mode, on Windows,
    and when the record cannot be marshalled.  What the spinner library
    draws on its writer between the start and the stop of a spinner is
    no part of this. *)
Theorem calls_write_whole_lines (c : Call any) (g : World) :
  trace (exec c g) = (trace g ++ added g (exec c g))%list /\
  match writes (added g (exec c g)) with
  | [] => True
  | [EvWrite _ p] => ends_with_newline p = true
  | _ => False
  end.
Proof.
  split; [apply exec_added|].
  destruct c as [| |t w fmtstr a|w fmtstr a|f result]; cbn [print.exec].
  - now rewrite added_same.
  - now rewrite added_same.
  - rewrite (StatusEvent_spec any Sprintf GOOS Now). cbn [snd].
    erewrite added_app by reflexivity. cbn [writes filter is_write].
    apply status_line_ends.
  - rewrite (Spinner_spec any Sprintf GOOS Now). cbv zeta.
    destruct (logAsJSON g); [|destruct (String.eqb GOOS windowsOS)]; cbn [snd];
      erewrite added_app by reflexivity; cbn [writes filter is_write];
      [apply status_line_ends | apply ends_with_newline_nl | exact I].
  - destruct f as [|o s w msg]; [now rewrite added_same|].
    destruct (is_done o g) eqn:D.
    + rewrite (call_done any Sprintf GOOS Now) by exact D. now rewrite added_same.
    + rewrite (call_first any Sprintf GOOS Now) by exact D. cbn [snd].
      erewrite added_app by reflexivity.
      destruct s as [sp|]; cbn [List.app writes filter is_write]; apply status_line_ends.
Qed.

(** X7.  In JSON mode, with the year of the clock in 0..9999, [Spinner]
    starts no spinner: it writes one line, a JSON object and a newline,
    whose status is [pending] and whose message is the formatted message
    (with every byte that is no UTF-8 replaced by U+FFFD), and it
    returns a function that has no spinner to stop. *)
Theorem Spinner_json_pending (w : Writer) (fmtstr : string) (a : list any) (g : World) :
  logAsJSON g = true ->
  (0 <= time.Year (Now (clock g)) <= 9999)%Z ->
  exists line,
    Spinner w fmtstr a g =
      (closure (List.length (onces g)) None w (Sprintf fmtstr a),
       mkWorld true (S (clock g)) (onces g ++ [false]) (trace g ++ [EvWrite w (line ++ nl)])) /\
    bufio.IndexByte line LF = None /\
    json.Unmarshal line =
      Some (json.Object
              [("time", json.Str (time.formatRFC3339Nano (Now (clock g))));
               ("status", json.Str "pending");
               ("msg", json.Str (json.toValidUTF8 (Sprintf fmtstr a)))]).
Proof.
  intros J Y.
  exists (json.log_text (time.formatRFC3339Nano (Now (clock g))) "pending" (Sprintf fmtstr a)
            EmptyString).
  assert (P := formatRFC3339Nano_plain (Now (clock g))).
  split; [|split].
  - rewrite (Spinner_spec any Sprintf GOOS Now). cbv zeta. rewrite J.
    unfold print.status_line. cbn [tag].
    now rewrite Marshal_in_range by exact Y.
  - apply printable_no_newline, log_text_printable, P.
  - rewrite Unmarshal_log_text by (exact P || reflexivity). reflexivity.
Qed.

Lemma fresh_not_done (l : list bool) : nth (List.length l) (l ++ [false]) false = false.
Proof.
  rewrite app_nth2, Nat.sub_diag by lia. reflexivity.
Qed.

(** X8.  In human mode off Windows, [Spinner] writes nothing itself:
    it starts a spinner on [w] whose suffix is two spaces and the
    message.  The first call of the function it returns stops that same
    spinner and only then writes the line of the result, so that the
    events of the two calls are start, stop, write. *)
Theorem Spinner_human_lifecycle
    (w : Writer) (fmtstr : string) (a : list any) (g : World) (r : Result) :
  logAsJSON g = false ->
  GOOS <> windowsOS ->
  let sp := spinner.mkSpinner 0 100000000 "cyan" w ("  " ++ Sprintf fmtstr a) in
  let f := fst (Spinner w fmtstr a g) in
  let g1 := snd (Spinner w fmtstr a g) in
  added g g1 = [EvSpinnerStart sp] /\
  added g (snd (call f r g1)) =
    [EvSpinnerStart sp; EvSpinnerStop sp;
     EvWrite w (icon (outcome r) ++ "  " ++ Sprintf (Sprintf fmtstr a) [] ++ nl)].
Proof.
  intros J G sp f g1. subst sp f g1.
  apply String.eqb_neq in G.
  rewrite (Spinner_spec any Sprintf GOOS Now). cbv zeta. rewrite J, G. cbn [fst snd].
  split; [now apply added_app|].
  rewrite (call_first any Sprintf GOOS Now)
    by (unfold is_done; cbn [onces]; apply fresh_not_done).
  cbn [snd logAsJSON clock trace]. unfold print.status_line. rewrite G.
  apply added_app. cbn [trace]. rewrite <- app_assoc. reflexivity.
Qed.

Lemma nth_set_done_other (o o' : nat) (l : list bool) :
  o <> o' -> nth o' (set_done o l) false = nth o' l false.
Proof.
  revert o o'; induction l as [|b l IH]; intros [|o] [|o'] N; cbn [set_done nth];
    try reflexivity; try congruence.
  apply IH. congruence.
Qed.

(** A call of a closure leaves the mode, and the guards of the other
    closures, as they are. *)
Lemma call_keeps (o o' : nat) (s : option spinner.Spinner) (w : Writer) (msg : string)
    (r : Result) (g : World) :
  o <> o' ->
  logAsJSON (snd (call (closure o s w msg) r g)) = logAsJSON g /\
  is_done o' (snd (call (closure o s w msg) r g)) = is_done o' g.
Proof.
  intros N. destruct (is_done o g) eqn:D.
  - rewrite (call_done any Sprintf GOOS Now) by exact D. split; reflexivity.
  - rewrite (call_first any Sprintf GOOS Now) by exact D. cbn [snd logAsJSON].
    split; [reflexivity|]. unfold is_done. cbn [onces]. now apply nth_set_done_other.
Qed.

Lemma calls_keep (o o' : nat) (s : option spinner.Spinner) (w : Writer) (msg : string)
    (rs : list Result) (g : World) :
  o <> o' ->
  logAsJSON (calls (closure o s w msg) rs g) = logAsJSON g /\
  is_done o' (calls (closure o s w msg) rs g) = is_done o' g.
Proof.
  intros N. revert g; induction rs as [|r rs IH]; intros g; [split; reflexivity|].
  unfold print.calls. cbn [fold_left].
  fold (calls (closure o s w msg) rs (snd (call (closure o s w msg) r g))).
  destruct (IH (snd (call (closure o s w msg) r g))) as [J D].
  destruct (call_keeps o o' s w msg r g N) as [J' D'].
  rewrite J, D. split; assumption.
Qed.

(** What the first call of a closure adds. *)
Lemma call_first_writes (o : nat) (s : option spinner.Spinner) (w : Writer) (msg : string)
    (r : Result) (g : World) :
  is_done o g = false ->
  writes (added g (snd (call (closure o s w msg) r g))) =
  [EvWrite w (status_line (logAsJSON g) (Now (clock g)) (outcome r) (Sprintf msg []))].
Proof.
  intros D. rewrite (call_first any Sprintf GOOS Now) by exact D. cbn [snd].
  erewrite added_app by reflexivity. destruct s; reflexivity.
Qed.

(** Calls of one closure leave the guard of another as it is: its
    first call still writes. *)
Lemma other_guard_fires (o o' : nat) (s s' : option spinner.Spinner) (w w' : Writer)
    (msg msg' : string) (rs : list Result) (r : Result) (g : World) :
  o <> o' -> is_done o' g = false ->
  writes (added (calls (closure o s w msg) rs g)
            (snd (call (closure o' s' w' msg') r (calls (closure o s w msg) rs g)))) =
  [EvWrite w' (status_line (logAsJSON g) (Now (clock (calls (closure o s w msg) rs g)))
                 (outcome r) (Sprintf msg' []))].
Proof.
  intros N D. destruct (calls_keep o o' s w msg rs g N) as [K D'].
  rewrite call_first_writes, K; [reflexivity|]. now rewrite D'.
Qed.

(** X9.  Two spinners have a guard each.  For spinners created one
    after the other, in JSON mode or off Windows: however often the
    function of one of them has been called, the first call of the
    function of the other still writes the line of its result. *)
Theorem spinners_have_their_own_guard
    (w1 w2 : Writer) (fmt1 fmt2 : string) (a1 a2 : list any) (g : World) :
  logAsJSON g = true \/ GOOS <> windowsOS ->
  let f1 := fst (Spinner w1 fmt1 a1 g) in
  let g1 := snd (Spinner w1 fmt1 a1 g) in
  let f2 := fst (Spinner w2 fmt2 a2 g1) in
  let g2 := snd (Spinner w2 fmt2 a2 g1) in
  (forall rs r,
     let g3 := calls f1 rs g2 in
     writes (added g3 (snd (call f2 r g3))) =
       [EvWrite w2 (status_line (logAsJSON g) (Now (clock g3)) (outcome r)
                      (Sprintf (Sprintf fmt2 a2) []))]) /\
  (forall rs r,
     let g3 := calls f2 rs g2 in
     writes (added g3 (snd (call f1 r g3))) =
       [EvWrite w1 (status_line (logAsJSON g) (Now (clock g3)) (outcome r)
                      (Sprintf (Sprintf fmt1 a1) []))]).
Proof.
  intros H f1 g1 f2 g2. subst f1 g1 f2 g2.
  assert (L : forall l : list bool, List.length (l ++ [false]) = S (List.length l)).
  { intros l. rewrite List.length_app, Nat.add_1_r. reflexivity. }
  assert (F : forall l : list bool, nth (List.length l) ((l ++ [false]) ++ [false]) false = false).
  { intros l. rewrite app_nth1 by (rewrite L; lia). apply fresh_not_done. }
  rewrite (Spinner_spec any Sprintf GOOS Now w1 fmt1 a1 g). cbv zeta.
  destruct (logAsJSON g) eqn:J; [|destruct (String.eqb GOOS windowsOS) eqn:G].
  - cbn [fst snd]. rewrite (Spinner_spec any Sprintf GOOS Now). cbv zeta.
    cbn [logAsJSON onces clock trace fst snd].
    split; intros rs r; apply other_guard_fires.
    + rewrite L. lia.
    + unfold is_done. cbn [onces]. apply fresh_not_done.
    + rewrite L. lia.
    + unfold is_done. cbn [onces]. apply F.
  - destruct H as [H|H]; [discriminate|]. apply String.eqb_eq in G. contradiction.
  - cbn [fst snd]. rewrite (Spinner_spec any Sprintf GOOS Now). cbv zeta.
    cbn [logAsJSON onces clock trace fst snd]. rewrite G.
    cbn [logAsJSON onces clock trace fst snd].
    split; intros rs r; apply other_guard_fires.
    + rewrite L. lia.
    + unfold is_done. cbn [onces]. apply fresh_not_done.
    + rewrite L. lia.
    + unfold is_done. cbn [onces]. apply F.
Qed.

(** X10.  The function [Spinner] returns reports in the mode in force
    when it is called, not in the mode the spinner was created in.  For
    a spinner created in human mode off Windows, with
    [EnableJSONFormat] called before the function: the call stops the
    spinner and writes a JSON line with the status of the result (the
    year of the clock in 0..9999). *)
Theorem completion_reports_in_current_mode
    (w : Writer) (fmtstr : string) (a : list any) (g : World) (r : Result) :
  logAsJSON g = false ->
  GOOS <> windowsOS ->
  (0 <= time.Year (Now (clock g)) <= 9999)%Z ->
  let sp := spinner.mkSpinner 0 100000000 "cyan" w ("  " ++ Sprintf fmtstr a) in
  let f := fst (Spinner w fmtstr a g) in
  let g1 := snd (Spinner w fmtstr a g) in
  let g2 := snd (EnableJSONFormat g1) in
  exists line,
    added g2 (snd (call f r g2)) = [EvSpinnerStop sp; EvWrite w (line ++ nl)] /\
    json.Unmarshal line =
      Some (json.Object
              [("time", json.Str (time.formatRFC3339Nano (Now (clock g))));
               ("status", json.Str (tag (outcome r)));
               ("msg", json.Str (json.toValidUTF8 (Sprintf (Sprintf fmtstr a) [])))]).
Proof.
  intros J G Y sp f g1 g2. subst sp f g1 g2.
  apply String.eqb_neq in G.
  exists (json.log_text (time.formatRFC3339Nano (Now (clock g))) (tag (outcome r))
            (Sprintf (Sprintf fmtstr a) []) EmptyString).
  assert (P := formatRFC3339Nano_plain (Now (clock g))).
  assert (T : json.toValidUTF8 (tag (outcome r)) = tag (outcome r)) by (destruct r; reflexivity).
  split.
  - rewrite (Spinner_spec any Sprintf GOOS Now). cbv zeta. rewrite J, G.
    unfold EnableJSONFormat. cbn [fst snd clock onces trace].
    rewrite (call_first any Sprintf GOOS Now)
      by (unfold is_done; cbn [onces]; apply fresh_not_done).
    cbn [snd logAsJSON clock trace]. unfold print.status_line.
    rewrite Marshal_in_range by exact Y.
    apply added_app. reflexivity.
  - rewrite Unmarshal_log_text, T by (exact P || reflexivity). reflexivity.
Qed.

(** X11.  [Spinner] and the function it returns reach no writer but
    the one [Spinner] was given: every event either of them adds, in
    whatever world the function is called, is a write on [w] or the
    start or stop of a spinner that animates on [w]. *)
Theorem spinner_keeps_to_its_writer
    (w : Writer) (fmtstr : string) (a : list any) (g : World) :
  let f := fst (Spinner w fmtstr a g) in
  let g1 := snd (Spinner w fmtstr a g) in
  forallb (fun e => (writer_of e =? w)%nat) (added g g1) = true /\
  (forall r g', forallb (fun e => (writer_of e =? w)%nat) (added g' (snd (call f r g'))) = true).
Proof.
  intros f g1. subst f g1.
  rewrite (Spinner_spec any Sprintf GOOS Now). cbv zeta.
  assert (C : forall o s msg, match s with Some sp => spinner.Writer sp = w | None => True end ->
              forall r g', forallb (fun e => (writer_of e =? w)%nat)
                             (added g' (snd (call (closure o s w msg) r g'))) = true).
  { intros o s msg S r g'. destruct (is_done o g') eqn:D.
    - rewrite (call_done any Sprintf GOOS Now) by exact D.
      now rewrite added_same.
    - rewrite (call_first any Sprintf GOOS Now) by exact D. cbn [snd].
      erewrite added_app by reflexivity.
      destruct s as [sp|]; cbn [List.app forallb writer_of]; rewrite ?S, Nat.eqb_refl;
        reflexivity. }
  destruct (logAsJSON g); [|destruct (String.eqb GOOS windowsOS)]; cbn [fst snd].
  - split.
    + erewrite added_app by reflexivity. cbn [forallb writer_of]. now rewrite Nat.eqb_refl.
    + now apply C.
  - split.
    + erewrite added_app by reflexivity. cbn [forallb writer_of]. now rewrite Nat.eqb_refl.
    + intros r g'. now rewrite added_same.
  - split.
    + erewrite added_app by reflexivity.
      cbn [forallb writer_of spinner.Writer]. now rewrite Nat.eqb_refl.
    + now apply C.
Qed.

Lemma lines_not_nil (s : string) : s <> EmptyString -> standalone.lines s <> [].
Proof.
  intros N E. now apply lines_nil in E.
Qed.

(** A text with a newline at its end is one line exactly if it has no
    other newline. *)
Lemma one_line_iff (pre m : string) :
  bufio.IndexByte pre LF = None ->
  List.length (standalone.lines (pre ++ m ++ nl)) = 1 <-> bufio.IndexByte m LF = None.
Proof.
  intros P. split.
  - intros L. destruct (bufio.IndexByte m LF) as [i|] eqn:I; [exfalso | reflexivity].
    assert (B := IndexByte_bound m LF i I).
    assert (I' : bufio.IndexByte (pre ++ m ++ nl) LF = Some (String.length pre + i)).
    { rewrite IndexByte_app by exact P.
      assert (Q : bufio.IndexByte (m ++ nl) LF = Some i).
      { clear B L. revert i I. induction m as [|c t IH]; intros i I; [discriminate|].
        cbn [append bufio.IndexByte] in *. destruct (Ascii.eqb c LF); [exact I|].
        destruct (bufio.IndexByte t LF) as [j|]; [|discriminate].
        now rewrite (IH j eq_refl). }
      now rewrite Q. }
    destruct (IndexByte_lines _ _ I') as [E _]. rewrite E in L. cbn [List.length] in L.
    assert (N : standalone.lines (drop (S (String.length pre + i)) (pre ++ m ++ nl)) <> []).
    { apply lines_not_nil. intros D.
      assert (Z : String.length (drop (S (String.length pre + i)) (pre ++ m ++ nl)) = 0)
        by now rewrite D.
      rewrite length_drop, !length_append in Z. cbn [String.length nl] in Z. lia. }
    destruct (standalone.lines (drop (S (String.length pre + i)) (pre ++ m ++ nl)));
      [congruence | cbn [List.length] in L; lia].
  - intros I. rewrite <- append_assoc. unfold nl. rewrite lines_app; [reflexivity|].
    rewrite IndexByte_app by exact P. now rewrite I.
Qed.

(** X12.  A status event in human mode copies the formatted message as
    it is: the bytes it writes are one line exactly if the message has
    no newline in it. *)
Theorem status_event_human_one_line
    (t : Severity) (w : Writer) (fmtstr : string) (a : list any) (g : World) :
  logAsJSON g = false ->
  exists p,
    added g (snd (StatusEvent t w fmtstr a g)) = [EvWrite w p] /\
    (List.length (standalone.lines p) = 1 <-> bufio.IndexByte (Sprintf fmtstr a) LF = None).
Proof.
  intros J. rewrite (StatusEvent_spec any Sprintf GOOS Now), J. cbn [snd].
  eexists. split; [apply added_app; reflexivity|].
  unfold print.status_line. destruct (String.eqb GOOS windowsOS).
  - apply (one_line_iff EmptyString). reflexivity.
  - rewrite <- (append_assoc (icon t) "  ").
    apply one_line_iff. destruct t; reflexivity.
Qed.

End PrintMore.

(** ** encoding/json: what a line never holds *)

Section JSONEscaping.

Import utf8 json.

Lemma escapeByte_html_safe (c : ascii) :
  all_bytes html_safe (escapeByte (N_of_ascii c)) = true.
Proof.
  destruct c as [[] [] [] [] [] [] [] []]; reflexivity.
Qed.

Lemma htmlSafeSet_html_safe (b : N) : htmlSafeSet b = true -> html_safe b = true.
Proof.
  unfold htmlSafeSet, html_safe. intros H.
  repeat (apply andb_true_iff in H as [H ?]).
  repeat (apply andb_true_iff; split); assumption.
Qed.

Lemma high_html_safe (b : N) : (0x80 <=? b)%N = true -> html_safe b = true.
Proof.
  unfold html_safe. intros H. apply N.leb_le in H.
  rewrite (proj2 (N.leb_le _ _)), !(proj2 (N.eqb_neq _ _)) by lia.
  reflexivity.
Qed.

Lemma appendBody_html_safe (fuel : nat) (s : string) :
  (String.length s <= fuel)%nat -> all_bytes html_safe (appendBody fuel s) = true.
Proof.
  revert s; induction fuel as [|f IH]; intros s L; [reflexivity|].
  destruct s as [|c rest]; [reflexivity|].
  cbn [String.length] in L. cbn [appendBody]. cbv zeta.
  destruct (N_of_ascii c <? RuneSelf)%N eqn:A.
  - destruct (htmlSafeSet (N_of_ascii c)) eqn:Hs.
    + cbn [all_bytes]. rewrite IH by lia.
      now rewrite (htmlSafeSet_html_safe _ Hs).
    + rewrite all_bytes_app, escapeByte_html_safe, IH by lia. reflexivity.
  - apply N.ltb_ge in A. unfold RuneSelf in A.
    pose proof (decode_decoded (String c rest)) as D.
    destruct (DecodeRuneInString (String c rest)) as [r k]. cbn [fst snd] in D |- *.
    assert (K : (1 <= k)%nat) by (apply (decoded_width _ _ _ D); discriminate).
    assert (R : (String.length (drop k (String c rest)) <= f)%nat).
    { rewrite length_drop. cbn [String.length]. lia. }
    destruct ((r =? RuneError)%N && (k =? 1)%nat)%bool eqn:I.
    + rewrite all_bytes_app, IH by exact R. reflexivity.
    + assert (K1 : (1 < k)%nat).
      { inversion D; subst; try lia.
        rewrite N.eqb_refl in I. discriminate. }
      destruct ((r =? 0x2028) || (r =? 0x2029))%N eqn:T.
      * rewrite all_bytes_app, IH by exact R.
        apply orb_true_iff in T as [T|T]; apply N.eqb_eq in T; subst r; reflexivity.
      * rewrite all_bytes_app, IH by exact R.
        rewrite (all_bytes_impl (fun b => 0x80 <=? b)%N html_safe); [reflexivity | |].
        -- exact high_html_safe.
        -- apply (decoded_high _ _ _ D K1).
Qed.

Lemma digit_html_safe (n : N) : html_safe (N_of_ascii (time.digit n)) = true.
Proof.
  unfold time.digit, chr.
  assert (H : (n mod 10 < 10)%N) by (apply N.mod_lt; discriminate).
  generalize dependent (n mod 10)%N. intros m H.
  rewrite N_ascii_embedding by lia.
  unfold html_safe.
  rewrite (proj2 (N.leb_le _ _)), !(proj2 (N.eqb_neq _ _)) by lia.
  reflexivity.
Qed.

Lemma appendInt_html_safe (w : nat) (x : N) : all_bytes html_safe (time.appendInt w x) = true.
Proof.
  revert x; induction w as [|w IH]; intros x; cbn [time.appendInt]; [reflexivity|].
  rewrite all_bytes_app, IH. cbn [all_bytes]. now rewrite digit_html_safe.
Qed.

Lemma trimZeros_html_safe (s : string) :
  all_bytes html_safe s = true -> all_bytes html_safe (time.trimZeros s) = true.
Proof.
  induction s as [|c t IH]; cbn [all_bytes time.trimZeros]; intros H; [reflexivity|].
  apply andb_true_iff in H as [H1 H2]. specialize (IH H2).
  destruct (time.trimZeros t).
  - destruct (N_of_ascii c =? 48)%N; [reflexivity|]. cbn [all_bytes]. now rewrite H1.
  - cbn [all_bytes] in *. now rewrite H1, IH.
Qed.

Lemma formatRFC3339Nano_html_safe (t : time.Time) :
  all_bytes html_safe (time.formatRFC3339Nano t) = true.
Proof.
  unfold time.formatRFC3339Nano, time.appendNano.
  destruct (time.Nanosecond t =? 0)%N;
    repeat (rewrite all_bytes_app || rewrite appendInt_html_safe || rewrite trimZeros_html_safe);
    reflexivity.
Qed.

Lemma log_text_html_safe (ts status msg : string) :
  all_bytes html_safe ts = true ->
  all_bytes html_safe (log_text ts status msg EmptyString) = true.
Proof.
  intros P. unfold log_text.
  repeat (cbn [all_bytes append]; rewrite ?all_bytes_app, ?appendBody_html_safe by lia).
  rewrite P. reflexivity.
Qed.

Variable any : Type.
Variable Sprintf : string -> list any -> string.
Variable GOOS : string.
Variable Now : nat -> time.Time.

(** X13.  In JSON mode, with the year of the clock in 0..9999, the line
    a status event writes holds, before its final newline, no control
    character and none of the bytes [&], [<] and [>], whatever the
    message: the message cannot break the line or bring markup into
    it. *)
Theorem status_event_json_escaped
    (t : print.Severity) (w : print.Writer) (fmtstr : string) (a : list any)
    (g : print.World) :
  print.logAsJSON g = true ->
  (0 <= time.Year (Now (print.clock g)) <= 9999)%Z ->
  exists line,
    print.added g (snd (print.StatusEvent any Sprintf GOOS Now t w fmtstr a g)) =
      [print.EvWrite w (line ++ nl)] /\
    all_bytes html_safe line = true.
Proof.
  intros J Y.
  exists (log_text (time.formatRFC3339Nano (Now (print.clock g))) (print.tag t)
            (Sprintf fmtstr a) EmptyString).
  split.
  - rewrite StatusEvent_spec, J. cbn [snd]. unfold print.status_line.
    rewrite Marshal_in_range by exact Y.
    unfold print.added. cbn [print.trace]. apply skipn_length_app.
  - apply log_text_html_safe, formatRFC3339Nano_html_safe.
Qed.

End JSONEscaping.

(** ** pkg/standalone: the two ways to the version *)

Section ReportFallback.

Variables gitcommit gitversion defaultDaprBinPath : string.
Variable binaryFilePath : string -> string -> string.
Variable Output : list standalone.Invocation -> standalone.Invocation -> string * option exec.Error.

Local Abbreviation GetRuntimeVersion :=
  (standalone.GetRuntimeVersion defaultDaprBinPath binaryFilePath Output).
Local Abbreviation GetBuildInfo :=
  (standalone.GetBuildInfo gitcommit gitversion defaultDaprBinPath binaryFilePath Output).
Local Abbreviation report := (standalone.report gitcommit gitversion).
Local Abbreviation daprd := (binaryFilePath defaultDaprBinPath "daprd").
Local Abbreviation build_info := (daprd, ["--build-info"]).
Local Abbreviation version_flag := (daprd, ["--version"]).
Local Abbreviation fitting out :=
  (map bufio.dropCR
     (take_while (fun l => (String.length l <? bufio.MaxScanTokenSize)%nat)
        (standalone.lines out))).

(** X14.  For a runtime that fails on [--build-info] and answers
    [--version] after that as it would have before: if [--version]
    succeeds, the runtime section of [GetBuildInfo] is what
    [GetRuntimeVersion] returns, line by line; if it fails, the section
    is the line [N/A], where [GetRuntimeVersion] returns [n/a] and a
    newline. *)
Theorem GetBuildInfo_falls_back_to_version
    (version : string) (h : list standalone.Invocation) :
  snd (Output h build_info) <> None ->
  Output (h ++ [build_info]) version_flag = Output h version_flag ->
  match snd (Output h version_flag) with
  | None =>
    fst (GetBuildInfo version h) = report version (fitting (fst (GetRuntimeVersion h)))
  | Some _ =>
    fst (GetBuildInfo version h) = report version ["N/A"] /\
    fst (GetRuntimeVersion h) = "n/a" ++ nl
  end.
Proof.
  intros F S. rewrite GetBuildInfo_scanned, GetRuntimeVersion_spec.
  destruct (Output h build_info) as [out1 [e1|]]; [|now contradiction F].
  rewrite S. destruct (Output h version_flag) as [out2 [e2|]]; cbn [fst snd].
  - split; reflexivity.
  - rewrite tokens_take_while by lia. reflexivity.
Qed.

End ReportFallback.

(** ** Samples of the further properties *)

Lemma GetBuildInfo_lines_witness :
  standalone.lines
    (fst (standalone.GetBuildInfo "abc123" "v1.0.0-rc" example.binDir example.binaryFilePath
            example.crlf "1.0.0" [])) =
  [ "CLI:";
    tab ++ "Version: 1.0.0";
    tab ++ "Git Commit: abc123";
    tab ++ "Git Version: v1.0.0-rc";
    "Runtime:";
    tab ++ "Runtime: 1.0.0";
    tab ++ "Go: 1.17" ].
Proof.
  rewrite (GetBuildInfo_lines "abc123" "v1.0.0-rc" example.binDir example.binaryFilePath
             example.crlf "1.0.0" []); reflexivity.
Defined.

Lemma GetBuildInfo_falls_back_to_version_witness :
  fst (standalone.GetBuildInfo "abc123" "v1.0.0-rc" example.binDir example.binaryFilePath
         example.old_runtime "1.0.0" []) =
  standalone.report "abc123" "v1.0.0-rc" "1.0.0"
    (map bufio.dropCR
       (take_while (fun l => (String.length l <? bufio.MaxScanTokenSize)%nat)
          (standalone.lines
             (fst (standalone.GetRuntimeVersion example.binDir example.binaryFilePath
                     example.old_runtime []))))).
Proof.
  apply (GetBuildInfo_falls_back_to_version "abc123" "v1.0.0-rc" example.binDir
           example.binaryFilePath example.old_runtime "1.0.0" []);
    [discriminate | reflexivity].
Defined.

Lemma Spinner_json_pending_witness :
  exists line,
    print.Spinner fmt.operand fmt.SprintfOr "linux" example.clock
      1 "Downloading %s" [fmt.OfString "binaries"] example.json_mode =
      (print.closure 0 None 1 "Downloading binaries",
       print.mkWorld true 1 [false] [print.EvWrite 1 (line ++ nl)]) /\
    bufio.IndexByte line LF = None /\
    json.Unmarshal line =
      Some (json.Object
              [("time", json.Str "2021-03-09T12:00:00.12Z");
               ("status", json.Str "pending");
               ("msg", json.Str "Downloading binaries")]).
Proof.
  apply (Spinner_json_pending fmt.operand fmt.SprintfOr "linux" example.clock
           1 "Downloading %s" [fmt.OfString "binaries"] example.json_mode);
    [reflexivity | simpl; lia].
Defined.

Lemma Spinner_human_lifecycle_witness :
  let sp := spinner.mkSpinner 0 100000000 "cyan" 1 "  Downloading binaries" in
  let f := fst (print.Spinner fmt.operand fmt.SprintfOr "linux" example.clock
                  1 "Downloading %s" [fmt.OfString "binaries"] print.initial) in
  let g1 := snd (print.Spinner fmt.operand fmt.SprintfOr "linux" example.clock
                   1 "Downloading %s" [fmt.OfString "binaries"] print.initial) in
  print.added print.initial g1 = [print.EvSpinnerStart sp] /\
  print.added print.initial
    (snd (print.call fmt.operand fmt.SprintfOr "linux" example.clock f print.Success g1)) =
    [print.EvSpinnerStart sp; print.EvSpinnerStop sp;
     print.EvWrite 1 ("✅  Downloading binaries" ++ nl)].
Proof.
  apply (Spinner_human_lifecycle fmt.operand fmt.SprintfOr "linux" example.clock
           1 "Downloading %s" [fmt.OfString "binaries"] print.initial print.Success);
    [reflexivity | discriminate].
Defined.

Lemma spinners_have_their_own_guard_witness :
  let f1 := fst (print.Spinner fmt.operand fmt.SprintfOr "linux" example.clock
                   1 "first" [] print.initial) in
  let g1 := snd (print.Spinner fmt.operand fmt.SprintfOr "linux" example.clock
                   1 "first" [] print.initial) in
  let f2 := fst (print.Spinner fmt.operand fmt.SprintfOr "linux" example.clock
                   2 "second" [] g1) in
  let g2 := snd (print.Spinner fmt.operand fmt.SprintfOr "linux" example.clock
                   2 "second" [] g1) in
  let g3 := print.calls fmt.operand fmt.SprintfOr "linux" example.clock f1
              [print.Success; print.Success] g2 in
  let g4 := print.calls fmt.operand fmt.SprintfOr "linux" example.clock f2
              [print.Failure] g2 in
  print.writes
    (print.added g3 (snd (print.call fmt.operand fmt.SprintfOr "linux" example.clock
                            f2 print.Failure g3))) =
    [print.EvWrite 2 ("❌  second" ++ nl)] /\
  print.writes
    (print.added g4 (snd (print.call fmt.operand fmt.SprintfOr "linux" example.clock
                            f1 print.Success g4))) =
    [print.EvWrite 1 ("✅  first" ++ nl)].
Proof.
  cbv zeta.
  destruct (spinners_have_their_own_guard fmt.operand fmt.SprintfOr "linux" example.clock
              1 2 "first" "second" [] [] print.initial) as [A B];
    [right; discriminate|].
  split.
  - rewrite (A [print.Success; print.Success] print.Failure). reflexivity.
  - rewrite (B [print.Failure] print.Success). reflexivity.
Defined.

Lemma completion_reports_in_current_mode_witness :
  let sp := spinner.mkSpinner 0 100000000 "cyan" 1 "  Downloading binaries" in
  let f := fst (print.Spinner fmt.operand fmt.SprintfOr "linux" example.clock
                  1 "Downloading %s" [fmt.OfString "binaries"] print.initial) in
  let g1 := snd (print.Spinner fmt.operand fmt.SprintfOr "linux" example.clock
                   1 "Downloading %s" [fmt.OfString "binaries"] print.initial) in
  let g2 := snd (print.EnableJSONFormat g1) in
  exists line,
    print.added g2
      (snd (print.call fmt.operand fmt.SprintfOr "linux" example.clock f print.Failure g2)) =
      [print.EvSpinnerStop sp; print.EvWrite 1 (line ++ nl)] /\
    json.Unmarshal line =
      Some (json.Object
              [("time", json.Str "2021-03-09T12:00:00.12Z");
               ("status", json.Str "failure");
               ("msg", json.Str "Downloading binaries")]).
Proof.
  apply (completion_reports_in_current_mode fmt.operand fmt.SprintfOr "linux" example.clock
           1 "Downloading %s" [fmt.OfString "binaries"] print.initial print.Failure);
    [reflexivity | discriminate | simpl; lia].
Defined.

Lemma status_event_human_one_line_witness :
  exists p,
    print.added print.initial
      (snd (print.StatusEvent fmt.operand fmt.SprintfOr "linux" example.clock
              print.info 1 "%s" [fmt.OfString example.two_lines] print.initial)) =
      [print.EvWrite 1 p] /\
    (List.length (standalone.lines p) = 1 <-> bufio.IndexByte example.two_lines LF = None).
Proof.
  apply (status_event_human_one_line fmt.operand fmt.SprintfOr "linux" example.clock
           print.info 1 "%s" [fmt.OfString example.two_lines] print.initial).
  reflexivity.
Defined.

Lemma status_event_json_escaped_witness :
  exists line,
    print.added example.json_mode
      (snd (print.StatusEvent fmt.operand fmt.SprintfOr "linux" example.clock
              print.info 1 "%s" [fmt.OfString example.two_lines] example.json_mode)) =
      [print.EvWrite 1 (line ++ nl)] /\
    all_bytes json.html_safe line = true.
Proof.
  apply (status_event_json_escaped fmt.operand fmt.SprintfOr "linux" example.clock
           print.info 1 "%s" [fmt.OfString example.two_lines] example.json_mode);
    [reflexivity | simpl; lia].
Defined.

(** ** pkg/print: the platform in JSON mode *)

Section JSONPlatform.

Variable any : Type.
Variable Sprintf : string -> list any -> string.
Variable Now : nat -> time.Time.
Variables GOOS1 GOOS2 : string.

Import print.

Lemma exec_json_platform (c : Call any) (g : World) :
  logAsJSON g = true ->
  print.exec any Sprintf GOOS1 Now c g = print.exec any Sprintf GOOS2 Now c g.
Proof.
  intros J. destruct c as [| |t w fmtstr a|w fmtstr a|f result]; cbn [print.exec].
  - reflexivity.
  - reflexivity.
  - rewrite !StatusEvent_spec, J. reflexivity.
  - rewrite !Spinner_spec. cbv zeta. rewrite J. reflexivity.
  - destruct f as [|o s w msg]; [reflexivity|].
    destruct (is_done o g) eqn:D.
    + rewrite !call_done by exact D. reflexivity.
    + rewrite !call_first by exact D. rewrite J. reflexivity.
Qed.

(** X15.  In JSON mode the platform makes no difference: from a world
    in JSON mode, the same calls leave the same world, with the same
    writes, on Windows and off it. *)
Theorem json_mode_ignores_platform (cs : list (Call any)) (g : World) :
  logAsJSON g = true ->
  print.run any Sprintf GOOS1 Now cs g = print.run any Sprintf GOOS2 Now cs g.
Proof.
  revert g; induction cs as [|c cs IH]; intros g J; [reflexivity|].
  unfold print.run in *. cbn [fold_left].
  rewrite (exec_json_platform c g J). apply IH.
  rewrite exec_logAsJSON. destruct c; auto.
Qed.

End JSONPlatform.

Lemma json_mode_ignores_platform_witness :
  let f := print.closure 0 None 1 "Downloading binaries" in
  let cs := [ print.CallSpinner fmt.operand 1 "Downloading %s" [fmt.OfString "binaries"];
              print.CallStatusEvent fmt.operand print.warning 2 "disk %d%% full" [fmt.OfInt 93];
              print.CallCompletion fmt.operand f print.Success;
              print.CallCompletion fmt.operand f print.Failure ] in
  print.run fmt.operand fmt.SprintfOr "windows" example.clock cs example.json_mode =
  print.run fmt.operand fmt.SprintfOr "linux" example.clock cs example.json_mode.
Proof.
  cbv zeta.
  apply (json_mode_ignores_platform fmt.operand fmt.SprintfOr example.clock "windows" "linux").
  reflexivity.
Defined.
